(** * pixelIsometric: the layer manager and the state manager

    A shallow embedding of [js/layerManager.js] (class [LayerManager]) and
    [js/state.js] (class [StateManager]), and the properties of the two
    stores proved over it.

    Conventions of the embedding.
    - A JavaScript number is an integer of [Z]; the trees and the counters of
      the two classes hold integers only (a double is exact up to 2^53).
    - A method is a function from the receiver to a completion and the
      receiver afterwards; [Throw] is a raised [TypeError].
    - An array slot that holds [undefined] is [None]. *)

From stdpp Require Import base tactics option list numbers strings gmap pretty sorting.
From Stdlib Require Import ZArith Lia Ascii.

Set Warnings "-register-all".

Open Scope Z_scope.

(** ** Completions *)

(** How a statement completes: it returns a value, it raises, or it leaves
    the fragment of the language the embedding covers (a coercion of a
    non-primitive, a number that is not an integer). *)
Inductive Outcome (A : Type) : Type :=
| Ret (a : A)
| Throw
| Beyond.
Arguments Ret {A} a.
Arguments Throw {A}.
Arguments Beyond {A}.

Global Instance outcome_ret : MRet Outcome := fun _ a => Ret a.
Global Instance outcome_bind : MBind Outcome := fun _ _ f m =>
  match m with
  | Ret a => f a
  | Throw => Throw
  | Beyond => Beyond
  end.
Global Instance outcome_fmap : FMap Outcome := fun _ _ f m =>
  match m with
  | Ret a => Ret (f a)
  | Throw => Throw
  | Beyond => Beyond
  end.

(** A method of a class whose instance has type [S]: the completion and the
    instance as the call leaves it (also when it raises). *)
Definition Method (S A : Type) : Type := S -> Outcome A * S.

Definition mreturn {S A} (a : A) : Method S A := fun s => (Ret a, s).
Definition mthen {S A B} (m : Method S A) (k : A -> Method S B) : Method S B :=
  fun s =>
    match m s with
    | (Ret a, s') => k a s'
    | (Throw, s') => (Throw, s')
    | (Beyond, s') => (Beyond, s')
    end.
Definition lift {S A} (o : Outcome A) : Method S A := fun s => (o, s).
Definition modify {S} (f : S -> S) : Method S unit := fun s => (Ret tt, f s).
Definition reads {S A} (f : S -> A) : Method S A := fun s => (Ret (f s), s).

Declare Scope method_scope.
Delimit Scope method_scope with method.
Notation "'let*' x := m 'in' k" := (mthen m (fun x => k))
  (at level 10, x pattern, m at level 100, k at level 200) : method_scope.
Notation "m ;;; k" := (mthen m (fun _ => k))
  (at level 100, k at level 200, right associativity) : method_scope.

(** ** js/layerManager.js *)

Module LayerManager.

(** An object handle of the scene: the layer manager reads nothing of it but
    [userData.id]; [ref] tells two handles that carry the same id apart. *)
Record Object3D : Type := mkObject3D {
  userData_id : Z;
  ref : nat
}.

Record Layer : Type := mkLayer {
  id : Z;
  name : string;
  visible : bool;
  objects : list Object3D
}.

Global Instance Object3D_eq_dec : EqDecision Object3D.
Proof. solve_decision. Defined.
Global Instance Layer_eq_dec : EqDecision Layer.
Proof. solve_decision. Defined.

(** The instance.  [layers] are the slots of the array [this.layers];
    [layers_props] are the properties the array carries under a negative
    index, which are no elements of it and which no iteration visits. *)
Record LayerManager : Type := mkLayerManager {
  layers : list (option Layer);
  layers_props : gmap Z (option Layer);
  currentLayerId : Z;
  nextLayerId : Z
}.

Definition set_layers (f : list (option Layer) -> list (option Layer))
    (lm : LayerManager) : LayerManager :=
  mkLayerManager (f (layers lm)) (layers_props lm) (currentLayerId lm) (nextLayerId lm).
Definition set_currentLayerId (c : Z) (lm : LayerManager) : LayerManager :=
  mkLayerManager (layers lm) (layers_props lm) c (nextLayerId lm).

Definition set_name (s : string) (l : Layer) : Layer :=
  mkLayer (id l) s (visible l) (objects l).
Definition set_visible (b : bool) (l : Layer) : Layer :=
  mkLayer (id l) (name l) b (objects l).
Definition set_objects (os : list Object3D) (l : Layer) : Layer :=
  mkLayer (id l) (name l) (visible l) os.

(** [constructor()] *)
Definition constructor : LayerManager :=
  mkLayerManager [Some (mkLayer 1 "Layer 1" true [])] ∅ 1 2.

(** *** Arrays *)

(** [arr.find(cb)] and [arr.findIndex(cb)] over slots: the callback reads a
    field of its argument, so it raises on a slot that holds [undefined];
    the answer is the first slot that satisfies [p], with its index. *)
Fixpoint js_find {A} (p : A -> bool) (i : nat) (l : list (option A))
    : Outcome (option (nat * A)) :=
  match l with
  | [] => Ret None
  | None :: _ => Throw
  | Some x :: l' => if p x then Ret (Some (i, x)) else js_find p (S i) l'
  end.

Definition find {A} (p : A -> bool) (l : list (option A)) : Outcome (option A) :=
  fmap (M := Outcome) (fmap (M := option) snd) (js_find p 0%nat l).
Definition findIndex {A} (p : A -> bool) (l : list (option A)) : Outcome Z :=
  fmap (M := Outcome)
    (fun r => match r with Some (i, _) => Z.of_nat i | None => -1 end)
    (js_find p 0%nat l).

(** [layers[i]]: a slot, a property under a negative index, or [undefined]. *)
Definition array_get (lm : LayerManager) (i : Z) : option Layer :=
  if decide (0 <= i)
  then default None (layers lm !! Z.to_nat i)
  else default None (layers_props lm !! i).

(** [layers[i] = v]: writes the slot, extends the array when [i] is past
    its end, and stores a property when [i] is negative. *)
Definition array_set (i : Z) (v : option Layer) (lm : LayerManager) : LayerManager :=
  if decide (0 <= i)
  then
    if decide (Z.to_nat i < length (layers lm))%nat
    then set_layers (fun ls => <[Z.to_nat i := v]> ls) lm
    else set_layers
           (fun ls => ls ++ replicate (Z.to_nat i - length ls) None ++ [v]) lm
  else mkLayerManager (layers lm) (<[i := v]> (layers_props lm))
         (currentLayerId lm) (nextLayerId lm).

(** *** Methods *)

Local Open Scope method_scope.

(** [addLayer(name = `Layer ${this.nextLayerId}`)] *)
Definition addLayer (name_arg : option string) : Method LayerManager Layer :=
  fun lm =>
    let newLayer :=
      mkLayer (nextLayerId lm)
              (default ("Layer " +:+ pretty (nextLayerId lm)) name_arg)
              true [] in
    (Ret newLayer,
     mkLayerManager (layers lm ++ [Some newLayer]) (layers_props lm)
       (id newLayer) (nextLayerId lm + 1)).

(** [removeLayer(layerId)] *)
Definition removeLayer (layerId : Z) : Method LayerManager bool :=
  fun lm =>
    if decide (length (layers lm) <= 1)%nat then (Ret false, lm)
    else
      match findIndex (fun layer => bool_decide (id layer = layerId)) (layers lm) with
      | Throw => (Throw, lm)
      | Beyond => (Beyond, lm)
      | Ret layerIndex =>
          if decide (layerIndex = -1) then (Ret false, lm)
          else
            let after_fallback :=
              if decide (layerId = currentLayerId lm)
              then
                match find (fun layer => negb (bool_decide (id layer = layerId)))
                           (layers lm) with
                | Ret (Some fallbackLayer) =>
                    Ret (set_currentLayerId (id fallbackLayer) lm)
                | Ret None => Ret lm
                | Throw => Throw
                | Beyond => Beyond
                end
              else Ret lm in
            match after_fallback with
            | Ret lm1 => (Ret true, set_layers (delete (Z.to_nat layerIndex)) lm1)
            | Throw => (Throw, lm)
            | Beyond => (Beyond, lm)
            end
      end.

(** [layer.field = v] on the layer that [find] returned: the layer is the
    object in its slot, so the write shows in the slot. *)
Definition update_found (layerId : Z) (f : Layer -> Layer)
    : Method LayerManager (option Layer) :=
  fun lm =>
    match js_find (fun layer => bool_decide (id layer = layerId)) 0%nat (layers lm) with
    | Ret (Some (i, layer)) =>
        (Ret (Some (f layer)), set_layers (fun ls => <[i := Some (f layer)]> ls) lm)
    | Ret None => (Ret None, lm)
    | Throw => (Throw, lm)
    | Beyond => (Beyond, lm)
    end.

(** [renameLayer(layerId, newName)] *)
Definition renameLayer (layerId : Z) (newName : string) : Method LayerManager bool :=
  let* r := update_found layerId (set_name newName) in
  mreturn (bool_decide (is_Some r)).

(** [setCurrentLayer(layerId)] *)
Definition setCurrentLayer (layerId : Z) : Method LayerManager bool :=
  fun lm =>
    match find (fun layer => bool_decide (id layer = layerId)) (layers lm) with
    | Ret (Some _) => (Ret true, set_currentLayerId layerId lm)
    | Ret None => (Ret false, lm)
    | Throw => (Throw, lm)
    | Beyond => (Beyond, lm)
    end.

(** [getCurrentLayer()] *)
Definition getCurrentLayer : Method LayerManager (option Layer) :=
  fun lm =>
    (find (fun layer => bool_decide (id layer = currentLayerId lm)) (layers lm), lm).

(** [getAllLayers()] *)
Definition getAllLayers : Method LayerManager (list (option Layer)) :=
  reads layers.

(** [addObjectToCurrentLayer(object)] *)
Definition addObjectToCurrentLayer (object : Object3D) : Method LayerManager bool :=
  fun lm =>
    match js_find (fun layer => bool_decide (id layer = currentLayerId lm))
                  0%nat (layers lm) with
    | Ret (Some (i, currentLayer)) =>
        (Ret true,
         set_layers
           (fun ls => <[i := Some (set_objects (objects currentLayer ++ [object])
                                     currentLayer)]> ls) lm)
    | Ret None => (Ret false, lm)
    | Throw => (Throw, lm)
    | Beyond => (Beyond, lm)
    end.

(** The [for (const layer of this.layers)] loop of [removeObjectFromLayer]:
    [Some] of the slots after the splice when a layer holds a match. *)
Fixpoint removeObject_loop (object : Object3D) (ls : list (option Layer))
    : Outcome (option (list (option Layer))) :=
  match ls with
  | [] => Ret None
  | None :: _ => Throw
  | Some layer :: rest =>
      match list_find (fun obj => userData_id obj = userData_id object)
                      (objects layer) with
      | Some (objectIndex, _) =>
          Ret (Some (Some (set_objects (delete objectIndex (objects layer)) layer)
                     :: rest))
      | None =>
          fmap (M := Outcome) (fmap (M := option) (cons (Some layer)))
               (removeObject_loop object rest)
      end
  end.

(** [removeObjectFromLayer(object)] *)
Definition removeObjectFromLayer (object : Object3D) : Method LayerManager bool :=
  fun lm =>
    match removeObject_loop object (layers lm) with
    | Ret (Some ls') => (Ret true, set_layers (fun _ => ls') lm)
    | Ret None => (Ret false, lm)
    | Throw => (Throw, lm)
    | Beyond => (Beyond, lm)
    end.

(** [moveObjectToLayer(object, targetLayerId)] *)
Definition moveObjectToLayer (object : Object3D) (targetLayerId : Z)
    : Method LayerManager bool :=
  removeObjectFromLayer object ;;;
  fun lm =>
    match js_find (fun layer => bool_decide (id layer = targetLayerId))
                  0%nat (layers lm) with
    | Ret (Some (i, targetLayer)) =>
        (Ret true,
         set_layers
           (fun ls => <[i := Some (set_objects (objects targetLayer ++ [object])
                                     targetLayer)]> ls) lm)
    | Ret None => (Ret false, lm)
    | Throw => (Throw, lm)
    | Beyond => (Beyond, lm)
    end.

(** [arr.map(layer => layer.id)] *)
Fixpoint map_id (ls : list (option Layer)) : Outcome (list Z) :=
  match ls with
  | [] => Ret []
  | None :: _ => Throw
  | Some layer :: rest => fmap (M := Outcome) (cons (id layer)) (map_id rest)
  end.

(** What [String] prints of a number; [None] is [NaN]. *)
Definition number_string (n : option Z) : string :=
  match n with
  | Some z => pretty z
  | None => "NaN"
  end.

(** The order of [Array.prototype.sort()] without a comparator: by the
    strings of the elements. *)
Definition sort_le (a b : option Z) : Prop :=
  String.leb (number_string a) (number_string b) = true.
Global Instance sort_le_dec a b : Decision (sort_le a b).
Proof. unfold sort_le. apply _. Defined.

Definition sort (l : list (option Z)) : list (option Z) := merge_sort sort_le l.

(** [newOrderIds.map(layerId => this.layers.find(layer => layer.id === layerId))] *)
Fixpoint map_find (ls : list (option Layer)) (ids : list (option Z))
    : Outcome (list (option Layer)) :=
  match ids with
  | [] => Ret []
  | layerId :: rest =>
      match find (fun layer => bool_decide (Some (id layer) = layerId)) ls with
      | Ret slot => fmap (M := Outcome) (cons slot) (map_find ls rest)
      | Throw => Throw
      | Beyond => Beyond
      end
  end.

(** [reorderLayers(newOrder)].  [newOrderIds] is [newOrder] after
    [parseInt], with [None] where [parseInt] answers [NaN].  The two
    [JSON.stringify] texts are equal exactly when the sorted lists are:
    an integer prints as itself and [NaN] as [null].  [sort()] sorts the
    array it is called on, so that [newOrderIds] is sorted when the layers
    are looked up. *)
Definition reorderLayers (newOrderIds : list (option Z)) : Method LayerManager bool :=
  fun lm =>
    match map_id (layers lm) with
    | Throw => (Throw, lm)
    | Beyond => (Beyond, lm)
    | Ret currentLayerIds =>
        let newOrderIds := sort newOrderIds in
        if decide (sort (Some <$> currentLayerIds) = newOrderIds)
        then
          match map_find (layers lm) newOrderIds with
          | Ret ls' =>
              (Ret true,
               mkLayerManager ls' ∅ (currentLayerId lm) (nextLayerId lm))
          | Throw => (Throw, lm)
          | Beyond => (Beyond, lm)
          end
        else (Ret false, lm)
    end.

(** [moveLayerUp(layerId)] *)
Definition moveLayerUp (layerId : Z) : Method LayerManager bool :=
  fun lm =>
    match findIndex (fun layer => bool_decide (id layer = layerId)) (layers lm) with
    | Throw => (Throw, lm)
    | Beyond => (Beyond, lm)
    | Ret currentIndex =>
        if decide (currentIndex > 0)
        then
          let temp := array_get lm (currentIndex - 1) in
          let lm1 := array_set (currentIndex - 1) (array_get lm currentIndex) lm in
          let lm2 := array_set currentIndex temp lm1 in
          (Ret true, lm2)
        else (Ret false, lm)
    end.

(** [moveLayerDown(layerId)] *)
Definition moveLayerDown (layerId : Z) : Method LayerManager bool :=
  fun lm =>
    match findIndex (fun layer => bool_decide (id layer = layerId)) (layers lm) with
    | Throw => (Throw, lm)
    | Beyond => (Beyond, lm)
    | Ret currentIndex =>
        if decide (currentIndex < Z.of_nat (length (layers lm)) - 1)
        then
          let temp := array_get lm (currentIndex + 1) in
          let lm1 := array_set (currentIndex + 1) (array_get lm currentIndex) lm in
          let lm2 := array_set currentIndex temp lm1 in
          (Ret true, lm2)
        else (Ret false, lm)
    end.

(** [toggleLayerVisibility(layerId)]: the new flag, or [null] ([None]). *)
Definition toggleLayerVisibility (layerId : Z) : Method LayerManager (option bool) :=
  let* r := update_found layerId (fun l => set_visible (negb (visible l)) l) in
  mreturn (visible <$> r).

(** [arr.flatMap(layer => layer.objects)] *)
Fixpoint flatMap_objects (ls : list (option Layer)) : Outcome (list Object3D) :=
  match ls with
  | [] => Ret []
  | None :: _ => Throw
  | Some layer :: rest =>
      fmap (M := Outcome) (app (objects layer)) (flatMap_objects rest)
  end.

(** [arr.filter(layer => layer.visible)] *)
Fixpoint filter_visible (ls : list (option Layer)) : Outcome (list (option Layer)) :=
  match ls with
  | [] => Ret []
  | None :: _ => Throw
  | Some layer :: rest =>
      fmap (M := Outcome)
           (fun kept => if visible layer then Some layer :: kept else kept)
           (filter_visible rest)
  end.

(** [getAllObjects()] *)
Definition getAllObjects : Method LayerManager (list Object3D) :=
  fun lm => (flatMap_objects (layers lm), lm).

(** [getObjectsInLayer(layerId)] *)
Definition getObjectsInLayer (layerId : Z) : Method LayerManager (list Object3D) :=
  fun lm =>
    (fmap (M := Outcome) (fun r => match r with Some layer => objects layer | None => [] end)
       (find (fun layer => bool_decide (id layer = layerId)) (layers lm)), lm).

(** [getVisibleObjects()] *)
Definition getVisibleObjects : Method LayerManager (list Object3D) :=
  fun lm => (filter_visible (layers lm) ≫= flatMap_objects, lm).

(** *** Sequences of calls *)

(** The public methods of the class, one constructor per call.  (The two
    methods that only redraw the page, [updateLayerDropdown] and
    [updateLayersList], are left out: they read the store and reach it
    again only through the methods below.) *)
Inductive Op : Type :=
| AddLayer (name_arg : option string)
| RemoveLayer (layerId : Z)
| RenameLayer (layerId : Z) (newName : string)
| SetCurrentLayer (layerId : Z)
| GetCurrentLayer
| GetAllLayers
| AddObjectToCurrentLayer (object : Object3D)
| RemoveObjectFromLayer (object : Object3D)
| MoveObjectToLayer (object : Object3D) (targetLayerId : Z)
| ReorderLayers (newOrderIds : list (option Z))
| MoveLayerUp (layerId : Z)
| MoveLayerDown (layerId : Z)
| ToggleLayerVisibility (layerId : Z)
| GetAllObjects
| GetObjectsInLayer (layerId : Z)
| GetVisibleObjects.

(** The store after one call, whether the call returned or raised. *)
Definition exec (op : Op) (lm : LayerManager) : LayerManager :=
  match op with
  | AddLayer name_arg => snd (addLayer name_arg lm)
  | RemoveLayer layerId => snd (removeLayer layerId lm)
  | RenameLayer layerId newName => snd (renameLayer layerId newName lm)
  | SetCurrentLayer layerId => snd (setCurrentLayer layerId lm)
  | GetCurrentLayer => snd (getCurrentLayer lm)
  | GetAllLayers => snd (getAllLayers lm)
  | AddObjectToCurrentLayer object => snd (addObjectToCurrentLayer object lm)
  | RemoveObjectFromLayer object => snd (removeObjectFromLayer object lm)
  | MoveObjectToLayer object targetLayerId =>
      snd (moveObjectToLayer object targetLayerId lm)
  | ReorderLayers newOrderIds => snd (reorderLayers newOrderIds lm)
  | MoveLayerUp layerId => snd (moveLayerUp layerId lm)
  | MoveLayerDown layerId => snd (moveLayerDown layerId lm)
  | ToggleLayerVisibility layerId => snd (toggleLayerVisibility layerId lm)
  | GetAllObjects => snd (getAllObjects lm)
  | GetObjectsInLayer layerId => snd (getObjectsInLayer layerId lm)
  | GetVisibleObjects => snd (getVisibleObjects lm)
  end.

(** The store after a sequence of calls, first call first. *)
Definition run (ops : list Op) (lm : LayerManager) : LayerManager :=
  fold_left (fun lm op => exec op lm) ops lm.

(** *** What the data model asks of a store *)

(** The layers the array holds, in order. *)
Definition held (lm : LayerManager) : list Layer := omap (fun slot => slot) (layers lm).

(** The ids of the layers the array holds, in order. *)
Definition held_ids (lm : LayerManager) : list Z := id <$> held lm.

(** At least one layer exists and [currentLayerId] names a layer. *)
Definition invariant (lm : LayerManager) : Prop :=
  held lm <> [] /\ currentLayerId lm ∈ held_ids lm.

(** Each object of the store with the layer that holds it, in layer order
    and then in the order of the layer. *)
Definition owned (ls : list Layer) : list (Layer * Object3D) :=
  l ← ls; (fun o => (l, o)) <$> objects l.

(** *** Vocabulary of the proofs *)

(** No object of [os] has the identity of [object]. *)
Definition no_match (object : Object3D) (os : list Object3D) : Prop :=
  Forall (fun obj => userData_id obj <> userData_id object) os.

(** No layer holds an object with the identity of [object]. *)
Definition held_nowhere (object : Object3D) (ls : list Layer) : Prop :=
  Forall (fun l => no_match object (objects l)) ls.

(** [l] holds [x], the first object with the identity of [object], and
    [l'] is [l] without it. *)
Definition first_held (object : Object3D) (ls ls' : list Layer) : Prop :=
  exists pre l post opre x opost,
    ls = pre ++ l :: post /\ held_nowhere object pre /\
    objects l = opre ++ x :: opost /\ no_match object opre /\
    userData_id x = userData_id object /\
    ls' = pre ++ set_objects (opre ++ opost) l :: post.

(** Ids are below the counter and no two held layers share one. *)
Definition Fresh (lm : LayerManager) : Prop :=
  Forall (fun z => z < nextLayerId lm) (held_ids lm) /\ NoDup (held_ids lm).

(** The array holds layers only, carries no stray property, and the store
    meets the data model. *)
Definition Clean (lm : LayerManager) : Prop :=
  (exists ls, layers lm = Some <$> ls) /\ layers_props lm = ∅ /\
  Fresh lm /\ invariant lm.

(** Slot 0 holds [undefined]: every method that walks the array raises
    before it writes. *)
Definition Stuck (lm : LayerManager) : Prop :=
  (exists rest, layers lm = None :: rest) /\ Fresh lm.

(** The calls of a run aim [moveLayerDown] at layers that exist. *)
Fixpoint well_aimed (ops : list Op) (lm : LayerManager) : Prop :=
  match ops with
  | [] => True
  | op :: ops' =>
      (forall layerId, op = MoveLayerDown layerId -> layerId ∈ held_ids lm) /\
      well_aimed ops' (exec op lm)
  end.

End LayerManager.


(** ** js/state.js *)

Module StateManager.

(** *** Values *)

(** The values of the state tree: what [JSON.parse] builds, and
    [undefined].  An object is the list of its fields, and a read finds the
    first field of a name; the state is a tree, so that no object is
    reached by two paths.  A property read looks at the own properties of a
    value; the names that the prototypes of the host supply ([toString],
    [constructor], ...) are no data of the tree and lie outside the
    embedding.  A string is a sequence of one-byte characters. *)
Inductive Value : Type :=
| VUndefined
| VNull
| VBool (b : bool)
| VNum (n : Z)
| VStr (s : string)
| VArr (elems : list Value)
| VObj (fields : list (string * Value)).

(** The field [k] of an object. *)
Fixpoint assoc (k : string) (fs : list (string * Value)) : option Value :=
  match fs with
  | [] => None
  | (k', v) :: fs' => if String.eqb k k' then Some v else assoc k fs'
  end.

(** [obj[k] = v] on the fields of an object: the field keeps its place, a
    new field goes last. *)
Fixpoint assoc_set (k : string) (v : Value) (fs : list (string * Value))
    : list (string * Value) :=
  match fs with
  | [] => [(k, v)]
  | (k', v') :: fs' =>
      if String.eqb k k' then (k, v) :: fs' else (k', v') :: assoc_set k v fs'
  end.

Definition digit (c : ascii) : option N :=
  let n := N_of_ascii c in
  if (48 <=? n)%N && (n <=? 57)%N then Some (n - 48)%N else None.

Fixpoint digits (acc : N) (s : string) : option N :=
  match s with
  | EmptyString => Some acc
  | String c s' =>
      match digit c with
      | Some d => digits (10 * acc + d)%N s'
      | None => None
      end
  end.

(** The index that a property name spells: decimal digits without a
    leading zero. *)
Definition array_index (k : string) : option nat :=
  match k with
  | EmptyString => None
  | String "0"%char EmptyString => Some 0%nat
  | String "0"%char _ => None
  | _ => N.to_nat <$> digits 0 k
  end.

(** [path.split('.')] *)
Fixpoint split (path : string) : list string :=
  match path with
  | EmptyString => [EmptyString]
  | String c path' =>
      if Ascii.eqb c "."%char then EmptyString :: split path'
      else
        match split path' with
        | seg :: segs => String c seg :: segs
        | [] => [String c EmptyString]
        end
  end.

(** The own property [k] of [v], [undefined] when [v] has none: a field of
    an object; an element or the length of an array; a character or the
    length of a string. *)
Definition own (v : Value) (k : string) : Value :=
  match v with
  | VObj fs => default VUndefined (assoc k fs)
  | VArr es =>
      match array_index k with
      | Some i => default VUndefined (es !! i)
      | None => if String.eqb k "length" then VNum (Z.of_nat (length es)) else VUndefined
      end
  | VStr s =>
      match array_index k with
      | Some i =>
          match String.get i s with
          | Some c => VStr (String c EmptyString)
          | None => VUndefined
          end
      | None =>
          if String.eqb k "length" then VNum (Z.of_nat (String.length s))
          else VUndefined
      end
  | _ => VUndefined
  end.

(** [v] has the own property [k]. *)
Definition has_own (v : Value) (k : string) : bool :=
  match v with
  | VObj fs => match assoc k fs with Some _ => true | None => false end
  | VArr es =>
      match array_index k with
      | Some i => bool_decide (i < length es)%nat
      | None => String.eqb k "length"
      end
  | VStr s =>
      match array_index k with
      | Some i => bool_decide (i < String.length s)%nat
      | None => String.eqb k "length"
      end
  | _ => false
  end.

(** The names that the prototypes of the standard (ECMAScript 2024 with
    its annex B) supply to objects, arrays, strings, numbers and booleans,
    taken together.  A value that does not own such a name may inherit it:
    the read then answers a function or an object of the host, which is
    no value of the tree. *)
Definition inherited_names : list string :=
  [ "constructor"; "hasOwnProperty"; "isPrototypeOf"; "propertyIsEnumerable";
    "toLocaleString"; "toString"; "valueOf"; "__proto__"; "__defineGetter__";
    "__defineSetter__"; "__lookupGetter__"; "__lookupSetter__";
    "at"; "concat"; "copyWithin"; "entries"; "every"; "fill"; "filter"; "find";
    "findIndex"; "findLast"; "findLastIndex"; "flat"; "flatMap"; "forEach";
    "group"; "groupToMap"; "includes"; "indexOf"; "join"; "keys"; "lastIndexOf";
    "map"; "pop"; "push"; "reduce"; "reduceRight"; "reverse"; "shift"; "slice";
    "some"; "sort"; "splice"; "toReversed"; "toSorted"; "toSpliced"; "unshift";
    "values"; "with";
    "anchor"; "big"; "blink"; "bold"; "charAt"; "charCodeAt"; "codePointAt";
    "endsWith"; "fixed"; "fontcolor"; "fontsize"; "isWellFormed"; "italics";
    "link"; "localeCompare"; "match"; "matchAll"; "normalize"; "padEnd";
    "padStart"; "repeat"; "replace"; "replaceAll"; "search"; "small"; "split";
    "startsWith"; "strike"; "sub"; "substr"; "substring"; "sup";
    "toLocaleLowerCase"; "toLocaleUpperCase"; "toLowerCase"; "toUpperCase";
    "toWellFormed"; "trim"; "trimEnd"; "trimLeft"; "trimRight"; "trimStart";
    "toExponential"; "toFixed"; "toPrecision" ].

Definition inherited (k : string) : bool :=
  existsb (String.eqb k) inherited_names.
Global Arguments inherited : simpl never.

(** [v[k]]: a read of a property of [undefined] or [null] raises; the own
    property is read where [v] has one; a name that [v] does not own but
    may inherit is outside the embedding; any other name answers
    [undefined]. *)
Definition get_member (v : Value) (k : string) : Outcome Value :=
  match v with
  | VUndefined | VNull => Throw
  | _ => if negb (has_own v k) && inherited k then Beyond else Ret (own v k)
  end.

(** [v?.[k]] *)
Definition opt_member (v : Value) (k : string) : Outcome Value :=
  match v with
  | VUndefined | VNull => Ret VUndefined
  | _ => get_member v k
  end.

(** [keys.reduce(f, init)] *)
Fixpoint reduce (f : Value -> string -> Outcome Value) (keys : list string)
    (init : Value) : Outcome Value :=
  match keys with
  | [] => Ret init
  | key :: keys' =>
      match f init key with
      | Ret v => reduce f keys' v
      | Throw => Throw
      | Beyond => Beyond
      end
  end.

(** [v[k] = x] in the strict code of a class body: it raises on
    [undefined], on [null] and on a primitive; on an array it writes the
    slot or extends the array.  The name [__proto__], where [v] does not
    own it, is the setter that every value inherits: it ignores a
    primitive [x], also on a primitive [v], and changes the prototype for
    an object or [null], which is not covered.  The length and the named
    properties of an array are not covered. *)
Definition set_member (v : Value) (k : string) (x : Value) : Outcome Value :=
  match v with
  | VUndefined | VNull => Throw
  | VBool _ | VNum _ | VStr _ => if String.eqb k "__proto__" then Ret v else Throw
  | VObj fs =>
      if String.eqb k "__proto__" && negb (has_own v k)
      then
        match x with
        | VObj _ | VArr _ | VNull => Beyond
        | _ => Ret v
        end
      else Ret (VObj (assoc_set k x fs))
  | VArr es =>
      match array_index k with
      | Some i =>
          if decide (i < length es)%nat then Ret (VArr (<[i := x]> es))
          else if decide (Z.of_nat i < 2 ^ 32 - 1)
          then Ret (VArr (es ++ replicate (i - length es) VUndefined ++ [x]))
          else Beyond
      | None => Beyond
      end
  end.

(** A write to the object that [v] holds under [k] shows in [v]: [child]
    is that object after the write. *)
Definition put_own (v : Value) (k : string) (child : Value) : Value :=
  match v with
  | VObj fs => VObj (assoc_set k child fs)
  | VArr es =>
      match array_index k with
      | Some i => VArr (<[i := child]> es)
      | None => v
      end
  | _ => v
  end.

(** [!!v] *)
Definition truthy (v : Value) : bool :=
  match v with
  | VUndefined | VNull => false
  | VBool b => b
  | VNum n => negb (n =? 0)
  | VStr s => negb (String.eqb s "")
  | VArr _ | VObj _ => true
  end.

(** [Number(v)], [None] for [NaN].  Of the strings, the empty one and
    those that spell an index are covered; no array and no object is. *)
Definition to_number (v : Value) : Outcome (option Z) :=
  match v with
  | VUndefined => Ret None
  | VNull => Ret (Some 0)
  | VBool b => Ret (Some (if b then 1 else 0))
  | VNum n => Ret (Some n)
  | VStr s =>
      if String.eqb s "" then Ret (Some 0)
      else
        match array_index s with
        | Some i => Ret (Some (Z.of_nat i))
        | None => Beyond
        end
  | VArr _ | VObj _ => Beyond
  end.

(** [a > b], where one of the two is a number. *)
Definition js_gt (a b : Value) : Outcome bool :=
  match to_number a, to_number b with
  | Ret (Some x), Ret (Some y) => Ret (x >? y)
  | Ret _, Ret _ => Ret false
  | Throw, _ | Ret _, Throw => Throw
  | Beyond, _ | Ret _, Beyond => Beyond
  end.

(** The double nearest to the integer [z], ties to the even significand:
    an integer below 2^53 in size is a double, a larger one keeps its 53
    leading bits.  A number of the tree is an integer that is a double. *)
Definition round_double (z : Z) : Z :=
  let a := Z.abs z in
  if a <? 2 ^ 53 then z
  else
    let e := Z.log2 a - 52 in
    let q := a / 2 ^ e in
    let r := a mod 2 ^ e in
    let half := 2 ^ (e - 1) in
    let up := (half <? r) || ((r =? half) && Z.odd q) in
    Z.sgn z * ((if up then q + 1 else q) * 2 ^ e).

(** [v + 1]: the sum of two doubles, rounded; a string takes the digit;
    [NaN] is no value of the tree. *)
Definition js_add1 (v : Value) : Outcome Value :=
  match v with
  | VNum n => Ret (VNum (round_double (n + 1)))
  | VStr s => Ret (VStr (s +:+ "1"))
  | VBool b => Ret (VNum (if b then 2 else 1))
  | VNull => Ret (VNum 1)
  | VUndefined | VArr _ | VObj _ => Beyond
  end.

(** [arr.push(x)]; what is no array has no method [push]. *)
Definition array_push (arr x : Value) : Outcome Value :=
  match arr with
  | VArr es => Ret (VArr (es ++ [x]))
  | _ => Throw
  end.

(** [arr.pop()]: the element and the array after. *)
Definition array_pop (arr : Value) : Outcome (Value * Value) :=
  match arr with
  | VArr es => Ret (List.last es VUndefined, VArr (removelast es))
  | _ => Throw
  end.

(** [arr.shift()]: the array after. *)
Definition array_shift (arr : Value) : Outcome Value :=
  match arr with
  | VArr es => Ret (VArr (tail es))
  | _ => Throw
  end.

(** The own enumerable properties that [{...v}] copies. *)
Definition spread (v : Value) : list (string * Value) :=
  match v with
  | VObj fs => fs
  | VArr es => imap (fun i e => (pretty i, e)) es
  | VStr s =>
      imap (fun i c => (pretty i, VStr (String c EmptyString))) (String.list_ascii_of_string s)
  | _ => []
  end.

(** [{...a, ...b}] *)
Definition merge (a b : Value) : Value :=
  VObj (fold_left (fun fs kv => assoc_set (fst kv) (snd kv) fs) (spread b) (spread a)).

(** *** The instance *)

(** What the class does to the world outside it: a write of the snapshot
    to [localStorage], its removal, and a call of a listener with the tree. *)
Inductive Event : Type :=
| Persisted (snapshot : Value)
| Removed
| Notified (listener : nat) (tree : Value).

(** The instance: the tree, the subscribed callbacks (each a name; a
    callback observes the tree, returns, and calls no method of the
    instance), and the effects so far, oldest first. *)
Record StateManager : Type := mkStateManager {
  state : Value;
  listeners : list nat;
  journal : list Event
}.

Definition set_state (v : Value) (sm : StateManager) : StateManager :=
  mkStateManager v (listeners sm) (journal sm).
Definition set_listeners (ls : list nat) (sm : StateManager) : StateManager :=
  mkStateManager (state sm) ls (journal sm).
Definition emit (es : list Event) (sm : StateManager) : StateManager :=
  mkStateManager (state sm) (listeners sm) (journal sm ++ es).

Local Open Scope method_scope.

(** [getDefaultState()]; [now] is [new Date().toISOString()]. *)
Definition getDefaultState (now : string) : Value :=
  VObj [
    ("scene", VObj [
       ("backgroundColor", VStr "#808080");
       ("currentCameraAngle", VNum 0);
       ("cameraPosition", VObj [("x", VNum 20); ("y", VNum 20); ("z", VNum 20)]);
       ("gridVisible", VBool true);
       ("axesVisible", VBool true)]);
    ("objects", VObj [
       ("selectedObjectId", VNull);
       ("lastCreatedObjectType", VNull);
       ("objectCount", VNum 0);
       ("totalObjectsCreated", VNum 0)]);
    ("layers", VObj [
       ("currentLayerId", VNum 1);
       ("layerCount", VNum 1);
       ("lastActiveLayer", VNum 1)]);
    ("ui", VObj [
       ("sidebarVisible", VBool true);
       ("propertiesPanelVisible", VBool false);
       ("layersPanelExpanded", VBool true);
       ("objectsPanelExpanded", VBool true);
       ("cameraPanelExpanded", VBool true);
       ("scenePanelExpanded", VBool true);
       ("activeTab", VStr "objects")]);
    ("tools", VObj [
       ("currentTool", VStr "select");
       ("lastUsedTool", VStr "select");
       ("dragModeActive", VBool false);
       ("snapToGrid", VBool true);
       ("gridSize", VNum 1)]);
    ("preferences", VObj [
       ("theme", VStr "dark");
       ("language", VStr "en");
       ("showTutorial", VBool true);
       ("autoSave", VBool false);
       ("saveInterval", VNum 300);
       ("showGrid", VBool true);
       ("showAxes", VBool true);
       ("defaultObjectColor", VStr "#ffffff")]);
    ("session", VObj [
       ("lastSaveTime", VNull);
       ("sessionStartTime", VStr now);
       ("unsavedChanges", VBool false);
       ("projectName", VStr "Untitled Project");
       ("projectDescription", VStr "")]);
    ("recentFiles", VObj [
       ("files", VArr []);
       ("maxRecentFiles", VNum 5)]);
    ("history", VObj [
       ("undoStack", VArr []);
       ("redoStack", VArr []);
       ("maxHistorySize", VNum 50)]);
    ("performance", VObj [
       ("lastFrameTime", VNum 0);
       ("averageFPS", VNum 60);
       ("objectCount", VNum 0);
       ("polygonCount", VNum 0);
       ("memoryUsage", VNum 0)])
  ].

(** [constructor()]; [loaded] is what [loadState()] answers: the parsed
    snapshot, or [None] for [null]. *)
Definition constructor (now : string) (loaded : option Value) : StateManager :=
  let state :=
    match loaded with
    | Some v => if truthy v then v else getDefaultState now
    | None => getDefaultState now
    end in
  mkStateManager state [] [].

(** [getState()] *)
Definition getState : Method StateManager Value := reads state.

(** [getStateProperty(path)] *)
Definition getStateProperty (path : string) : Method StateManager Value :=
  fun sm => (reduce opt_member (split path) (state sm), sm).

(** [saveState()]: a failure of the write is caught inside. *)
Definition saveState : Method StateManager unit :=
  modify (fun sm => emit [Persisted (state sm)] sm).

(** [notifyListeners()] *)
Definition notifyListeners : Method StateManager unit :=
  modify (fun sm => emit ((fun l => Notified l (state sm)) <$> listeners sm) sm).

(** The loop and the last write of [setStateProperty]: [current] is walked
    down [key] and then [keys]; the answer is [current] after the write. *)
Fixpoint assign (current : Value) (key : string) (keys : list string)
    (value : Value) : Outcome Value :=
  match keys with
  | [] => set_member current key value
  | key' :: keys' =>
      match get_member current key with
      | Ret child =>
          match assign child key' keys' value with
          | Ret child' => Ret (put_own current key child')
          | Throw => Throw
          | Beyond => Beyond
          end
      | Throw => Throw
      | Beyond => Beyond
      end
  end.

(** [setStateProperty(path, value)]; [split] answers at least one segment. *)
Definition setStateProperty (path : string) (value : Value)
    : Method StateManager unit :=
  (fun sm =>
     match split path with
     | key :: keys =>
         match assign (state sm) key keys value with
         | Ret st' => (Ret tt, set_state st' sm)
         | Throw => (Throw, sm)
         | Beyond => (Beyond, sm)
         end
     | [] => (Beyond, sm)
     end) ;;;
  saveState ;;;
  notifyListeners.

(** [updateState(newState)] *)
Definition updateState (newState : Value) : Method StateManager unit :=
  modify (fun sm => set_state (merge (state sm) newState) sm) ;;;
  saveState ;;;
  notifyListeners.

(** [resetState()] *)
Definition resetState (now : string) : Method StateManager unit :=
  modify (set_state (getDefaultState now)) ;;;
  saveState ;;;
  notifyListeners.

(** [clearState()] *)
Definition clearState (now : string) : Method StateManager unit :=
  modify (emit [Removed]) ;;;
  modify (set_state (getDefaultState now)) ;;;
  notifyListeners.

(** [subscribe(callback)]; the function it returns is [unsubscribe]. *)
Definition subscribe (callback : nat) : Method StateManager unit :=
  modify (fun sm => set_listeners (listeners sm ++ [callback]) sm).
Definition unsubscribe (callback : nat) : Method StateManager unit :=
  modify (fun sm =>
            set_listeners (filter (fun listener => listener <> callback) (listeners sm)) sm).

(** *** Setters *)

Definition setCameraAngle (angle : Value) : Method StateManager unit :=
  setStateProperty "scene.currentCameraAngle" angle.

Definition setCameraPosition (position : Value) : Method StateManager unit :=
  setStateProperty "scene.cameraPosition" position.

Definition setBackgroundColor (color : Value) : Method StateManager unit :=
  setStateProperty "scene.backgroundColor" color.

Definition setSelectedObjectId (id : Value) : Method StateManager unit :=
  setStateProperty "objects.selectedObjectId" id.

Definition incrementObjectCount : Method StateManager unit :=
  let* currentCount := getStateProperty "objects.objectCount" in
  let* count1 := lift (js_add1 currentCount) in
  setStateProperty "objects.objectCount" count1 ;;;
  let* total := getStateProperty "objects.totalObjectsCreated" in
  let* total1 := lift (js_add1 total) in
  setStateProperty "objects.totalObjectsCreated" total1.

Definition setCurrentLayerId (id : Value) : Method StateManager unit :=
  setStateProperty "layers.currentLayerId" id ;;;
  setStateProperty "layers.lastActiveLayer" id.

Definition incrementLayerCount : Method StateManager unit :=
  let* currentCount := getStateProperty "layers.layerCount" in
  let* count1 := lift (js_add1 currentCount) in
  setStateProperty "layers.layerCount" count1.

Definition togglePanelVisibility (panelName : string) : Method StateManager unit :=
  let* currentVisibility := getStateProperty ("ui." +:+ panelName +:+ "Visible") in
  setStateProperty ("ui." +:+ panelName +:+ "Visible")
    (VBool (negb (truthy currentVisibility))).

Definition setActiveTab (tabName : Value) : Method StateManager unit :=
  setStateProperty "ui.activeTab" tabName.

Definition setCurrentTool (toolName : Value) : Method StateManager unit :=
  setStateProperty "tools.currentTool" toolName ;;;
  setStateProperty "tools.lastUsedTool" toolName.

Definition toggleSnapToGrid : Method StateManager unit :=
  let* currentSnap := getStateProperty "tools.snapToGrid" in
  setStateProperty "tools.snapToGrid" (VBool (negb (truthy currentSnap))).

(** *** The setters as one family *)

Inductive Setter : Type :=
| SetCameraAngle (angle : Value)
| SetCameraPosition (position : Value)
| SetBackgroundColor (color : Value)
| SetSelectedObjectId (id : Value)
| IncrementObjectCount
| SetCurrentLayerId (id : Value)
| IncrementLayerCount
| TogglePanelVisibility (panelName : string)
| SetActiveTab (tabName : Value)
| SetCurrentTool (toolName : Value)
| ToggleSnapToGrid.

Definition call (s : Setter) : Method StateManager unit :=
  match s with
  | SetCameraAngle angle => setCameraAngle angle
  | SetCameraPosition position => setCameraPosition position
  | SetBackgroundColor color => setBackgroundColor color
  | SetSelectedObjectId id => setSelectedObjectId id
  | IncrementObjectCount => incrementObjectCount
  | SetCurrentLayerId id => setCurrentLayerId id
  | IncrementLayerCount => incrementLayerCount
  | TogglePanelVisibility panelName => togglePanelVisibility panelName
  | SetActiveTab tabName => setActiveTab tabName
  | SetCurrentTool toolName => setCurrentTool toolName
  | ToggleSnapToGrid => toggleSnapToGrid
  end.

(** How many times the body of the setter calls [setStateProperty]. *)
Definition writes (s : Setter) : nat :=
  match s with
  | IncrementObjectCount | SetCurrentLayerId _ | SetCurrentTool _ => 2
  | _ => 1
  end.

(** The section of the tree that the setter writes to. *)
Definition section (s : Setter) : string :=
  match s with
  | SetCameraAngle _ | SetCameraPosition _ | SetBackgroundColor _ => "scene"
  | SetSelectedObjectId _ | IncrementObjectCount => "objects"
  | SetCurrentLayerId _ | IncrementLayerCount => "layers"
  | TogglePanelVisibility _ | SetActiveTab _ => "ui"
  | SetCurrentTool _ | ToggleSnapToGrid => "tools"
  end.

Definition is_object (v : Value) : bool :=
  match v with VObj _ => true | _ => false end.

(** [v + 1] is a value of the tree. *)
Definition addable (v : Value) : bool :=
  match v with VNum _ | VStr _ | VBool _ | VNull => true | _ => false end.

Fixpoint no_dot (s : string) : bool :=
  match s with
  | EmptyString => true
  | String c s' => negb (Ascii.eqb c "."%char) && no_dot s'
  end.

(** The tree has the shape the setter relies on: its section is an object,
    a counter it raises holds a primitive, and the name of a panel holds no
    dot. *)
Definition ready (s : Setter) (tree : Value) : bool :=
  is_object (own tree (section s)) &&
  match s with
  | IncrementObjectCount =>
      addable (own (own tree "objects") "objectCount") &&
      addable (own (own tree "objects") "totalObjectsCreated")
  | IncrementLayerCount => addable (own (own tree "layers") "layerCount")
  | TogglePanelVisibility panelName => no_dot panelName
  | _ => true
  end.


(** *** History *)

(** [history] is the object that the tree holds under [history]: a write
    to it shows in the tree at once. *)
Definition alias_history (history : Value) : Method StateManager unit :=
  modify (fun sm => set_state (put_own (state sm) "history" history) sm).

(** [addToHistory(action)] *)
Definition addToHistory (action : Value) : Method StateManager unit :=
  let* history := getStateProperty "history" in
  let* undoStack := lift (get_member history "undoStack") in
  let* undoStack1 := lift (array_push undoStack action) in
  let history1 := put_own history "undoStack" undoStack1 in
  alias_history history1 ;;;
  let* length1 := lift (get_member undoStack1 "length") in
  let* maxHistorySize := lift (get_member history1 "maxHistorySize") in
  let* over := lift (js_gt length1 maxHistorySize) in
  let* history2 :=
    (if over : bool
     then
       let* undoStack2 := lift (array_shift undoStack1) in
       mreturn (put_own history1 "undoStack" undoStack2)
     else mreturn history1) in
  alias_history history2 ;;;
  let* history3 := lift (set_member history2 "redoStack" (VArr [])) in
  alias_history history3 ;;;
  updateState (VObj [("history", history3)]).

(** [undo()] *)
Definition undo : Method StateManager Value :=
  let* history := getStateProperty "history" in
  let* undoStack := lift (get_member history "undoStack") in
  let* length0 := lift (get_member undoStack "length") in
  let* nonempty := lift (js_gt length0 (VNum 0)) in
  if nonempty : bool
  then
    let* popped := lift (array_pop undoStack) in
    let action := fst popped in
    let history1 := put_own history "undoStack" (snd popped) in
    alias_history history1 ;;;
    let* redoStack := lift (get_member history1 "redoStack") in
    let* redoStack1 := lift (array_push redoStack action) in
    let history2 := put_own history1 "redoStack" redoStack1 in
    alias_history history2 ;;;
    updateState (VObj [("history", history2)]) ;;;
    mreturn action
  else mreturn VNull.

(** [redo()] *)
Definition redo : Method StateManager Value :=
  let* history := getStateProperty "history" in
  let* redoStack := lift (get_member history "redoStack") in
  let* length0 := lift (get_member redoStack "length") in
  let* nonempty := lift (js_gt length0 (VNum 0)) in
  if nonempty : bool
  then
    let* popped := lift (array_pop redoStack) in
    let action := fst popped in
    let history1 := put_own history "redoStack" (snd popped) in
    alias_history history1 ;;;
    let* undoStack := lift (get_member history1 "undoStack") in
    let* undoStack1 := lift (array_push undoStack action) in
    let history2 := put_own history1 "undoStack" undoStack1 in
    alias_history history2 ;;;
    updateState (VObj [("history", history2)]) ;;;
    mreturn action
  else mreturn VNull.

(** [updatePerformanceMetrics(metrics)] *)
Definition updatePerformanceMetrics (metrics : Value) : Method StateManager unit :=
  let* performance := getStateProperty "performance" in
  updateState (VObj [("performance", merge performance metrics)]).

(** *** Reading the history out of a tree *)

(** [tree.history[field]] *)
Definition history_field (field : string) (tree : Value) : Value :=
  own (own tree "history") field.

(** The [n] most recent entries of a log whose newest entry is last. *)
Definition latest {A} (n : nat) (log : list A) : list A :=
  drop (length log - n) log.


(** One persist-and-notify cycle on the tree [tree]: the snapshot is
    written once, then each subscribed listener is called once, in the
    order of subscription. *)
Definition cycle (ls : list nat) (tree : Value) : list Event :=
  Persisted tree :: ((fun l => Notified l tree) <$> ls).

Definition is_persisted (e : Event) : bool :=
  match e with Persisted _ => true | _ => false end.
Definition is_notified (l : nat) (e : Event) : bool :=
  match e with Notified l' _ => Nat.eqb l l' | _ => false end.

(** How often the snapshot was written, and how often the listener [l] was
    called, in a sequence of effects. *)
Definition persist_count (es : list Event) : nat :=
  length (List.filter is_persisted es).
Definition notify_count (l : nat) (es : list Event) : nat :=
  length (List.filter (is_notified l) es).

(** *** Vocabulary of the proofs *)

(** The descent that [getStateProperty] makes, one own property a segment. *)
Definition descend (tree : Value) (keys : list string) : Value :=
  fold_left own keys tree.

(** [s] ends with [suffix]. *)
Fixpoint ends_with (suffix s : string) : bool :=
  String.eqb s suffix ||
  match s with
  | EmptyString => false
  | String _ s' => ends_with suffix s'
  end.

(** None of the names may be inherited. *)
Definition no_inherited (keys : list string) : bool :=
  forallb (fun k => negb (inherited k)) keys.

(** The descent from [v] along [keys] reads own properties and names that
    no prototype supplies: each segment, at the value reached, is an own
    property of that value or a name that cannot be inherited.  Nothing is
    read of [undefined] and [null]. *)
Fixpoint plain (v : Value) (keys : list string) : bool :=
  match keys with
  | [] => true
  | k :: keys' =>
      match v with
      | VUndefined | VNull => true
      | _ => (has_own v k || negb (inherited k)) && plain (own v k) keys'
      end
  end.

(** The instance after one write that leaves the tree [tree]: the snapshot
    is written and the listeners are called, once. *)
Definition after_write (sm : StateManager) (tree : Value) : StateManager :=
  mkStateManager tree (listeners sm) (journal sm ++ cycle (listeners sm) tree).

(** What a sequence of writes adds to the journal. *)
Definition cycles (ls : list nat) (trees : list Value) : list Event :=
  concat (cycle ls <$> trees).

(** The setter returned after the writes that left [trees], in turn. *)
Definition wrote (sm sm' : StateManager) (trees : list Value) : Prop :=
  listeners sm' = listeners sm /\
  journal sm' = journal sm ++ cycles (listeners sm) trees /\
  last trees = Some (state sm').

(** Taking [action] from the end of the log under [from] and putting it
    at the end of the log under [to], as [undo] and [redo] do. *)
Definition moved (from to : string) (moved_from moved_to : list Value)
    (hs : list (string * Value)) : Value :=
  VObj (assoc_set to (VArr moved_to) (assoc_set from (VArr moved_from) hs)).

End StateManager.

(** ** How a call of the layer manager completes *)

Module LayerManagerCalls.
Import LayerManager.

(** The completion of one call, without the value it answers. *)
Definition completion (op : Op) (lm : LayerManager) : Outcome unit :=
  let forget {A} (r : Outcome A * LayerManager) : Outcome unit :=
    fmap (M := Outcome) (fun _ => tt) (fst r) in
  match op with
  | AddLayer name_arg => forget (addLayer name_arg lm)
  | RemoveLayer layerId => forget (removeLayer layerId lm)
  | RenameLayer layerId newName => forget (renameLayer layerId newName lm)
  | SetCurrentLayer layerId => forget (setCurrentLayer layerId lm)
  | GetCurrentLayer => forget (getCurrentLayer lm)
  | GetAllLayers => forget (getAllLayers lm)
  | AddObjectToCurrentLayer object => forget (addObjectToCurrentLayer object lm)
  | RemoveObjectFromLayer object => forget (removeObjectFromLayer object lm)
  | MoveObjectToLayer object targetLayerId =>
      forget (moveObjectToLayer object targetLayerId lm)
  | ReorderLayers newOrderIds => forget (reorderLayers newOrderIds lm)
  | MoveLayerUp layerId => forget (moveLayerUp layerId lm)
  | MoveLayerDown layerId => forget (moveLayerDown layerId lm)
  | ToggleLayerVisibility layerId => forget (toggleLayerVisibility layerId lm)
  | GetAllObjects => forget (getAllObjects lm)
  | GetObjectsInLayer layerId => forget (getObjectsInLayer layerId lm)
  | GetVisibleObjects => forget (getVisibleObjects lm)
  end.

(** Every call of a run returns: none raises. *)
Fixpoint all_return (ops : list Op) (lm : LayerManager) : Prop :=
  match ops with
  | [] => True
  | op :: ops' => completion op lm = Ret tt /\ all_return ops' (exec op lm)
  end.

End LayerManagerCalls.

(** ** Stores to try the layer manager on *)

Module LayerManagerSamples.
Import LayerManager.

Definition cube : Object3D := mkObject3D 7 0.
Definition sphere : Object3D := mkObject3D 8 1.

Definition layer1 : Layer := mkLayer 1 "Layer 1" true [cube].
Definition layer2 : Layer := mkLayer 2 "Layer 2" false [sphere].
Definition layer3 : Layer := mkLayer 3 "Layer 3" true [].

(** Three layers, the first one current. *)
Definition three_layers : LayerManager :=
  mkLayerManager (Some <$> [layer1; layer2; layer3]) ∅ 1 4.

(** The ids of a list of layers all differ from a given one. *)
Ltac ids_differ :=
  repeat (apply Forall_cons_2; [vm_compute; discriminate|]); apply Forall_nil_2.

End LayerManagerSamples.

(** ** Vocabulary for more of the state manager *)

Module StateManagerCalls.
Import StateManager.

(** The values that a write can go through or into: objects and arrays. *)
Definition container (v : Value) : bool :=
  match v with VObj _ | VArr _ => true | _ => false end.

(** The instance after [addToHistory] of each of [actions], in turn. *)
Definition addToHistory_each (actions : list Value) (sm : StateManager)
    : StateManager :=
  fold_left (fun sm action => snd (addToHistory action sm)) actions sm.

(** How often [listener] is subscribed. *)
Definition subscriptions (listener : nat) (sm : StateManager) : nat :=
  count_occ Nat.eq_dec (listeners sm) listener.

End StateManagerCalls.

(** ** js/cameraManager.js *)

Module CameraManager.

(** The instance: the angle, an integer number of degrees, and the
    coordinates that the class last wrote to [camera.position].  What
    [lookAt], the orbit controls and the display of the position do is
    outside the embedding. *)
Record CameraManager : Type := mkCameraManager {
  currentCameraAngle : Z;
  position : Z * Z * Z
}.

Definition set_currentCameraAngle (angle : Z) (cm : CameraManager) : CameraManager :=
  mkCameraManager angle (position cm).
Definition set_position (p : Z * Z * Z) (cm : CameraManager) : CameraManager :=
  mkCameraManager (currentCameraAngle cm) p.

(** [updateCameraPosition()]: the [switch] has no default case. *)
Definition updateCameraPosition (cm : CameraManager) : CameraManager :=
  let distance := 20 in
  match currentCameraAngle cm with
  | 0 => set_position (distance, distance, distance) cm
  | 90 => set_position (- distance, distance, distance) cm
  | 180 => set_position (- distance, distance, - distance) cm
  | 270 => set_position (distance, distance, - distance) cm
  | _ => cm
  end.

(** [new CameraManager(camera, controls, currentCameraAngle)] and
    [init()]; [placed] is where the camera is when it is handed over. *)
Definition constructor (placed : Z * Z * Z) (currentCameraAngle : Z) : CameraManager :=
  mkCameraManager currentCameraAngle placed.
Definition init (cm : CameraManager) : CameraManager := updateCameraPosition cm.

(** [rotateClockwise()]; [%] takes the sign of the dividend. *)
Definition rotateClockwise (cm : CameraManager) : CameraManager :=
  updateCameraPosition
    (set_currentCameraAngle (Z.rem (currentCameraAngle cm + 90) 360) cm).

(** [rotateCounterClockwise()] *)
Definition rotateCounterClockwise (cm : CameraManager) : CameraManager :=
  updateCameraPosition
    (set_currentCameraAngle (Z.rem (currentCameraAngle cm - 90 + 360) 360) cm).

(** [reset()] *)
Definition reset (cm : CameraManager) : CameraManager :=
  updateCameraPosition (set_currentCameraAngle 0 cm).

(** [getCurrentAngle()] *)
Definition getCurrentAngle (cm : CameraManager) : Z := currentCameraAngle cm.

(** [setAngle(angle)] *)
Definition setAngle (angle : Z) (cm : CameraManager) : CameraManager :=
  updateCameraPosition (set_currentCameraAngle (Z.rem angle 360) cm).

(** [setPosition(position)] *)
Definition setPosition (p : Z * Z * Z) (cm : CameraManager) : CameraManager :=
  set_position p cm.

(** The four angles that [updateCameraPosition] has a case for. *)
Definition quarter (angle : Z) : Prop :=
  angle = 0 \/ angle = 90 \/ angle = 180 \/ angle = 270.

End CameraManager.

(** ** js/app.js: the handlers of the layer panel *)

Module App.

(** The two stores that the handlers of the layer panel work on.  The
    elements of the page that the handlers draw on are no part of it. *)
Record App : Type := mkApp {
  layerManager : LayerManager.LayerManager;
  stateManager : StateManager.StateManager
}.

(** A call of a method of [layerManager] *)
Definition on_layerManager {A} (m : Method LayerManager.LayerManager A)
    : Method App A :=
  fun app =>
    let r := m (layerManager app) in
    (fst r, mkApp (snd r) (stateManager app)).

(** A call of a method of [stateManager] *)
Definition on_stateManager {A} (m : Method StateManager.StateManager A)
    : Method App A :=
  fun app =>
    let r := m (stateManager app) in
    (fst r, mkApp (layerManager app) (snd r)).

Local Open Scope method_scope.





(** The change handler of [UI.currentLayerDropdown]; [layerId] is
    [parseInt(e.target.value)], an integer. *)
Definition currentLayerDropdown_change (layerId : Z) : Method App unit :=
  on_layerManager (LayerManager.setCurrentLayer layerId) ;;;
  on_stateManager (StateManager.setCurrentLayerId (StateManager.VNum layerId)) ;;;
  on_stateManager
    (StateManager.addToHistory
       (StateManager.VObj [("action", StateManager.VStr "change_layer");
                           ("layerId", StateManager.VNum layerId)])).

(** The two stores name the same current layer. *)
Definition in_step (app : App) : Prop :=
  StateManager.own (StateManager.own (StateManager.state (stateManager app)) "layers")
    "currentLayerId"
  = StateManager.VNum (LayerManager.currentLayerId (layerManager app)).

End App.

(** ** js/sceneManager.js: the colour utilities *)

Module SceneManager.

(** A value given as a colour: a number (an integer, or [None] for [NaN]),
    a string, or a value of another type. *)
Inductive Color : Type :=
| CNumber (n : option Z)
| CString (s : string)
| COther.

(** *** Numbers in base 16 *)

Definition hex_char (d : N) : ascii :=
  match d with
  | 0 => "0" | 1 => "1" | 2 => "2" | 3 => "3" | 4 => "4" | 5 => "5"
  | 6 => "6" | 7 => "7" | 8 => "8" | 9 => "9" | 10 => "a" | 11 => "b"
  | 12 => "c" | 13 => "d" | 14 => "e" | _ => "f"
  end%char%N.

(** The digits of [n] before [acc], most significant first. *)
Fixpoint hex_go (fuel : nat) (n : N) (acc : string) : string :=
  match fuel with
  | O => acc
  | S fuel' =>
      if (n =? 0)%N then acc
      else hex_go fuel' (n / 16)%N (String (hex_char (n mod 16)%N) acc)
  end.

Definition hex_acc (n : N) (acc : string) : string :=
  hex_go (S (N.to_nat (N.log2 n))) n acc.

Definition to_hex (n : N) : string :=
  if (n =? 0)%N then "0" else hex_acc n "".

(** [n.toString(16)] *)
Definition toString16 (n : option Z) : string :=
  match n with
  | None => "NaN"
  | Some z => if z <? 0 then "-" +:+ to_hex (Z.to_N (- z)) else to_hex (Z.to_N z)
  end.

(** The value of a digit of base 16, in either case. *)
Definition hex_digit (c : ascii) : option N :=
  let n := N_of_ascii c in
  if (48 <=? n)%N && (n <=? 57)%N then Some (n - 48)%N
  else if (97 <=? n)%N && (n <=? 102)%N then Some (n - 87)%N
  else if (65 <=? n)%N && (n <=? 70)%N then Some (n - 55)%N
  else None.

(** The value of the longest prefix of digits, after [acc]. *)
Fixpoint parse_digits (s : string) (acc : N) : N :=
  match s with
  | EmptyString => acc
  | String c s' =>
      match hex_digit c with
      | Some d => parse_digits s' (16 * acc + d)%N
      | None => acc
      end
  end.

(** The white space that [parseInt] skips.  Of the characters, those of
    ASCII are covered: a string that has another character among or right
    after its leading white space is outside the embedding. *)
Fixpoint skip_white_space (s : string) : Outcome string :=
  match s with
  | EmptyString => Ret EmptyString
  | String c s' =>
      let n := N_of_ascii c in
      if ((9 <=? n)%N && (n <=? 13)%N) || (n =? 32)%N then skip_white_space s'
      else if (128 <=? n)%N then Beyond
      else Ret s
  end.

(** [parseInt(string, 16)]: white space, a sign, [0x] or [0X], and the
    digits up to the first character that is none; [NaN] without a digit. *)
Definition parseInt16 (s : string) : Outcome (option Z) :=
  match skip_white_space s with
  | Ret s1 =>
      let signed :=
        match s1 with
        | String "-"%char s2 => (-1, s2)
        | String "+"%char s2 => (1, s2)
        | _ => (1, s1)
        end in
      let s2 := snd signed in
      let s3 :=
        match s2 with
        | String "0"%char (String "x"%char s') => s'
        | String "0"%char (String "X"%char s') => s'
        | _ => s2
        end in
      match s3 with
      | String c _ =>
          match hex_digit c with
          | Some _ => Ret (Some (fst signed * Z.of_N (parse_digits s3 0)))
          | None => Ret None
          end
      | EmptyString => Ret None
      end
  | Throw => Throw
  | Beyond => Beyond
  end.

(** [hexString.replace('#', '')]: the first [#] goes. *)
Fixpoint replace_hash (s : string) : string :=
  match s with
  | EmptyString => EmptyString
  | String c s' => if Ascii.eqb c "#"%char then s' else String c (replace_hash s')
  end.

(** [s.slice(1)] *)
Definition slice1 (s : string) : string :=
  match s with
  | EmptyString => EmptyString
  | String _ s' => s'
  end.

(** *** The 32-bit operators *)

(** [ToInt32] of an integer *)
Definition to_int32 (z : Z) : Z := (z + 2 ^ 31) mod 2 ^ 32 - 2 ^ 31.
(** [a << k], [a >> k] and [a & b] *)
Definition shl (a k : Z) : Z := to_int32 (to_int32 a * 2 ^ k).
Definition sar (a k : Z) : Z := Z.shiftr (to_int32 a) k.
Definition band (a b : Z) : Z := Z.land (to_int32 a) (to_int32 b).

(** *** The methods *)

(** [stringToHex(hexString)] *)
Definition stringToHex (hexString : string) : Outcome (option Z) :=
  parseInt16 (replace_hash hexString).

(** The loop [while (hexString.length < 6) hexString = '0' + hexString]:
    each round makes the string longer by one, so six rounds are enough. *)
Fixpoint pad_loop (fuel : nat) (hexString : string) : string :=
  match fuel with
  | O => hexString
  | S fuel' =>
      if (String.length hexString <? 6)%nat
      then pad_loop fuel' (String "0"%char hexString)
      else hexString
  end.

(** [hexToString(hexNumber)] *)
Definition hexToString (hexNumber : Color) : string :=
  match hexNumber with
  | CNumber n => "#" +:+ pad_loop 6 (toString16 n)
  | _ => "#000000"
  end.

(** [rgbToHex(r, g, b)], of three integers *)
Definition rgbToHex (r g b : Z) : string :=
  "#" +:+ slice1 (toString16 (Some (shl 1 24 + shl r 16 + shl g 8 + b))).

(** [getComplementaryColor(color)]; [ToInt32] of [NaN] is 0.  A colour
    that is neither a string nor a number is not covered. *)
Definition getComplementaryColor (color : Color) : Outcome string :=
  let hexNumber :=
    match color with
    | CString s => stringToHex s
    | CNumber n => Ret n
    | COther => Beyond
    end in
  match hexNumber with
  | Ret n =>
      let int := default 0 n in
      let r := band (sar int 16) 255 in
      let g := band (sar int 8) 255 in
      let b := band int 255 in
      let compR := 255 - r in
      let compG := 255 - g in
      let compB := 255 - b in
      Ret (rgbToHex compR compG compB)
  | Throw => Throw
  | Beyond => Beyond
  end.

(** All characters are digits of base 16. *)
Fixpoint all_hex (s : string) : bool :=
  match s with
  | EmptyString => true
  | String c s' =>
      match hex_digit c with Some _ => all_hex s' | None => false end
  end.

End SceneManager.
(** ** Properties of the layer manager *)

Module LayerManagerFacts.
Import LayerManager.

(** *** Searching an array without holes *)

Section Find.
Context {A : Type} (p : A -> bool).

Lemma js_find_absent i (ls : list A) :
  Forall (fun x => p x = false) ls ->
  js_find p i (Some <$> ls) = Ret None.
Proof.
  intros H. revert i. induction H as [|x ls Hx _ IH]; intros i; simpl.
  - reflexivity.
  - rewrite Hx. apply IH.
Qed.

Lemma js_find_first i (pre : list A) x post :
  Forall (fun y => p y = false) pre -> p x = true ->
  js_find p i (Some <$> (pre ++ x :: post)) = Ret (Some ((i + length pre)%nat, x)).
Proof.
  intros H Hx. revert i. induction H as [|y pre Hy _ IH]; intros i; simpl.
  - rewrite Hx. do 3 f_equal. lia.
  - rewrite Hy, IH. do 3 f_equal. lia.
Qed.

Lemma first_split (ls : list A) :
  Forall (fun x => p x = false) ls \/
  exists pre x post,
    ls = pre ++ x :: post /\ Forall (fun y => p y = false) pre /\ p x = true.
Proof.
  induction ls as [|x ls IH].
  - left. constructor.
  - destruct (p x) eqn:Hx.
    + right. exists [], x, ls. auto.
    + destruct IH as [IH | (pre & y & post & -> & Hpre & Hy)].
      * left. constructor; assumption.
      * right. exists (x :: pre), y, post. auto.
Qed.

Lemma js_find_hole i (ls : list (option A)) :
  js_find p i (None :: ls) = Throw.
Proof. reflexivity. Qed.
End Find.

Lemma has_id_false (layerId : Z) (ls : list Layer) :
  Forall (fun l => id l <> layerId) ls ->
  Forall (fun l => bool_decide (id l = layerId) = false) ls.
Proof.
  intros H. eapply Forall_impl; [exact H|].
  intros l Hl. apply bool_decide_eq_false. exact Hl.
Qed.

Lemma swap_adjacent {B} (pre : list B) a b post x y :
  <[S (length pre) := x]> (<[length pre := y]> (pre ++ a :: b :: post))
  = pre ++ y :: x :: post.
Proof. induction pre as [|c pre IH]; simpl; [reflexivity | f_equal; exact IH]. Qed.

Lemma lookup_adjacent {B} (pre : list B) a b post :
  (pre ++ a :: b :: post) !! length pre = Some a /\
  (pre ++ a :: b :: post) !! S (length pre) = Some b.
Proof. induction pre as [|c pre IH]; simpl; auto. Qed.

Lemma array_get_slot lm (i : nat) :
  array_get lm (Z.of_nat i) = default None (layers lm !! i).
Proof. unfold array_get. rewrite decide_True by lia. rewrite Nat2Z.id. reflexivity. Qed.

Lemma array_set_slot lm (i : nat) v :
  (i < length (layers lm))%nat ->
  array_set (Z.of_nat i) v lm = set_layers (fun ls => <[i := v]> ls) lm.
Proof.
  intros Hi. unfold array_set. rewrite decide_True by lia. rewrite Nat2Z.id.
  rewrite decide_True by exact Hi. reflexivity.
Qed.

Lemma length_array_set_slot lm (i : nat) v :
  (i < length (layers lm))%nat ->
  length (layers (array_set (Z.of_nat i) v lm)) = length (layers lm).
Proof.
  intros Hi. rewrite array_set_slot by exact Hi. simpl. apply length_insert.
Qed.

Lemma swap_slots lm (pre : list Layer) a b post :
  layers lm = Some <$> (pre ++ a :: b :: post) ->
  array_set (Z.of_nat (S (length pre))) (array_get lm (Z.of_nat (length pre)))
    (array_set (Z.of_nat (length pre)) (array_get lm (Z.of_nat (S (length pre)))) lm)
  = set_layers (fun _ => Some <$> (pre ++ b :: a :: post)) lm.
Proof.
  intros Hls.
  pose proof (lookup_adjacent (Some <$> pre) (Some a) (Some b) (Some <$> post)) as [Ha Hb].
  pose proof (swap_adjacent (Some <$> pre) (Some a) (Some b) (Some <$> post) (Some a) (Some b)) as Hs.
  rewrite length_fmap in Ha, Hb, Hs.
  rewrite !array_get_slot, Hls, !fmap_app, !fmap_cons, Ha, Hb. simpl.
  assert (Hlen : (S (length pre) < length (layers lm))%nat).
  { rewrite Hls, length_fmap, length_app. simpl. lia. }
  rewrite (array_set_slot lm (length pre)) by lia.
  rewrite array_set_slot by (simpl; rewrite length_insert; exact Hlen).
  destruct lm as [ls0 props cur nxt]. simpl in *. subst ls0.
  unfold set_layers. simpl. f_equal.
  rewrite !fmap_app, !fmap_cons. exact Hs.
Qed.

Lemma set_layers_same (lm : LayerManager) :
  set_layers (fun _ => layers lm) lm = lm.
Proof. destruct lm; reflexivity. Qed.

(** *** moveLayerUp *)

(** [moveLayerUp] answers false and changes nothing for an id no layer has. *)
Lemma moveLayerUp_absent lm ls layerId :
  layers lm = Some <$> ls ->
  Forall (fun l => id l <> layerId) ls ->
  moveLayerUp layerId lm = (Ret false, lm).
Proof.
  intros Hls Habs. unfold moveLayerUp, findIndex.
  rewrite Hls, (js_find_absent _ _ _ (has_id_false _ _ Habs)). reflexivity.
Qed.

(** [moveLayerUp] answers false and changes nothing for the first layer. *)
Lemma moveLayerUp_first lm l rest :
  layers lm = Some <$> (l :: rest) ->
  moveLayerUp (id l) lm = (Ret false, lm).
Proof.
  intros Hls. unfold moveLayerUp, findIndex. rewrite Hls. simpl.
  rewrite bool_decide_eq_true_2 by reflexivity. reflexivity.
Qed.

(** Anywhere else [moveLayerUp] swaps the layer with the one before it. *)
Lemma moveLayerUp_swap lm pre a b post :
  layers lm = Some <$> (pre ++ a :: b :: post) ->
  Forall (fun l => id l <> id b) (pre ++ [a]) ->
  moveLayerUp (id b) lm
  = (Ret true, set_layers (fun _ => Some <$> (pre ++ b :: a :: post)) lm).
Proof.
  intros Hls Habs. unfold moveLayerUp, findIndex.
  assert (Hsplit : pre ++ a :: b :: post = (pre ++ [a]) ++ b :: post)
    by (rewrite <- app_assoc; reflexivity).
  rewrite Hls, Hsplit.
  rewrite (js_find_first _ 0 (pre ++ [a]) b post (has_id_false _ _ Habs))
    by (apply bool_decide_eq_true_2; reflexivity).
  simpl. rewrite length_app. simpl.
  rewrite decide_True by lia.
  replace (Z.of_nat (length pre + 1) - 1) with (Z.of_nat (length pre)) by lia.
  replace (Z.of_nat (length pre + 1)) with (Z.of_nat (S (length pre))) by lia.
  f_equal. exact (swap_slots lm pre a b post Hls).
Qed.

(** *** moveLayerDown *)

(** [moveLayerDown] answers false and changes nothing for the last layer. *)
Lemma moveLayerDown_last lm pre l :
  layers lm = Some <$> (pre ++ [l]) ->
  Forall (fun x => id x <> id l) pre ->
  moveLayerDown (id l) lm = (Ret false, lm).
Proof.
  intros Hls Habs. unfold moveLayerDown, findIndex. rewrite Hls.
  rewrite (js_find_first _ 0 pre l [] (has_id_false _ _ Habs))
    by (apply bool_decide_eq_true_2; reflexivity).
  simpl. rewrite length_fmap, length_app. simpl.
  rewrite decide_False by lia. reflexivity.
Qed.

(** Before the last position [moveLayerDown] swaps the layer with the one
    after it. *)
Lemma moveLayerDown_swap lm pre a b post :
  layers lm = Some <$> (pre ++ a :: b :: post) ->
  Forall (fun l => id l <> id a) pre ->
  moveLayerDown (id a) lm
  = (Ret true, set_layers (fun _ => Some <$> (pre ++ b :: a :: post)) lm).
Proof.
  intros Hls Habs. unfold moveLayerDown, findIndex. rewrite Hls.
  rewrite (js_find_first _ 0 pre a (b :: post) (has_id_false _ _ Habs))
    by (apply bool_decide_eq_true_2; reflexivity).
  simpl. rewrite length_fmap, length_app. simpl.
  rewrite decide_True by lia.
  replace (Z.of_nat (length pre) + 1) with (Z.of_nat (S (length pre))) by lia.
  f_equal. rewrite <- (swap_slots lm pre a b post Hls).
  rewrite !array_get_slot, !array_set_slot.
  1: { destruct lm as [ls0 props cur nxt]; unfold set_layers; simpl in *. subst ls0.
       f_equal. apply list_insert_insert_ne. lia. }
  all: assert (Hlen : (S (length pre) < length (layers lm))%nat)
    by (rewrite Hls, length_fmap, length_app; simpl; lia).
  all: rewrite ?length_array_set_slot by lia; lia.
Qed.

(** For an id that no layer has, [findIndex] answers -1, the test
    [-1 < length - 1] passes on any non-empty array, and the swap runs on
    the indices 0 and -1: slot 0 receives [layers[-1]] and the first layer
    leaves the array for the property [-1]. *)
Lemma moveLayerDown_absent lm l rest layerId :
  layers lm = Some <$> (l :: rest) ->
  Forall (fun x => id x <> layerId) (l :: rest) ->
  moveLayerDown layerId lm
  = (Ret true,
     mkLayerManager (default None (layers_props lm !! (-1)) :: (Some <$> rest))
       (<[-1 := Some l]> (layers_props lm)) (currentLayerId lm) (nextLayerId lm)).
Proof.
  intros Hls Habs. unfold moveLayerDown, findIndex. rewrite Hls.
  rewrite (js_find_absent _ _ _ (has_id_false _ _ Habs)).
  simpl. rewrite decide_True by lia.
  unfold array_get, array_set. simpl.
  destruct lm as [ls0 props cur nxt]. simpl in *. subst ls0. reflexivity.
Qed.

(** C1 (the defect): on the store as constructed, [moveLayerDown] of an
    id that no layer has answers true, empties slot 0 and parks the only
    layer under the property [-1], where the claim asks for false and an
    unchanged order. *)
Theorem moveLayerDown_unknown_id_corrupts :
  let lm := constructor in
  let r := moveLayerDown 99 lm in
  fst r = Ret true /\
  layers (snd r) = [None] /\
  array_get (snd r) (-1) = Some (mkLayer 1 "Layer 1" true []) /\
  layers (snd r) <> layers lm.
Proof.
  cbv zeta. rewrite (moveLayerDown_absent constructor (mkLayer 1 "Layer 1" true []) [] 99).
  - simpl. split; [reflexivity|]. split; [reflexivity|]. split.
    + unfold array_get. simpl. rewrite lookup_insert_eq. reflexivity.
    + discriminate.
  - reflexivity.
  - constructor; [simpl; lia | constructor].
Qed.

(** *** removeLayer *)

(** [removeLayer] refuses to remove the only layer. *)
Lemma removeLayer_sole lm layerId :
  (length (layers lm) <= 1)%nat -> removeLayer layerId lm = (Ret false, lm).
Proof. intros H. unfold removeLayer. rewrite decide_True by exact H. reflexivity. Qed.

(** [removeLayer] answers false and changes nothing for an id no layer has. *)
Lemma removeLayer_absent lm ls layerId :
  layers lm = Some <$> ls ->
  Forall (fun l => id l <> layerId) ls ->
  removeLayer layerId lm = (Ret false, lm).
Proof.
  intros Hls Habs. unfold removeLayer, findIndex.
  destruct (decide (length (layers lm) <= 1)%nat); [reflexivity|].
  rewrite Hls, (js_find_absent _ _ _ (has_id_false _ _ Habs)). reflexivity.
Qed.

Lemma differs_id_false (layerId : Z) (ls : list Layer) :
  Forall (fun l => id l = layerId) ls ->
  Forall (fun l => negb (bool_decide (id l = layerId)) = false) ls.
Proof.
  intros H. eapply Forall_impl; [exact H|].
  intros l Hl. rewrite bool_decide_eq_true_2 by exact Hl. reflexivity.
Qed.

(** What [removeLayer] does to a layer it finds, in a store of at least
    two layers. *)
Lemma removeLayer_found lm pre l post :
  layers lm = Some <$> (pre ++ l :: post) ->
  (2 <= length (pre ++ l :: post))%nat ->
  Forall (fun x => id x <> id l) pre ->
  exists lm',
    removeLayer (id l) lm = (Ret true, lm') /\
    layers lm' = Some <$> (pre ++ post) /\
    layers_props lm' = layers_props lm /\
    nextLayerId lm' = nextLayerId lm /\
    (id l <> currentLayerId lm -> currentLayerId lm' = currentLayerId lm) /\
    (id l = currentLayerId lm ->
     forall same fallbackLayer rest,
       pre ++ l :: post = same ++ fallbackLayer :: rest ->
       Forall (fun x => id x = id l) same ->
       id fallbackLayer <> id l ->
       currentLayerId lm' = id fallbackLayer) /\
    (id l = currentLayerId lm ->
     Forall (fun x => id x = id l) (pre ++ l :: post) ->
     currentLayerId lm' = currentLayerId lm).
Proof.
  intros Hls Hlen Habs. unfold removeLayer, findIndex.
  rewrite decide_False by (rewrite Hls, length_fmap; lia).
  rewrite Hls.
  rewrite (js_find_first _ 0 pre l post (has_id_false _ _ Habs))
    by (apply bool_decide_eq_true_2; reflexivity).
  simpl. rewrite decide_False by lia. rewrite Nat2Z.id.
  assert (Hdel : delete (length pre) (Some <$> (pre ++ l :: post)) = Some <$> (pre ++ post)).
  { rewrite <- list_fmap_delete. f_equal. apply delete_middle. }
  destruct (decide (id l = currentLayerId lm)) as [Hcur | Hcur].
  - unfold find.
    destruct (first_split (fun layer => negb (bool_decide (id layer = id l)))
                (pre ++ l :: post))
      as [Hall | (same & fb & rest & Heq & Hsame & Hfb)].
    + rewrite (js_find_absent _ _ _ Hall). simpl.
      eexists. split; [reflexivity|]. simpl. rewrite Hls.
      split; [exact Hdel|]. split; [reflexivity|]. split; [reflexivity|].
      split; [intros; reflexivity|]. split; [|intros; reflexivity].
      intros _ same fb rest Heq _ Hfb. exfalso.
      rewrite Heq in Hall. apply Forall_app in Hall as [_ Hall].
      apply Forall_cons in Hall as [Hall _].
      apply negb_false_iff, bool_decide_eq_true_1 in Hall. contradiction.
    + rewrite Heq, (js_find_first _ 0 same fb rest Hsame Hfb). simpl.
      rewrite <- Heq.
      eexists. split; [reflexivity|]. simpl. rewrite Hls.
      split; [exact Hdel|]. split; [reflexivity|]. split; [reflexivity|].
      split; [intros; contradiction|].
      apply negb_true_iff, bool_decide_eq_false in Hfb.
      split.
      * intros _ same' fb' rest' Heq' Hsame' Hfb'.
        assert (Hs : Forall (fun y => negb (bool_decide (id y = id l)) = false) same').
        { apply differs_id_false. exact Hsame'. }
        assert (Hf : negb (bool_decide (id fb' = id l)) = true).
        { apply negb_true_iff, bool_decide_eq_false. exact Hfb'. }
        pose proof (js_find_first _ 0 same' fb' rest' Hs Hf) as H1.
        pose proof (js_find_first (fun layer => negb (bool_decide (id layer = id l)))
                      0 same fb rest Hsame) as H2.
        rewrite <- Heq', Heq in H1. rewrite H2 in H1.
        -- injection H1 as _ ->. reflexivity.
        -- apply negb_true_iff, bool_decide_eq_false. exact Hfb.
      * intros _ Hall. exfalso. rewrite Heq in Hall.
        apply Forall_app in Hall as [_ Hall].
        apply Forall_cons in Hall as [Hall _]. contradiction.
  - eexists. split; [reflexivity|]. simpl. rewrite Hls.
    split; [exact Hdel|]. split; [reflexivity|]. split; [reflexivity|].
    split; [intros; reflexivity|]. split; intros; contradiction.
Qed.

(** C10: in a store of at least two layers, removing the current layer
    makes current the first layer, in the order before the removal, whose
    id differs from the removed one; removing another layer leaves
    [currentLayerId] as it is. *)
Theorem removeLayer_currentLayerId lm pre l post :
  layers lm = Some <$> (pre ++ l :: post) ->
  (2 <= length (pre ++ l :: post))%nat ->
  Forall (fun x => id x <> id l) pre ->
  exists lm',
    removeLayer (id l) lm = (Ret true, lm') /\
    layers lm' = Some <$> (pre ++ post) /\
    (id l <> currentLayerId lm -> currentLayerId lm' = currentLayerId lm) /\
    (id l = currentLayerId lm ->
     forall same fallbackLayer rest,
       pre ++ l :: post = same ++ fallbackLayer :: rest ->
       Forall (fun x => id x = id l) same ->
       id fallbackLayer <> id l ->
       currentLayerId lm' = id fallbackLayer).
Proof.
  intros Hls Hlen Habs.
  destruct (removeLayer_found lm pre l post Hls Hlen Habs)
    as (lm' & Hr & Hl & _ & _ & Hother & Hcur & _).
  exists lm'. auto.
Qed.

(** *** Objects *)

Lemma list_find_no_match object os :
  no_match object os ->
  list_find (fun obj => userData_id obj = userData_id object) os = None.
Proof. intros H. apply list_find_None. exact H. Qed.

Lemma list_find_first_match object opre x opost :
  no_match object opre -> userData_id x = userData_id object ->
  list_find (fun obj => userData_id obj = userData_id object) (opre ++ x :: opost)
  = Some (length opre, x).
Proof.
  intros Hpre Hx. induction Hpre as [|y opre Hy _ IH]; simpl.
  - rewrite decide_True by exact Hx. reflexivity.
  - rewrite decide_False by exact Hy. rewrite IH. reflexivity.
Qed.

Lemma match_split object os :
  no_match object os \/
  exists opre x opost,
    os = opre ++ x :: opost /\ no_match object opre /\
    userData_id x = userData_id object.
Proof.
  induction os as [|y os IH].
  - left. constructor.
  - destruct (decide (userData_id y = userData_id object)) as [Hy | Hy].
    + right. exists [], y, os. repeat split; [constructor | exact Hy].
    + destruct IH as [IH | (opre & x & opost & -> & Hpre & Hx)].
      * left. constructor; assumption.
      * right. exists (y :: opre), x, opost. repeat split; [constructor; assumption | exact Hx].
Qed.

Lemma removeObject_loop_nowhere object ls :
  held_nowhere object ls -> removeObject_loop object (Some <$> ls) = Ret None.
Proof.
  intros H. induction H as [|l ls Hl _ IH].
  - reflexivity.
  - rewrite fmap_cons. cbn [removeObject_loop].
    rewrite (list_find_no_match _ _ Hl), IH. reflexivity.
Qed.

Lemma removeObject_loop_first object ls ls' :
  first_held object ls ls' ->
  removeObject_loop object (Some <$> ls) = Ret (Some (Some <$> ls')).
Proof.
  intros (pre & l & post & opre & x & opost & -> & Hpre & Hobjs & Hopre & Hx & ->).
  induction Hpre as [|k pre Hk _ IH].
  - simpl. rewrite Hobjs, (list_find_first_match _ _ _ _ Hopre Hx).
    rewrite delete_middle. reflexivity.
  - rewrite <- !app_comm_cons, !fmap_cons. cbn [removeObject_loop].
    rewrite (list_find_no_match _ _ Hk), IH. reflexivity.
Qed.

Lemma held_split object ls :
  held_nowhere object ls \/ exists ls', first_held object ls ls'.
Proof.
  induction ls as [|k ls IH].
  - left. constructor.
  - destruct (match_split object (objects k)) as [Hk | (opre & x & opost & Hobjs & Hopre & Hx)].
    + destruct IH as [IH | (ls' & pre & l & post & opre & x & opost & -> & Hpre & Hobjs & Hopre & Hx & ->)].
      * left. constructor; assumption.
      * right. eexists. exists (k :: pre), l, post, opre, x, opost.
        repeat split; try eassumption. constructor; assumption.
    + right. eexists. exists [], k, ls, opre, x, opost.
      repeat split; try eassumption. constructor.
Qed.

Lemma first_held_ids object ls ls' :
  first_held object ls ls' -> id <$> ls' = id <$> ls.
Proof.
  intros (pre & l & post & opre & x & opost & -> & _ & _ & _ & _ & ->).
  rewrite !fmap_app, !fmap_cons. reflexivity.
Qed.

(** [removeObjectFromLayer] removes the first match of the first layer
    that has one, and nothing else. *)
Lemma removeObjectFromLayer_spec lm ls object :
  layers lm = Some <$> ls ->
  (held_nowhere object ls /\ removeObjectFromLayer object lm = (Ret false, lm)) \/
  (exists ls', first_held object ls ls' /\
     removeObjectFromLayer object lm
     = (Ret true, set_layers (fun _ => Some <$> ls') lm)).
Proof.
  intros Hls. unfold removeObjectFromLayer. rewrite Hls.
  destruct (held_split object ls) as [H | (ls' & H)].
  - left. rewrite (removeObject_loop_nowhere _ _ H). auto.
  - right. exists ls'. rewrite (removeObject_loop_first _ _ _ H). auto.
Qed.

Lemma fmap_Some_ids_absent (targetLayerId : Z) (ls ls' : list Layer) :
  id <$> ls' = id <$> ls ->
  Forall (fun l => id l <> targetLayerId) ls ->
  Forall (fun l => id l <> targetLayerId) ls'.
Proof.
  intros Hids H.
  apply (Forall_fmap id (fun z => z <> targetLayerId)).
  rewrite Hids. apply Forall_fmap. exact H.
Qed.

(** C2, as the code has it: for a target id that no layer has,
    [moveObjectToLayer] answers false after it has taken the object out of
    the layer that held it.  The layers, their order and fields other
    than that one object sequence, [currentLayerId] and [nextLayerId] stay;
    the whole store stays when no layer held the object. *)
Theorem moveObjectToLayer_unknown_target lm ls object targetLayerId :
  layers lm = Some <$> ls ->
  Forall (fun l => id l <> targetLayerId) ls ->
  (held_nowhere object ls /\
   moveObjectToLayer object targetLayerId lm = (Ret false, lm)) \/
  (exists ls', first_held object ls ls' /\
     moveObjectToLayer object targetLayerId lm
     = (Ret false, set_layers (fun _ => Some <$> ls') lm)).
Proof.
  intros Hls Habs. unfold moveObjectToLayer, mthen.
  destruct (removeObjectFromLayer_spec lm ls object Hls) as [[H Hr] | (ls' & H & Hr)].
  - left. split; [exact H|]. rewrite Hr, Hls.
    rewrite (js_find_absent _ _ _ (has_id_false _ _ Habs)). reflexivity.
  - right. exists ls'. split; [exact H|]. rewrite Hr. simpl.
    rewrite (js_find_absent _ _ ls'); [reflexivity|].
    apply has_id_false.
    exact (fmap_Some_ids_absent _ _ _ (first_held_ids _ _ _ H) Habs).
Qed.

(** C2, as it is claimed, fails: the object of the only layer is gone
    after a move to a layer that does not exist. *)
Lemma moveObjectToLayer_loses_object :
  let object := mkObject3D 7 0 in
  let lm := mkLayerManager [Some (mkLayer 1 "Layer 1" true [object])] ∅ 1 2 in
  Forall (fun l => id l <> 99) (held lm) /\
  fst (moveObjectToLayer object 99 lm) = Ret false /\
  layers (snd (moveObjectToLayer object 99 lm))
  = [Some (mkLayer 1 "Layer 1" true [])] /\
  snd (moveObjectToLayer object 99 lm) <> lm.
Proof.
  cbv zeta. split; [|split; [|split]].
  - repeat constructor. simpl. lia.
  - reflexivity.
  - reflexivity.
  - intros H. apply (f_equal layers) in H. discriminate H.
Qed.

(** *** Visible objects *)

Lemma flatMap_objects_defined (ls : list Layer) :
  flatMap_objects (Some <$> ls) = Ret (ls ≫= objects).
Proof.
  induction ls as [|l ls IH]; [reflexivity|].
  rewrite fmap_cons. cbn [flatMap_objects]. rewrite IH. reflexivity.
Qed.

Lemma filter_visible_defined (ls : list Layer) :
  filter_visible (Some <$> ls)
  = Ret (Some <$> filter (fun l => visible l = true) ls).
Proof.
  induction ls as [|l ls IH]; [reflexivity|].
  rewrite fmap_cons. cbn [filter_visible]. rewrite IH. simpl.
  rewrite filter_cons. destruct (visible l); simpl; reflexivity.
Qed.

Lemma owned_objects (ls : list Layer) : snd <$> owned ls = ls ≫= objects.
Proof.
  unfold owned. induction ls as [|l ls IH]; [reflexivity|].
  rewrite !bind_cons, fmap_app, IH. f_equal.
  rewrite <- list_fmap_compose. apply list_fmap_id.
Qed.

Lemma owned_visible (ls : list Layer) :
  snd <$> filter (fun lo => visible (fst lo) = true) (owned ls)
  = filter (fun l => visible l = true) ls ≫= objects.
Proof.
  unfold owned. induction ls as [|l ls IH]; [reflexivity|].
  rewrite bind_cons, filter_app, fmap_app, IH, filter_cons.
  assert (Hl : snd <$> filter (fun lo => visible (fst lo) = true)
                        ((fun o => (l, o)) <$> objects l)
               = if visible l then objects l else []).
  { induction (objects l) as [|o os IHo].
    - destruct (visible l); reflexivity.
    - rewrite fmap_cons, filter_cons. cbn [fst].
      destruct (visible l) eqn:Hv.
      + rewrite decide_True by reflexivity. rewrite fmap_cons, IHo. reflexivity.
      + rewrite decide_False by discriminate. exact IHo. }
  rewrite Hl. destruct (visible l) eqn:Hv.
  - rewrite decide_True by reflexivity. rewrite bind_cons. reflexivity.
  - rewrite decide_False by discriminate. reflexivity.
Qed.

(** C7: on every store whose array holds layers, [getAllObjects] is the
    objects in layer order and then in the order of their layer, and
    [getVisibleObjects] is that same sequence restricted to the objects
    whose layer is visible; neither call changes the store. *)
Theorem getVisibleObjects_restricts_getAllObjects
    (ls : list Layer) (props : gmap Z (option Layer)) (cur nxt : Z) :
  let lm := mkLayerManager (Some <$> ls) props cur nxt in
  getAllObjects lm = (Ret (snd <$> owned ls), lm) /\
  getVisibleObjects lm
  = (Ret (snd <$> filter (fun lo => visible (fst lo) = true) (owned ls)), lm).
Proof.
  cbv zeta. unfold getAllObjects, getVisibleObjects. simpl. split.
  - rewrite flatMap_objects_defined, owned_objects. reflexivity.
  - rewrite filter_visible_defined. simpl.
    rewrite flatMap_objects_defined, owned_visible. reflexivity.
Qed.

(** Both queries raise on an array that holds [undefined] in a slot. *)
Lemma queries_raise_on_hole lm rest :
  layers lm = None :: rest ->
  getAllObjects lm = (Throw, lm) /\ getVisibleObjects lm = (Throw, lm).
Proof.
  intros H. unfold getAllObjects, getVisibleObjects. rewrite H. split; reflexivity.
Qed.

(** *** The stores a run can reach *)

Lemma omap_Some (ls : list Layer) : omap (fun slot => slot) (Some <$> ls) = ls.
Proof.
  induction ls as [|l ls IH]; [reflexivity|].
  rewrite fmap_cons. cbn [omap list_omap]. simpl. f_equal. exact IH.
Qed.

Lemma held_defined lm ls : layers lm = Some <$> ls -> held lm = ls.
Proof. intros H. unfold held. rewrite H. apply omap_Some. Qed.

Lemma Clean_intro lm ls :
  layers lm = Some <$> ls -> layers_props lm = ∅ ->
  Forall (fun z => z < nextLayerId lm) (id <$> ls) -> NoDup (id <$> ls) ->
  currentLayerId lm ∈ id <$> ls ->
  Clean lm.
Proof.
  intros Hls Hp Hb Hn Hc. unfold Clean, Fresh, invariant, held_ids.
  rewrite (held_defined lm ls Hls).
  split; [eauto|]. split; [exact Hp|]. split; [split; assumption|].
  split; [|exact Hc]. intros ->. inversion Hc.
Qed.

Lemma Clean_elim lm :
  Clean lm ->
  exists ls,
    layers lm = Some <$> ls /\ layers_props lm = ∅ /\
    Forall (fun z => z < nextLayerId lm) (id <$> ls) /\ NoDup (id <$> ls) /\
    currentLayerId lm ∈ id <$> ls.
Proof.
  intros ([ls Hls] & Hp & [Hb Hn] & [_ Hc]). exists ls.
  unfold held_ids in *. rewrite (held_defined lm ls Hls) in *. auto.
Qed.

(** A call that permutes the layers, or rewrites fields other than [id],
    keeps a clean store clean. *)
Lemma clean_update lm lm' ls ls' :
  Clean lm -> layers lm = Some <$> ls ->
  layers lm' = Some <$> ls' -> layers_props lm' = ∅ ->
  nextLayerId lm' = nextLayerId lm ->
  id <$> ls' ≡ₚ id <$> ls ->
  currentLayerId lm' ∈ id <$> ls' ->
  Clean lm'.
Proof.
  intros HC Hls Hls' Hp Hn Hperm Hc.
  destruct (Clean_elim lm HC) as (ls0 & Hls0 & _ & Hb & Hnd & _).
  assert (ls0 = ls) as ->.
  { rewrite Hls in Hls0. apply (inj (fmap Some)) in Hls0. congruence. }
  apply (Clean_intro lm' ls'); try assumption.
  - rewrite Hn, Hperm. exact Hb.
  - rewrite Hperm. exact Hnd.
Qed.

Lemma clean_same lm lm' :
  Clean lm -> layers lm' = layers lm -> layers_props lm' = layers_props lm ->
  nextLayerId lm' = nextLayerId lm ->
  currentLayerId lm' ∈ held_ids lm ->
  Clean lm'.
Proof.
  intros HC Hl Hp Hn Hc.
  destruct (Clean_elim lm HC) as (ls & Hls & Hp0 & _ & _ & _).
  unfold held_ids in Hc. rewrite (held_defined lm ls Hls) in Hc.
  apply (clean_update lm lm' ls ls); try congruence. reflexivity.
Qed.

Lemma Clean_current lm : Clean lm -> currentLayerId lm ∈ held_ids lm.
Proof. intros (_ & _ & _ & [_ H]). exact H. Qed.

(** *** Each method on a clean store *)

Lemma id_split (layerId : Z) (ls : list Layer) :
  Forall (fun l => id l <> layerId) ls \/
  exists pre l post,
    ls = pre ++ l :: post /\ Forall (fun x => id x <> layerId) pre /\
    id l = layerId.
Proof.
  destruct (first_split (fun l => bool_decide (id l = layerId)) ls)
    as [H | (pre & l & post & -> & Hpre & Hl)].
  - left. eapply Forall_impl; [exact H|]. intros l Hl.
    simpl in Hl. apply bool_decide_eq_false in Hl. exact Hl.
  - right. exists pre, l, post. split; [reflexivity|]. split.
    + eapply Forall_impl; [exact Hpre|]. intros x Hx.
      simpl in Hx. apply bool_decide_eq_false in Hx. exact Hx.
    + apply bool_decide_eq_true_1 in Hl. exact Hl.
Qed.

Lemma insert_found (pre : list Layer) l post l' :
  <[length pre := Some l']> (Some <$> (pre ++ l :: post))
  = Some <$> (pre ++ l' :: post).
Proof.
  rewrite !fmap_app, !fmap_cons.
  rewrite <- (length_fmap Some pre) at 1.
  rewrite insert_app_r_alt by lia. rewrite Nat.sub_diag. reflexivity.
Qed.

Lemma update_found_absent lm ls layerId f :
  layers lm = Some <$> ls ->
  Forall (fun l => id l <> layerId) ls ->
  update_found layerId f lm = (Ret None, lm).
Proof.
  intros Hls Habs. unfold update_found.
  rewrite Hls, (js_find_absent _ _ _ (has_id_false _ _ Habs)). reflexivity.
Qed.

Lemma update_found_first lm pre l post f :
  layers lm = Some <$> (pre ++ l :: post) ->
  Forall (fun x => id x <> id l) pre ->
  update_found (id l) f lm
  = (Ret (Some (f l)), set_layers (fun _ => Some <$> (pre ++ f l :: post)) lm).
Proof.
  intros Hls Habs. unfold update_found. rewrite Hls.
  rewrite (js_find_first _ 0 pre l post (has_id_false _ _ Habs))
    by (apply bool_decide_eq_true_2; reflexivity).
  simpl. destruct lm as [ls0 props cur nxt]. simpl in *. subst ls0.
  unfold set_layers. simpl. rewrite insert_found. reflexivity.
Qed.

Lemma ids_update (pre : list Layer) l post l' :
  id l' = id l -> id <$> (pre ++ l' :: post) = id <$> (pre ++ l :: post).
Proof. intros H. rewrite !fmap_app, !fmap_cons, H. reflexivity. Qed.

(** A call that rewrites one layer and keeps its id keeps the store clean. *)
Lemma clean_update_found lm layerId f :
  (forall l, id (f l) = id l) ->
  Clean lm -> Clean (snd (update_found layerId f lm)).
Proof.
  intros Hf HC. destruct (Clean_elim lm HC) as (ls & Hls & Hp & _ & _ & Hc).
  destruct (id_split layerId ls) as [Habs | (pre & l & post & -> & Hpre & <-)].
  - rewrite (update_found_absent lm ls layerId f Hls Habs). exact HC.
  - rewrite (update_found_first lm pre l post f Hls Hpre). simpl.
    eapply (clean_update lm _ _ (pre ++ f l :: post) HC Hls);
      try reflexivity; try assumption.
    + rewrite (ids_update pre l post (f l) (Hf l)). reflexivity.
    + simpl. rewrite (ids_update pre l post (f l) (Hf l)). exact Hc.
Qed.

Lemma clean_addLayer lm name_arg : Clean lm -> Clean (snd (addLayer name_arg lm)).
Proof.
  intros HC. destruct (Clean_elim lm HC) as (ls & Hls & Hp & Hb & Hnd & _).
  unfold addLayer. simpl.
  set (newLayer := mkLayer (nextLayerId lm) _ true []).
  apply (Clean_intro _ (ls ++ [newLayer])); simpl.
  - rewrite Hls, fmap_app. reflexivity.
  - exact Hp.
  - rewrite fmap_app. apply Forall_app. split.
    + eapply Forall_impl; [exact Hb|]. intros z Hz. simpl in Hz. lia.
    + repeat constructor. simpl. lia.
  - rewrite fmap_app. apply NoDup_app. split; [exact Hnd|]. split.
    + intros z Hz Hin. apply list_elem_of_singleton in Hin. simpl in Hin. subst z.
      rewrite Forall_forall in Hb. specialize (Hb _ Hz). simpl in Hb. lia.
    + apply NoDup_singleton.
  - rewrite fmap_app. apply elem_of_app. right. simpl. apply list_elem_of_singleton.
    reflexivity.
Qed.

Lemma all_same_id_short (ls : list Layer) (z : Z) :
  NoDup (id <$> ls) -> Forall (fun x => id x = z) ls -> (length ls <= 1)%nat.
Proof.
  intros Hnd Hall. destruct ls as [|a [|b ls]]; simpl; try lia.
  exfalso. inversion Hall as [|? ? Ha Hall']; subst.
  inversion Hall' as [|? ? Hb _]; subst.
  rewrite !fmap_cons in Hnd. apply NoDup_cons in Hnd as [Hnotin _].
  apply Hnotin. rewrite Hb. apply list_elem_of_here.
Qed.

Lemma Forall_drop_middle {B} (P : B -> Prop) pre x post :
  Forall P (pre ++ x :: post) -> Forall P (pre ++ post).
Proof. rewrite !Forall_app, Forall_cons. tauto. Qed.

Lemma NoDup_drop_middle {B} (pre : list B) x post :
  NoDup (pre ++ x :: post) -> NoDup (pre ++ post).
Proof.
  rewrite <- Permutation_middle. intros H. apply NoDup_cons in H as [_ H]. exact H.
Qed.

Lemma clean_removeLayer lm layerId : Clean lm -> Clean (snd (removeLayer layerId lm)).
Proof.
  intros HC. destruct (Clean_elim lm HC) as (ls & Hls & Hp & Hb & Hnd & Hc).
  destruct (decide (length (layers lm) <= 1)%nat) as [Hshort | Hlong].
  { rewrite (removeLayer_sole lm layerId Hshort). exact HC. }
  destruct (id_split layerId ls) as [Habs | (pre & l & post & -> & Hpre & <-)].
  { rewrite (removeLayer_absent lm ls layerId Hls Habs). exact HC. }
  assert (Hlen : (2 <= length (pre ++ l :: post))%nat).
  { rewrite Hls, length_fmap in Hlong. lia. }
  destruct (removeLayer_found lm pre l post Hls Hlen Hpre)
    as (lm' & Hr & Hl' & Hp' & Hn' & Hother & Hcur & _).
  rewrite Hr. simpl.
  rewrite fmap_app, fmap_cons in Hb, Hnd.
  apply (Clean_intro lm' (pre ++ post) Hl').
  - congruence.
  - rewrite Hn', fmap_app. exact (Forall_drop_middle _ _ _ _ Hb).
  - rewrite fmap_app. exact (NoDup_drop_middle _ _ _ Hnd).
  - destruct (decide (id l = currentLayerId lm)) as [Heq | Hne].
    + destruct (first_split (fun x => negb (bool_decide (id x = id l))) (pre ++ l :: post))
        as [Hall | (same & fb & rest & Heq' & Hsame & Hfb)].
      * exfalso.
        assert (Hall' : Forall (fun x => id x = id l) (pre ++ l :: post)).
        { eapply Forall_impl; [exact Hall|]. intros x Hx. simpl in Hx.
          apply negb_false_iff, bool_decide_eq_true_1 in Hx. exact Hx. }
        assert (Hnd' : NoDup (id <$> (pre ++ l :: post)))
          by (rewrite fmap_app, fmap_cons; exact Hnd).
        pose proof (all_same_id_short _ _ Hnd' Hall'). lia.
      * apply negb_true_iff, bool_decide_eq_false in Hfb.
        assert (Hsame' : Forall (fun x => id x = id l) same).
        { eapply Forall_impl; [exact Hsame|]. intros x Hx. simpl in Hx.
          apply negb_false_iff, bool_decide_eq_true_1 in Hx. exact Hx. }
        rewrite (Hcur Heq same fb rest Heq' Hsame' Hfb).
        assert (Hin : fb ∈ pre ++ l :: post).
        { rewrite Heq'. apply elem_of_app. right. apply list_elem_of_here. }
        apply list_elem_of_fmap. exists fb. split; [reflexivity|].
        apply elem_of_app in Hin as [Hin | Hin]; apply elem_of_app.
        -- left. exact Hin.
        -- right. apply elem_of_cons in Hin as [-> | Hin]; [contradiction | exact Hin].
    + rewrite (Hother Hne).
      apply list_elem_of_fmap in Hc as (x & Hx & Hin).
      apply list_elem_of_fmap. exists x. split; [exact Hx|].
      apply elem_of_app in Hin as [Hin | Hin]; apply elem_of_app.
      * left. exact Hin.
      * right. apply elem_of_cons in Hin as [-> | Hin]; [congruence | exact Hin].
Qed.

Lemma snd_mthen_mreturn {S A B} (m : Method S A) (g : A -> B) (s : S) :
  snd (mthen m (fun r => mreturn (g r)) s) = snd (m s).
Proof. unfold mthen, mreturn. destruct (m s) as [[a| |] s']; reflexivity. Qed.

Lemma clean_renameLayer lm layerId newName :
  Clean lm -> Clean (snd (renameLayer layerId newName lm)).
Proof.
  intros HC. unfold renameLayer. rewrite snd_mthen_mreturn.
  apply clean_update_found; [reflexivity | exact HC].
Qed.

Lemma clean_toggleLayerVisibility lm layerId :
  Clean lm -> Clean (snd (toggleLayerVisibility layerId lm)).
Proof.
  intros HC. unfold toggleLayerVisibility. rewrite snd_mthen_mreturn.
  apply clean_update_found; [reflexivity | exact HC].
Qed.

Lemma clean_setCurrentLayer lm layerId :
  Clean lm -> Clean (snd (setCurrentLayer layerId lm)).
Proof.
  intros HC. destruct (Clean_elim lm HC) as (ls & Hls & Hp & _ & _ & _).
  unfold setCurrentLayer, find. rewrite Hls.
  destruct (id_split layerId ls) as [Habs | (pre & l & post & -> & Hpre & <-)].
  - rewrite (js_find_absent _ _ _ (has_id_false _ _ Habs)). simpl. exact HC.
  - rewrite (js_find_first _ 0 pre l post (has_id_false _ _ Hpre))
      by (apply bool_decide_eq_true_2; reflexivity).
    simpl. apply (clean_same lm); try reflexivity; [exact HC|].
    simpl. unfold held_ids. rewrite (held_defined lm _ Hls).
    rewrite fmap_app, fmap_cons. apply elem_of_app. right. apply list_elem_of_here.
Qed.

Lemma addObjectToCurrentLayer_update lm object :
  snd (addObjectToCurrentLayer object lm)
  = snd (update_found (currentLayerId lm)
           (fun l => set_objects (objects l ++ [object]) l) lm).
Proof.
  unfold addObjectToCurrentLayer, update_found.
  destruct (js_find _ 0 (layers lm)) as [[[i l]|]| |]; reflexivity.
Qed.

Lemma clean_addObjectToCurrentLayer lm object :
  Clean lm -> Clean (snd (addObjectToCurrentLayer object lm)).
Proof.
  intros HC. rewrite addObjectToCurrentLayer_update.
  apply clean_update_found; [reflexivity | exact HC].
Qed.

Lemma clean_removeObjectFromLayer lm object :
  Clean lm -> Clean (snd (removeObjectFromLayer object lm)).
Proof.
  intros HC. destruct (Clean_elim lm HC) as (ls & Hls & Hp & _ & _ & Hc).
  destruct (removeObjectFromLayer_spec lm ls object Hls) as [[_ Hr] | (ls' & H & Hr)];
    rewrite Hr; simpl; [exact HC|].
  pose proof (first_held_ids _ _ _ H) as Hids.
  apply (clean_update lm _ ls ls' HC Hls); simpl; try reflexivity; try assumption.
  - rewrite Hids. reflexivity.
  - rewrite Hids. exact Hc.
Qed.

Lemma moveObjectToLayer_steps lm object targetLayerId :
  snd (moveObjectToLayer object targetLayerId lm)
  = match removeObjectFromLayer object lm with
    | (Ret _, lm1) =>
        snd (update_found targetLayerId
               (fun l => set_objects (objects l ++ [object]) l) lm1)
    | (_, lm1) => lm1
    end.
Proof.
  unfold moveObjectToLayer, mthen, update_found.
  destruct (removeObjectFromLayer object lm) as [[r| |] lm1]; try reflexivity.
  destruct (js_find _ 0 (layers lm1)) as [[[i l]|]| |]; reflexivity.
Qed.

Lemma clean_moveObjectToLayer lm object targetLayerId :
  Clean lm -> Clean (snd (moveObjectToLayer object targetLayerId lm)).
Proof.
  intros HC. rewrite moveObjectToLayer_steps.
  pose proof (clean_removeObjectFromLayer lm object HC) as H1.
  destruct (removeObjectFromLayer object lm) as [[r| |] lm1]; simpl in *;
    try exact H1.
  apply clean_update_found; [reflexivity | exact H1].
Qed.

Lemma map_id_defined (ls : list Layer) : map_id (Some <$> ls) = Ret (id <$> ls).
Proof.
  induction ls as [|l ls IH]; [reflexivity|].
  rewrite !fmap_cons. cbn [map_id]. rewrite IH. reflexivity.
Qed.

Lemma sort_eq_Permutation (a b : list (option Z)) : sort a = sort b -> a ≡ₚ b.
Proof.
  unfold sort. intros H.
  rewrite <- (merge_sort_Permutation sort_le a), H.
  apply merge_sort_Permutation.
Qed.

Lemma Permutation_of_Some (ids : list Z) (new : list (option Z)) :
  Some <$> ids ≡ₚ new -> exists ids', new = Some <$> ids' /\ ids' ≡ₚ ids.
Proof.
  intros H. exists (omap (fun o => o) new). split.
  - assert (Hall : Forall is_Some new).
    { rewrite <- H. apply Forall_fmap. apply Forall_true. intros z. simpl. eauto. }
    clear H. induction Hall as [|o new [z ->] _ IH]; [reflexivity|].
    cbn [omap list_omap]. rewrite fmap_cons. f_equal. exact IH.
  - rewrite <- H. clear H. induction ids as [|z ids IH]; [reflexivity|].
    rewrite fmap_cons. cbn [omap list_omap]. simpl. constructor. exact IH.
Qed.

Lemma map_find_defined (ls : list Layer) (ids' : list Z) :
  (forall z, z ∈ ids' -> z ∈ id <$> ls) ->
  exists ls', map_find (Some <$> ls) (Some <$> ids') = Ret (Some <$> ls') /\
              id <$> ls' = ids'.
Proof.
  induction ids' as [|z ids' IH]; intros Hin.
  - exists []. split; reflexivity.
  - destruct IH as (ls' & Hmap & Hids).
    { intros y Hy. apply Hin. apply list_elem_of_further. exact Hy. }
    destruct (first_split (fun layer => bool_decide (Some (id layer) = Some z)) ls)
      as [Hall | (pre & l & post & Heq & Hpre & Hl)].
    + exfalso. specialize (Hin z (list_elem_of_here _ _)).
      apply list_elem_of_fmap in Hin as (l & -> & Hl).
      rewrite Forall_forall in Hall. specialize (Hall l Hl). simpl in Hall.
      apply bool_decide_eq_false in Hall. apply Hall. reflexivity.
    + exists (l :: ls'). rewrite !fmap_cons. cbn [map_find]. unfold find.
      rewrite Heq, (js_find_first _ 0 pre l post Hpre Hl). rewrite <- Heq. simpl.
      rewrite Hmap. split; [reflexivity|].
      apply bool_decide_eq_true_1 in Hl. injection Hl as Hl. rewrite Hl, Hids.
      reflexivity.
Qed.

(** When [reorderLayers] accepts an order, the layers come out in the
    order of the sorted ids, each id once, and nothing else of the store
    changes. *)
Lemma reorderLayers_accepts lm ls newOrderIds :
  layers lm = Some <$> ls ->
  sort (Some <$> (id <$> ls)) = sort newOrderIds ->
  exists ls',
    reorderLayers newOrderIds lm
    = (Ret true, mkLayerManager (Some <$> ls') ∅ (currentLayerId lm) (nextLayerId lm)) /\
    Some <$> (id <$> ls') = sort newOrderIds /\ id <$> ls' ≡ₚ id <$> ls.
Proof.
  intros Hls Hsort. unfold reorderLayers. cbv zeta.
  rewrite Hls, map_id_defined, decide_True by exact Hsort.
  assert (Hperm0 : Some <$> (id <$> ls) ≡ₚ sort newOrderIds).
  { rewrite <- Hsort. unfold sort. symmetry. apply merge_sort_Permutation. }
  destruct (Permutation_of_Some _ _ Hperm0) as (ids' & Heq & Hperm).
  rewrite Heq.
  destruct (map_find_defined ls ids') as (ls' & Hmap & Hids).
  { intros z Hz. rewrite <- Hperm. exact Hz. }
  exists ls'. rewrite Hmap, Hids. auto.
Qed.

Lemma reorderLayers_rejects lm ls newOrderIds :
  layers lm = Some <$> ls ->
  sort (Some <$> (id <$> ls)) <> sort newOrderIds ->
  reorderLayers newOrderIds lm = (Ret false, lm).
Proof.
  intros Hls Hsort. unfold reorderLayers. cbv zeta.
  rewrite Hls, map_id_defined, decide_False by exact Hsort. reflexivity.
Qed.

Lemma clean_reorderLayers lm newOrderIds :
  Clean lm -> Clean (snd (reorderLayers newOrderIds lm)).
Proof.
  intros HC. destruct (Clean_elim lm HC) as (ls & Hls & Hp & _ & _ & Hc).
  destruct (decide (sort (Some <$> (id <$> ls)) = sort newOrderIds)) as [Hs | Hs].
  - destruct (reorderLayers_accepts lm ls newOrderIds Hls Hs) as (ls' & Hr & _ & Hperm).
    rewrite Hr. simpl.
    apply (clean_update lm _ ls ls' HC Hls); simpl; try reflexivity; try assumption.
    rewrite Hperm. exact Hc.
  - rewrite (reorderLayers_rejects lm ls newOrderIds Hls Hs). exact HC.
Qed.

Lemma ids_swap (pre : list Layer) a b post :
  id <$> (pre ++ b :: a :: post) ≡ₚ id <$> (pre ++ a :: b :: post).
Proof.
  rewrite !fmap_app, !fmap_cons. apply Permutation_app_head. apply Permutation_swap.
Qed.

Lemma clean_swap lm pre a b post :
  Clean lm -> layers lm = Some <$> (pre ++ a :: b :: post) ->
  Clean (set_layers (fun _ => Some <$> (pre ++ b :: a :: post)) lm).
Proof.
  intros HC Hls. destruct (Clean_elim lm HC) as (ls & Hls' & Hp & _ & _ & Hc).
  assert (ls = pre ++ a :: b :: post) as ->.
  { rewrite Hls in Hls'. apply (inj (fmap Some)) in Hls'. congruence. }
  apply (clean_update lm _ _ (pre ++ b :: a :: post) HC Hls);
    simpl; try reflexivity; try assumption.
  - apply ids_swap.
  - rewrite ids_swap. exact Hc.
Qed.

Lemma snoc_split {B} (l : list B) : l = [] \/ exists l' x, l = l' ++ [x].
Proof.
  induction l as [|x l IH] using rev_ind; [left; reflexivity|].
  right. exists l, x. reflexivity.
Qed.

Lemma clean_moveLayerUp lm layerId : Clean lm -> Clean (snd (moveLayerUp layerId lm)).
Proof.
  intros HC. destruct (Clean_elim lm HC) as (ls & Hls & _).
  destruct (id_split layerId ls) as [Habs | (pre & l & post & -> & Hpre & <-)].
  { rewrite (moveLayerUp_absent lm ls layerId Hls Habs). exact HC. }
  destruct (snoc_split pre) as [-> | (pre' & a & ->)].
  - rewrite (moveLayerUp_first lm l post Hls). exact HC.
  - rewrite <- app_assoc in Hls. simpl in Hls.
    rewrite (moveLayerUp_swap lm pre' a l post Hls Hpre). simpl.
    apply clean_swap; assumption.
Qed.

Lemma stuck_moveLayerDown lm l rest layerId :
  Clean lm -> layers lm = Some <$> (l :: rest) ->
  Forall (fun x => id x <> layerId) (l :: rest) ->
  Stuck (snd (moveLayerDown layerId lm)).
Proof.
  intros HC Hls Habs.
  destruct (Clean_elim lm HC) as (ls & Hls' & Hp & Hb & Hnd & _).
  assert (ls = l :: rest) as ->.
  { rewrite Hls in Hls'. apply (inj (fmap Some)) in Hls'. congruence. }
  rewrite (moveLayerDown_absent lm l rest layerId Hls Habs). simpl.
  rewrite Hp, lookup_empty. simpl.
  split; [eauto|]. unfold Fresh, held_ids, held. simpl.
  rewrite omap_Some. rewrite fmap_cons in Hb, Hnd.
  apply Forall_cons in Hb as [_ Hb]. apply NoDup_cons in Hnd as [_ Hnd].
  split; assumption.
Qed.

Lemma clean_moveLayerDown lm layerId :
  Clean lm -> layerId ∈ held_ids lm -> Clean (snd (moveLayerDown layerId lm)).
Proof.
  intros HC Hin. destruct (Clean_elim lm HC) as (ls & Hls & _).
  unfold held_ids in Hin. rewrite (held_defined lm ls Hls) in Hin.
  destruct (id_split layerId ls) as [Habs | (pre & l & post & -> & Hpre & <-)].
  { exfalso. apply list_elem_of_fmap in Hin as (x & -> & Hx).
    rewrite Forall_forall in Habs. exact (Habs x Hx eq_refl). }
  destruct post as [|b post].
  - rewrite (moveLayerDown_last lm pre l Hls Hpre). exact HC.
  - rewrite (moveLayerDown_swap lm pre l b post Hls Hpre). simpl.
    apply clean_swap; assumption.
Qed.

(** *** Runs *)

(** What one call does to a clean store: it stays clean, unless the call
    is [moveLayerDown] of an id that no layer has. *)
Lemma exec_clean op lm :
  Clean lm ->
  (forall layerId, op = MoveLayerDown layerId -> layerId ∈ held_ids lm) ->
  Clean (exec op lm).
Proof.
  intros HC Haim. destruct op; simpl.
  - apply clean_addLayer, HC.
  - apply clean_removeLayer, HC.
  - apply clean_renameLayer, HC.
  - apply clean_setCurrentLayer, HC.
  - exact HC.
  - exact HC.
  - apply clean_addObjectToCurrentLayer, HC.
  - apply clean_removeObjectFromLayer, HC.
  - apply clean_moveObjectToLayer, HC.
  - apply clean_reorderLayers, HC.
  - apply clean_moveLayerUp, HC.
  - apply clean_moveLayerDown; [exact HC | apply Haim; reflexivity].
  - apply clean_toggleLayerVisibility, HC.
  - exact HC.
  - exact HC.
  - exact HC.
Qed.

Lemma exec_clean_or_stuck op lm : Clean lm -> Clean (exec op lm) \/ Stuck (exec op lm).
Proof.
  intros HC.
  assert (Hother : (forall layerId, op <> MoveLayerDown layerId) ->
                   Clean (exec op lm) \/ Stuck (exec op lm)).
  { intros Hne. left. apply exec_clean; [exact HC|].
    intros layerId Heq. destruct (Hne layerId Heq). }
  destruct op; try (apply Hother; intros ?; discriminate).
  clear Hother.
  destruct (decide (layerId ∈ held_ids lm)) as [Hin | Hout].
  - left. apply exec_clean; [exact HC|]. intros ? [= <-]. exact Hin.
  - right. simpl. destruct (Clean_elim lm HC) as (ls & Hls & _ & _ & _ & Hc).
    unfold held_ids in Hout. rewrite (held_defined lm ls Hls) in Hout.
    destruct ls as [|l rest]; [inversion Hc|].
    apply (stuck_moveLayerDown lm l rest layerId HC Hls).
    apply Forall_forall. intros x Hx Heq. apply Hout.
    apply list_elem_of_fmap. exists x. auto.
Qed.

(** On a store whose slot 0 holds [undefined], [addLayer] appends and every
    other call leaves the store as it found it. *)
Lemma exec_stuck op lm : Stuck lm -> Stuck (exec op lm).
Proof.
  intros [[rest Hls] [Hb Hnd]].
  destruct op; simpl;
    try (unfold removeLayer, renameLayer, toggleLayerVisibility, update_found,
           setCurrentLayer, getCurrentLayer, getAllLayers, addObjectToCurrentLayer,
           removeObjectFromLayer, moveObjectToLayer, reorderLayers, moveLayerUp,
           moveLayerDown, getAllObjects, getObjectsInLayer, getVisibleObjects,
           mthen, reads, find, findIndex;
         rewrite ?Hls; simpl;
         repeat (match goal with |- context [decide ?P] => destruct (decide P) end; simpl);
         split; [eauto | split; assumption]).
  2: { unfold removeLayer, findIndex. rewrite Hls.
       destruct (decide (length (None :: rest) <= 1)%nat); simpl;
         (split; [eauto | split; assumption]). }
  2: { unfold moveObjectToLayer, removeObjectFromLayer, mthen. rewrite Hls. simpl.
       split; [eauto | split; assumption]. }
  unfold held_ids, held in *. rewrite Hls in *. split; [eauto|].
  unfold Fresh, held_ids, held. simpl. rewrite omap_app, fmap_app. simpl.
  cbn [omap list_omap] in Hb, Hnd. simpl in Hb, Hnd.
  split.
  - apply Forall_app. split.
    + eapply Forall_impl; [exact Hb|]. intros z Hz. simpl in Hz. lia.
    + repeat constructor. lia.
  - apply NoDup_app. split; [exact Hnd|]. split; [|apply NoDup_singleton].
    intros z Hz Hin. apply list_elem_of_singleton in Hin. subst z.
    rewrite Forall_forall in Hb. specialize (Hb _ Hz). simpl in Hb. lia.
Qed.

Lemma Clean_constructor : Clean constructor.
Proof.
  apply (Clean_intro constructor [mkLayer 1 "Layer 1" true []]); simpl.
  - reflexivity.
  - reflexivity.
  - repeat constructor.
  - apply NoDup_singleton.
  - apply list_elem_of_here.
Qed.

Lemma run_clean_or_stuck ops lm :
  Clean lm \/ Stuck lm -> Clean (run ops lm) \/ Stuck (run ops lm).
Proof.
  revert lm. induction ops as [|op ops IH]; intros lm H; [exact H|].
  simpl. apply IH. destruct H as [H | H].
  - apply exec_clean_or_stuck, H.
  - right. apply exec_stuck, H.
Qed.

Lemma run_Fresh ops : Fresh (run ops constructor).
Proof.
  destruct (run_clean_or_stuck ops constructor (or_introl Clean_constructor))
    as [(_ & _ & H & _) | [_ H]]; exact H.
Qed.

Lemma update_found_nextLayerId lm layerId f :
  nextLayerId (snd (update_found layerId f lm)) = nextLayerId lm.
Proof.
  unfold update_found.
  destruct (js_find _ 0 (layers lm)) as [[[i l]|]| |]; reflexivity.
Qed.

Lemma removeObjectFromLayer_nextLayerId lm object :
  nextLayerId (snd (removeObjectFromLayer object lm)) = nextLayerId lm.
Proof.
  unfold removeObjectFromLayer.
  destruct (removeObject_loop object (layers lm)) as [[ls'|]| |]; reflexivity.
Qed.

Lemma array_set_nextLayerId i v lm :
  nextLayerId (array_set i v lm) = nextLayerId lm.
Proof.
  unfold array_set. destruct (decide (0 <= i)); [|reflexivity].
  destruct (decide (Z.to_nat i < length (layers lm))%nat); reflexivity.
Qed.

(** [nextLayerId] moves with [addLayer] and with no other call. *)
Lemma exec_nextLayerId op lm :
  nextLayerId (exec op lm)
  = nextLayerId lm + match op with AddLayer _ => 1 | _ => 0 end.
Proof.
  destruct op; simpl; rewrite ?Z.add_0_r; try reflexivity.
  - unfold removeLayer.
    destruct (decide (length (layers lm) <= 1)%nat); [reflexivity|].
    destruct (findIndex _ (layers lm)) as [layerIndex| |]; try reflexivity.
    destruct (decide (layerIndex = -1)); [reflexivity|].
    destruct (decide (layerId = currentLayerId lm)); [|reflexivity].
    destruct (find _ (layers lm)) as [[fallbackLayer|]| |]; reflexivity.
  - unfold renameLayer. rewrite snd_mthen_mreturn. apply update_found_nextLayerId.
  - unfold setCurrentLayer.
    destruct (find _ (layers lm)) as [[l|]| |]; reflexivity.
  - rewrite addObjectToCurrentLayer_update. apply update_found_nextLayerId.
  - apply removeObjectFromLayer_nextLayerId.
  - rewrite moveObjectToLayer_steps.
    pose proof (removeObjectFromLayer_nextLayerId lm object) as H.
    destruct (removeObjectFromLayer object lm) as [[r| |] lm1]; simpl in *;
      try exact H.
    rewrite update_found_nextLayerId. exact H.
  - unfold reorderLayers.
    destruct (map_id (layers lm)) as [currentLayerIds| |]; try reflexivity.
    destruct (decide (sort (Some <$> currentLayerIds) = sort newOrderIds));
      [|reflexivity].
    destruct (map_find (layers lm) (sort newOrderIds)) as [ls'| |]; reflexivity.
  - unfold moveLayerUp.
    destruct (findIndex _ (layers lm)) as [currentIndex| |]; try reflexivity.
    destruct (decide (currentIndex > 0)); [|reflexivity].
    simpl. rewrite !array_set_nextLayerId. reflexivity.
  - unfold moveLayerDown.
    destruct (findIndex _ (layers lm)) as [currentIndex| |]; try reflexivity.
    destruct (decide (currentIndex < Z.of_nat (length (layers lm)) - 1));
      [|reflexivity].
    simpl. rewrite !array_set_nextLayerId. reflexivity.
  - unfold toggleLayerVisibility. rewrite snd_mthen_mreturn.
    apply update_found_nextLayerId.
Qed.

(** C8: after every sequence of calls on the store as constructed, no two
    layers of the array share an id and every id is below [nextLayerId];
    [addLayer] gives the new layer the id [nextLayerId] and raises the
    counter by one, and no other call moves the counter. *)
Theorem ids_unique_and_monotone (ops : list Op) :
  let lm := run ops constructor in
  NoDup (held_ids lm) /\
  Forall (fun z => z < nextLayerId lm) (held_ids lm) /\
  (forall name_arg,
     exists newLayer lm',
       addLayer name_arg lm = (Ret newLayer, lm') /\
       id newLayer = nextLayerId lm /\
       layers lm' = layers lm ++ [Some newLayer] /\
       nextLayerId lm' = nextLayerId lm + 1) /\
  (forall op,
     nextLayerId (exec op lm)
     = nextLayerId lm + match op with AddLayer _ => 1 | _ => 0 end).
Proof.
  cbv zeta. destruct (run_Fresh ops) as [Hb Hnd].
  split; [exact Hnd|]. split; [exact Hb|]. split.
  - intros name_arg. unfold addLayer. eexists _, _. split; [reflexivity|].
    simpl. auto.
  - intros op. apply exec_nextLayerId.
Qed.

(** C4 (the defect): one call of [moveLayerDown] with an id that no layer
    has leaves the array without any layer, so that [currentLayerId] names
    none. *)
Theorem invariant_broken_by_moveLayerDown :
  let lm := run [MoveLayerDown 99] constructor in
  layers lm = [None] /\ held lm = [] /\ currentLayerId lm = 1 /\ ~ invariant lm.
Proof.
  cbv zeta. split; [reflexivity|]. split; [reflexivity|]. split; [reflexivity|].
  intros [H _]. apply H. reflexivity.
Qed.

(** Apart from that slip the invariant of the data model holds: a run that
    never aims [moveLayerDown] at a missing id keeps at least one layer and
    a [currentLayerId] that names one. *)
Lemma invariant_when_well_aimed ops lm :
  Clean lm -> well_aimed ops lm -> invariant (run ops lm).
Proof.
  revert lm. induction ops as [|op ops IH]; intros lm HC Haim; simpl.
  - destruct HC as (_ & _ & _ & H). exact H.
  - destruct Haim as [Hop Haim]. apply IH; [|exact Haim].
    apply exec_clean; assumption.
Qed.

(** *** Scenarios *)

(** The scenario of the specification: layers 1, 2, 3; [moveLayerUp(3)]
    gives the order 1, 3, 2; [moveLayerDown(1)] gives 3, 1, 2;
    [moveLayerUp(1)] gives 1, 3, 2; each call answers true. *)
Example scenario_layer_order :
  let lm0 := run [AddLayer (Some "Layer 2"); AddLayer (Some "Layer 3")] constructor in
  let r1 := moveLayerUp 3 lm0 in
  let r2 := moveLayerDown 1 (snd r1) in
  let r3 := moveLayerUp 1 (snd r2) in
  (fst r1, held_ids (snd r1)) = (Ret true, [1; 3; 2]) /\
  (fst r2, held_ids (snd r2)) = (Ret true, [3; 1; 2]) /\
  (fst r3, held_ids (snd r3)) = (Ret true, [1; 3; 2]).
Proof. cbv zeta. repeat split; reflexivity. Qed.

(** The run of [js/test_layer_controls.js]: four layers, [moveLayerUp(3)],
    [moveLayerDown(2)], then the first layer up and the last layer down,
    which both answer false. *)
Example scenario_test_layer_controls :
  let lm0 :=
    run [AddLayer (Some "Layer 2"); AddLayer (Some "Layer 3"); AddLayer (Some "Layer 4")]
      constructor in
  let r1 := moveLayerUp 3 lm0 in
  let r2 := moveLayerDown 2 (snd r1) in
  let r3 := moveLayerUp 1 (snd r2) in
  let r4 := moveLayerDown 2 (snd r3) in
  (fst r1, held_ids (snd r1)) = (Ret true, [1; 3; 2; 4]) /\
  (fst r2, held_ids (snd r2)) = (Ret true, [1; 3; 4; 2]) /\
  (fst r3, held_ids (snd r3)) = (Ret false, [1; 3; 4; 2]) /\
  (fst r4, held_ids (snd r4)) = (Ret false, [1; 3; 4; 2]).
Proof. cbv zeta. repeat split; reflexivity. Qed.

(** *** The theorems at work *)

Lemma moveObjectToLayer_unknown_target_witness :
  let object := mkObject3D 7 0 in
  let ls := [mkLayer 1 "Layer 1" true [object]; mkLayer 2 "Layer 2" true []] in
  let lm := mkLayerManager (Some <$> ls) ∅ 2 3 in
  layers lm = Some <$> ls /\
  Forall (fun l => id l <> 99) ls /\
  ((held_nowhere object ls /\
    moveObjectToLayer object 99 lm = (Ret false, lm)) \/
   (exists ls', first_held object ls ls' /\
      moveObjectToLayer object 99 lm
      = (Ret false, set_layers (fun _ => Some <$> ls') lm))).
Proof.
  cbv zeta. split; [reflexivity|].
  assert (H : Forall (fun l => id l <> 99)
                [mkLayer 1 "Layer 1" true [mkObject3D 7 0]; mkLayer 2 "Layer 2" true []]).
  { constructor; [simpl; lia|]. constructor; [simpl; lia|]. constructor. }
  split; [exact H|].
  apply moveObjectToLayer_unknown_target; [reflexivity | exact H].
Defined.

Lemma removeLayer_currentLayerId_witness :
  let l1 := mkLayer 1 "Layer 1" true [] in
  let l2 := mkLayer 2 "Layer 2" true [] in
  let l3 := mkLayer 3 "Layer 3" true [] in
  let lm := mkLayerManager (Some <$> [l1; l2; l3]) ∅ 2 4 in
  layers lm = Some <$> ([l1] ++ l2 :: [l3]) /\
  (2 <= length ([l1] ++ l2 :: [l3]))%nat /\
  Forall (fun x => id x <> id l2) [l1] /\
  exists lm',
    removeLayer (id l2) lm = (Ret true, lm') /\
    layers lm' = Some <$> ([l1] ++ [l3]) /\
    (id l2 <> currentLayerId lm -> currentLayerId lm' = currentLayerId lm) /\
    (id l2 = currentLayerId lm ->
     forall same fallbackLayer rest,
       [l1] ++ l2 :: [l3] = same ++ fallbackLayer :: rest ->
       Forall (fun x => id x = id l2) same ->
       id fallbackLayer <> id l2 ->
       currentLayerId lm' = id fallbackLayer).
Proof.
  cbv zeta. split; [reflexivity|]. split; [simpl; lia|].
  assert (H : Forall (fun x => id x <> 2) [mkLayer 1 "Layer 1" true []]).
  { constructor; [simpl; lia | constructor]. }
  split; [exact H|].
  apply (removeLayer_currentLayerId
           (mkLayerManager
              (Some <$> [mkLayer 1 "Layer 1" true []; mkLayer 2 "Layer 2" true [];
                         mkLayer 3 "Layer 3" true []]) ∅ 2 4)
           [mkLayer 1 "Layer 1" true []] (mkLayer 2 "Layer 2" true [])
           [mkLayer 3 "Layer 3" true []]);
    [reflexivity | simpl; lia | exact H].
Defined.

End LayerManagerFacts.

(** ** Properties of the state manager *)

Module StateManagerFacts.
Import StateManager.

(** *** Reading a path *)

Lemma split_nonempty path : split path <> [].
Proof.
  destruct path as [|c path]; simpl; [discriminate|].
  destruct (Ascii.eqb c "."); [discriminate|].
  destruct (split path); discriminate.
Qed.

Lemma get_member_own v k :
  has_own v k || negb (inherited k) = true ->
  v <> VUndefined -> v <> VNull ->
  get_member v k = Ret (own v k).
Proof.
  intros Hk Hu Hn. unfold get_member.
  assert (negb (has_own v k) && inherited k = false) as Hread.
  { destruct (has_own v k), (inherited k); simpl in *; congruence. }
  rewrite Hread. destruct v; congruence.
Qed.

Lemma opt_member_own v k :
  match v with
  | VUndefined | VNull => true
  | _ => has_own v k || negb (inherited k)
  end = true ->
  opt_member v k = Ret (own v k).
Proof.
  intros Hk. destruct v; try reflexivity;
    unfold opt_member; apply get_member_own; (exact Hk || discriminate).
Qed.

Lemma reduce_opt_member keys v :
  plain v keys = true -> reduce opt_member keys v = Ret (descend v keys).
Proof.
  revert v. induction keys as [|k keys IH]; intros v Hplain; [reflexivity|].
  cbn [reduce]. rewrite opt_member_own.
  - apply IH. destruct v; cbn [plain] in Hplain;
      try (apply andb_true_iff in Hplain as [_ H]; exact H);
      clear; induction keys; reflexivity.
  - destruct v; try reflexivity; cbn [plain] in Hplain;
      apply andb_true_iff in Hplain as [H _]; exact H.
Qed.

Lemma no_inherited_plain keys v : no_inherited keys = true -> plain v keys = true.
Proof.
  revert v. induction keys as [|k keys IH]; intros v H; [reflexivity|].
  cbn [no_inherited forallb] in H. apply andb_true_iff in H as [Hk H].
  cbn [plain]. destruct v; try reflexivity;
    (apply andb_true_iff; split; [rewrite Hk; apply orb_true_r | apply IH; exact H]).
Qed.

Lemma descend_undefined keys : descend VUndefined keys = VUndefined.
Proof. induction keys as [|k keys IH]; simpl; [reflexivity | exact IH]. Qed.

Lemma descend_app v pre post :
  descend v (pre ++ post) = descend (descend v pre) post.
Proof. unfold descend. apply fold_left_app. Qed.

(** C9, as the code has it: on a path that is plain on the tree -- each
    segment, at the value reached, is an own property of that value or a
    name that no prototype supplies -- [getStateProperty] does not raise
    and changes nothing; it answers the value that the descent over the
    own properties reaches, and [undefined] as soon as a segment names no
    own property of the value reached so far -- which is so for every
    segment once that value is [undefined], [null], a boolean or a number.
    (A string and an array own their [length] and their indices.)  A path
    through a name that a value inherits, as [scene.constructor] is,
    answers a function or an object of the host and can raise; such a path
    is not plain. *)
Theorem getStateProperty_total (sm : StateManager) (path : string) :
  plain (state sm) (split path) = true ->
  getStateProperty path sm = (Ret (descend (state sm) (split path)), sm) /\
  (forall pre key post,
     split path = pre ++ key :: post ->
     own (descend (state sm) pre) key = VUndefined ->
     descend (state sm) (split path) = VUndefined) /\
  (forall key b n,
     own VUndefined key = VUndefined /\ own VNull key = VUndefined /\
     own (VBool b) key = VUndefined /\ own (VNum n) key = VUndefined).
Proof.
  intros Hplain. split; [|split].
  - unfold getStateProperty. rewrite (reduce_opt_member _ _ Hplain). reflexivity.
  - intros pre key post Hsplit Hmiss. rewrite Hsplit.
    change (pre ++ key :: post) with (pre ++ [key] ++ post).
    rewrite !descend_app. simpl. rewrite Hmiss. apply descend_undefined.
  - intros key b n. repeat split; reflexivity.
Qed.

(** C9, as it is claimed, fails: the colour of the scene is a string, no
    container, and a path that goes on through it to [length] reads 7
    where the claim asks for [undefined]. *)
Lemma getStateProperty_through_string :
  let sm := constructor "" None in
  fst (getStateProperty "scene.backgroundColor" sm) = Ret (VStr "#808080") /\
  fst (getStateProperty "scene.backgroundColor.length" sm) = Ret (VNum 7) /\
  fst (getStateProperty "scene.backgroundColor.length" sm) <> Ret VUndefined.
Proof.
  cbv zeta. split; [reflexivity|]. split; [reflexivity|]. discriminate.
Qed.

(** *** Objects and their fields *)

Lemma assoc_set_eq k v fs : assoc k (assoc_set k v fs) = Some v.
Proof.
  induction fs as [|[k' v'] fs IH]; simpl.
  - rewrite String.eqb_refl. reflexivity.
  - destruct (String.eqb k k') eqn:E; simpl.
    + rewrite String.eqb_refl. reflexivity.
    + rewrite E. exact IH.
Qed.

Lemma assoc_set_ne k k' v fs :
  k <> k' -> assoc k' (assoc_set k v fs) = assoc k' fs.
Proof.
  intros Hne. induction fs as [|[k0 v0] fs IH]; simpl.
  - apply String.eqb_neq in Hne. rewrite String.eqb_sym, Hne. reflexivity.
  - destruct (String.eqb k k0) eqn:E; simpl.
    + apply String.eqb_eq in E. subst k0.
      assert (String.eqb k' k = false) as -> by (apply String.eqb_neq; congruence).
      reflexivity.
    + destruct (String.eqb k' k0); [reflexivity | exact IH].
Qed.

Lemma assoc_set_set k v v' fs :
  assoc_set k v (assoc_set k v' fs) = assoc_set k v fs.
Proof.
  induction fs as [|[k0 v0] fs IH]; simpl.
  - rewrite String.eqb_refl. reflexivity.
  - destruct (String.eqb k k0) eqn:E; simpl.
    + rewrite String.eqb_refl. reflexivity.
    + rewrite E, IH. reflexivity.
Qed.

Lemma assoc_set_same k v fs : assoc k fs = Some v -> assoc_set k v fs = fs.
Proof.
  induction fs as [|[k0 v0] fs IH]; simpl; [discriminate|].
  destruct (String.eqb k k0) eqn:E.
  - apply String.eqb_eq in E. subst k0. intros [= ->]. reflexivity.
  - intros H. rewrite (IH H). reflexivity.
Qed.

(** A value that holds an object under a name that is neither an index
    nor [length] is an object. *)
Lemma own_object v k :
  array_index k = None -> String.eqb k "length" = false ->
  is_object (own v k) = true ->
  exists fs0 fs, v = VObj fs0 /\ assoc k fs0 = Some (VObj fs).
Proof.
  intros Hi Hl H. destruct v as [| | | | s|es|fs0]; simpl in H; try discriminate.
  - rewrite Hi, Hl in H. discriminate.
  - rewrite Hi, Hl in H. discriminate.
  - destruct (assoc k fs0) as [[| | | | | |fs]|] eqn:E; simpl in H; try discriminate.
    exists fs0, fs. auto.
Qed.

(** *** One write *)

Lemma save_notify sm tree :
  (saveState ;;; notifyListeners)%method (set_state tree sm)
  = (Ret tt, after_write sm tree).
Proof.
  unfold saveState, notifyListeners, mthen, modify, emit, after_write, cycle.
  simpl. rewrite <- app_assoc. reflexivity.
Qed.

(** [setStateProperty] on a path of two segments, through a section that
    is an object. *)
Lemma get_member_field fs k x :
  assoc k fs = Some x -> get_member (VObj fs) k = Ret x.
Proof.
  intros H. unfold get_member. cbn [has_own own]. rewrite H. reflexivity.
Qed.

Lemma set_member_field fs k x :
  String.eqb k "__proto__" = false ->
  set_member (VObj fs) k x = Ret (VObj (assoc_set k x fs)).
Proof. intros H. unfold set_member. rewrite H. reflexivity. Qed.

Lemma setStateProperty_field sm path sec field value fs0 fs :
  split path = [sec; field] ->
  state sm = VObj fs0 -> assoc sec fs0 = Some (VObj fs) ->
  String.eqb field "__proto__" = false ->
  setStateProperty path value sm
  = (Ret tt,
     after_write sm (VObj (assoc_set sec (VObj (assoc_set field value fs)) fs0))).
Proof.
  intros Hsplit Hst Hsec Hfield. unfold setStateProperty.
  unfold mthen at 1. rewrite Hsplit, Hst. cbn [assign].
  rewrite (get_member_field fs0 sec _ Hsec), (set_member_field fs field value Hfield).
  cbn [put_own]. apply save_notify.
Qed.

Lemma updateState_after sm newState :
  updateState newState sm = (Ret tt, after_write sm (merge (state sm) newState)).
Proof. unfold updateState, mthen at 1, modify. apply save_notify. Qed.

(** *** Counting the effects *)

Lemma persist_count_app a b :
  persist_count (a ++ b) = (persist_count a + persist_count b)%nat.
Proof. unfold persist_count. rewrite List.filter_app, length_app. reflexivity. Qed.

Lemma notify_count_app l a b :
  notify_count l (a ++ b) = (notify_count l a + notify_count l b)%nat.
Proof. unfold notify_count. rewrite List.filter_app, length_app. reflexivity. Qed.

Lemma persist_count_cycle ls tree : persist_count (cycle ls tree) = 1%nat.
Proof.
  unfold persist_count, cycle. simpl. f_equal.
  induction ls as [|l ls IH]; simpl; [reflexivity | exact IH].
Qed.

Lemma notify_count_cycle l ls tree :
  notify_count l (cycle ls tree) = count_occ Nat.eq_dec ls l.
Proof.
  unfold notify_count, cycle. simpl.
  induction ls as [|l' ls IH]; [reflexivity|].
  rewrite fmap_cons. simpl.
  destruct (Nat.eq_dec l' l) as [-> | Hne].
  - rewrite Nat.eqb_refl. simpl. f_equal. exact IH.
  - assert (Nat.eqb l l' = false) as -> by (apply Nat.eqb_neq; congruence).
    exact IH.
Qed.

Lemma persist_count_cycles ls trees :
  persist_count (concat (cycle ls <$> trees)) = length trees.
Proof.
  induction trees as [|t trees IH]; [reflexivity|].
  rewrite fmap_cons.
  change (concat (cycle ls t :: (cycle ls <$> trees)))
    with (cycle ls t ++ concat (cycle ls <$> trees)).
  rewrite persist_count_app, persist_count_cycle, IH. reflexivity.
Qed.

Lemma notify_count_cycles l ls trees :
  notify_count l (concat (cycle ls <$> trees))
  = (length trees * count_occ Nat.eq_dec ls l)%nat.
Proof.
  induction trees as [|t trees IH]; [reflexivity|].
  rewrite fmap_cons.
  change (concat (cycle ls t :: (cycle ls <$> trees)))
    with (cycle ls t ++ concat (cycle ls <$> trees)).
  rewrite notify_count_app, notify_count_cycle, IH. simpl. reflexivity.
Qed.

(** *** Paths of the setters *)

Lemma split_no_dot s : no_dot s = true -> split s = [s].
Proof.
  induction s as [|c s IH]; simpl; [reflexivity|].
  intros H. apply andb_true_iff in H as [Hc Hs].
  apply negb_true_iff in Hc. rewrite Hc, (IH Hs). reflexivity.
Qed.

Lemma no_dot_app a b : no_dot a = true -> no_dot b = true -> no_dot (a +:+ b) = true.
Proof.
  intros Ha Hb. induction a as [|c a IH]; simpl in *; [exact Hb|].
  apply andb_true_iff in Ha as [Hc Ha]. rewrite Hc, (IH Ha). reflexivity.
Qed.

Lemma split_panel panelName :
  no_dot panelName = true ->
  split ("ui." +:+ panelName +:+ "Visible") = ["ui"; panelName +:+ "Visible"].
Proof.
  intros H.
  change ("ui." +:+ panelName +:+ "Visible")
    with (String "u" (String "i" (String "." (panelName +:+ "Visible")))).
  simpl. rewrite (split_no_dot (panelName +:+ "Visible")); [reflexivity|].
  apply no_dot_app; [exact H | reflexivity].
Qed.

Lemma ends_with_app (p suffix : string) : ends_with suffix (p +:+ suffix) = true.
Proof.
  induction p as [|c p IH].
  - change ("" +:+ suffix) with suffix.
    destruct suffix; cbn [ends_with]; rewrite String.eqb_refl; reflexivity.
  - change (String c p +:+ suffix) with (String c (p +:+ suffix)).
    cbn [ends_with]. rewrite IH. apply orb_true_r.
Qed.

Lemma ends_with_differs (suffix k : string) (names : list string) :
  forallb (fun n => negb (ends_with suffix n)) names = true ->
  ends_with suffix k = true ->
  existsb (String.eqb k) names = false.
Proof.
  intros Hall Hk. induction names as [|n names IH]; [reflexivity|].
  cbn [forallb] in Hall. apply andb_true_iff in Hall as [Hn Hall].
  cbn [existsb]. rewrite (IH Hall), orb_false_r.
  destruct (String.eqb_spec k n) as [->|_]; [|reflexivity].
  rewrite Hk in Hn. discriminate.
Qed.

(** The flag of a panel is no name that a prototype supplies. *)
Lemma visible_not_inherited panelName :
  inherited (panelName +:+ "Visible") = false /\
  String.eqb (panelName +:+ "Visible") "__proto__" = false.
Proof.
  pose proof (ends_with_app panelName "Visible") as Hends. split.
  - unfold inherited. apply (ends_with_differs "Visible"); [reflexivity | exact Hends].
  - pose proof (ends_with_differs "Visible" _ ["__proto__"] eq_refl Hends) as H.
    cbn [existsb] in H. rewrite orb_false_r in H. exact H.
Qed.

Lemma no_inherited_panel panelName :
  no_dot panelName = true ->
  no_inherited (split ("ui." +:+ panelName +:+ "Visible")) = true.
Proof.
  intros H. rewrite (split_panel panelName H). cbn [no_inherited forallb].
  rewrite (proj1 (visible_not_inherited panelName)). reflexivity.
Qed.

(** *** The setters *)

Lemma mthen_ret {S A B} (m : Method S A) (k : A -> Method S B) s a s' :
  m s = (Ret a, s') -> mthen m k s = k a s'.
Proof. intros H. unfold mthen. rewrite H. reflexivity. Qed.

Lemma getStateProperty_descend sm path :
  no_inherited (split path) = true ->
  getStateProperty path sm = (Ret (descend (state sm) (split path)), sm).
Proof.
  intros H. unfold getStateProperty.
  rewrite reduce_opt_member by (apply no_inherited_plain; exact H). reflexivity.
Qed.

Lemma js_add1_addable v : addable v = true -> exists c, js_add1 v = Ret c.
Proof. destruct v; simpl; intros H; try discriminate; eauto. Qed.

Lemma wrote_once sm tree : wrote sm (after_write sm tree) [tree].
Proof.
  unfold wrote, cycles. simpl. rewrite app_nil_r. auto.
Qed.

Lemma wrote_twice sm tree1 tree2 :
  wrote sm (after_write (after_write sm tree1) tree2) [tree1; tree2].
Proof.
  unfold wrote, cycles. simpl. rewrite app_nil_r, <- app_assoc. auto.
Qed.

(** One write of a setter into its section. *)
Lemma setter_once sm path sec field value :
  split path = [sec; field] ->
  array_index sec = None -> String.eqb sec "length" = false ->
  is_object (own (state sm) sec) = true ->
  String.eqb field "__proto__" = false ->
  exists tree,
    setStateProperty path value sm = (Ret tt, after_write sm tree) /\
    is_object (own tree sec) = true /\
    (forall field', field <> field' -> own (own tree sec) field' = own (own (state sm) sec) field').
Proof.
  intros Hsplit Hi Hl Hobj Hfield.
  destruct (own_object _ _ Hi Hl Hobj) as (fs0 & fs & Hst & Hsec).
  eexists. split.
  - apply (setStateProperty_field sm path sec field value fs0 fs Hsplit Hst Hsec Hfield).
  - simpl. rewrite assoc_set_eq. simpl. split; [reflexivity|].
    intros field' Hne. rewrite assoc_set_ne by exact Hne.
    rewrite Hst. simpl. rewrite Hsec. reflexivity.
Qed.

(** Two writes of a setter into one section. *)
Lemma setter_twice sm path1 path2 sec field1 field2 value1 value2 :
  split path1 = [sec; field1] -> split path2 = [sec; field2] ->
  array_index sec = None -> String.eqb sec "length" = false ->
  is_object (own (state sm) sec) = true ->
  String.eqb field1 "__proto__" = false -> String.eqb field2 "__proto__" = false ->
  exists tree1 tree2,
    setStateProperty path1 value1 sm = (Ret tt, after_write sm tree1) /\
    setStateProperty path2 value2 (after_write sm tree1)
    = (Ret tt, after_write (after_write sm tree1) tree2).
Proof.
  intros Hs1 Hs2 Hi Hl Hobj Hf1 Hf2.
  destruct (setter_once sm path1 sec field1 value1 Hs1 Hi Hl Hobj Hf1)
    as (tree1 & H1 & Hobj1 & _).
  destruct (setter_once (after_write sm tree1) path2 sec field2 value2 Hs2 Hi Hl Hobj1 Hf2)
    as (tree2 & H2 & _).
  exists tree1, tree2. split; assumption.
Qed.

(** C3, as the code has it: a setter persists and notifies once for each
    [setStateProperty] of its body, so once when it writes one field and
    twice when it writes two ([incrementObjectCount], [setCurrentLayerId],
    [setCurrentTool]); each cycle writes the snapshot once and calls each
    subscribed listener once. *)
Theorem setter_cycles (s : Setter) (sm : StateManager) :
  ready s (state sm) = true ->
  exists trees sm',
    call s sm = (Ret tt, sm') /\
    length trees = writes s /\
    wrote sm sm' trees /\
    persist_count (cycles (listeners sm) trees) = writes s /\
    (forall l,
       notify_count l (cycles (listeners sm) trees)
       = (writes s * count_occ Nat.eq_dec (listeners sm) l)%nat).
Proof.
  intros Hready. unfold ready in Hready.
  apply andb_true_iff in Hready as [Hobj Hextra].
  assert (Hcount : forall trees sm',
            call s sm = (Ret tt, sm') -> length trees = writes s ->
            wrote sm sm' trees ->
            exists trees sm',
              call s sm = (Ret tt, sm') /\ length trees = writes s /\
              wrote sm sm' trees /\
              persist_count (cycles (listeners sm) trees) = writes s /\
              (forall l, notify_count l (cycles (listeners sm) trees)
                         = (writes s * count_occ Nat.eq_dec (listeners sm) l)%nat)).
  { intros trees sm' Hcall Hlen Hw. exists trees, sm'.
    split; [exact Hcall|]. split; [exact Hlen|]. split; [exact Hw|].
    unfold cycles. rewrite persist_count_cycles. split; [exact Hlen|].
    intros l. rewrite notify_count_cycles, Hlen. reflexivity. }
  destruct s; simpl in Hobj, Hextra; simpl call.
  - destruct (setter_once sm "scene.currentCameraAngle" "scene" "currentCameraAngle"
                angle eq_refl eq_refl eq_refl Hobj eq_refl) as (tree & H & _).
    apply (Hcount [tree] _ H eq_refl (wrote_once _ _)).
  - destruct (setter_once sm "scene.cameraPosition" "scene" "cameraPosition"
                position eq_refl eq_refl eq_refl Hobj eq_refl) as (tree & H & _).
    apply (Hcount [tree] _ H eq_refl (wrote_once _ _)).
  - destruct (setter_once sm "scene.backgroundColor" "scene" "backgroundColor"
                color eq_refl eq_refl eq_refl Hobj eq_refl) as (tree & H & _).
    apply (Hcount [tree] _ H eq_refl (wrote_once _ _)).
  - destruct (setter_once sm "objects.selectedObjectId" "objects" "selectedObjectId"
                id eq_refl eq_refl eq_refl Hobj eq_refl) as (tree & H & _).
    apply (Hcount [tree] _ H eq_refl (wrote_once _ _)).
  - apply andb_true_iff in Hextra as [Hc Ht].
    destruct (js_add1_addable _ Hc) as (count1 & Hcount1).
    destruct (setter_once sm "objects.objectCount" "objects" "objectCount"
                count1 eq_refl eq_refl eq_refl Hobj eq_refl) as (tree1 & H1 & Hobj1 & Hkeep).
    rewrite <- (Hkeep "totalObjectsCreated") in Ht by discriminate.
    destruct (js_add1_addable _ Ht) as (total1 & Htotal1).
    destruct (setter_once (after_write sm tree1) "objects.totalObjectsCreated" "objects"
                "totalObjectsCreated" total1 eq_refl eq_refl eq_refl Hobj1 eq_refl)
      as (tree2 & H2 & _).
    apply (Hcount [tree1; tree2] (after_write (after_write sm tree1) tree2));
      [|reflexivity|apply wrote_twice].
    cbn [call]. unfold incrementObjectCount.
    rewrite (mthen_ret _ _ _ _ _ (getStateProperty_descend sm "objects.objectCount" eq_refl)).
    unfold lift at 1. simpl descend. unfold mthen at 1. rewrite Hcount1.
    rewrite (mthen_ret _ _ _ _ _ H1).
    rewrite (mthen_ret _ _ _ _ _ (getStateProperty_descend _ "objects.totalObjectsCreated" eq_refl)).
    unfold lift at 1. simpl descend. unfold mthen at 1. simpl state. rewrite Htotal1.
    exact H2.
  - destruct (setter_twice sm "layers.currentLayerId" "layers.lastActiveLayer" "layers"
                "currentLayerId" "lastActiveLayer" id id eq_refl eq_refl eq_refl eq_refl Hobj eq_refl eq_refl)
      as (tree1 & tree2 & H1 & H2).
    apply (Hcount [tree1; tree2] (after_write (after_write sm tree1) tree2));
      [|reflexivity|apply wrote_twice].
    cbn [call]. unfold setCurrentLayerId. rewrite (mthen_ret _ _ _ _ _ H1). exact H2.
  - destruct (js_add1_addable _ Hextra) as (count1 & Hcount1).
    destruct (setter_once sm "layers.layerCount" "layers" "layerCount"
                count1 eq_refl eq_refl eq_refl Hobj eq_refl) as (tree & H & _).
    apply (Hcount [tree] (after_write sm tree)); [|reflexivity|apply wrote_once].
    cbn [call]. unfold incrementLayerCount.
    rewrite (mthen_ret _ _ _ _ _ (getStateProperty_descend sm "layers.layerCount" eq_refl)).
    unfold lift at 1. simpl descend. unfold mthen at 1. rewrite Hcount1. exact H.
  - pose proof (split_panel panelName Hextra) as Hsplit.
    destruct (setter_once sm ("ui." +:+ panelName +:+ "Visible") "ui"
                (panelName +:+ "Visible")
                (VBool (negb (truthy (descend (state sm)
                                        (split ("ui." +:+ panelName +:+ "Visible"))))))
                Hsplit eq_refl eq_refl Hobj (proj2 (visible_not_inherited panelName)))
      as (tree & H & _).
    apply (Hcount [tree] (after_write sm tree)); [|reflexivity|apply wrote_once].
    cbn [call]. unfold togglePanelVisibility.
    rewrite (mthen_ret _ _ _ _ _
               (getStateProperty_descend sm _ (no_inherited_panel panelName Hextra))).
    exact H.
  - destruct (setter_once sm "ui.activeTab" "ui" "activeTab"
                tabName eq_refl eq_refl eq_refl Hobj eq_refl) as (tree & H & _).
    apply (Hcount [tree] _ H eq_refl (wrote_once _ _)).
  - destruct (setter_twice sm "tools.currentTool" "tools.lastUsedTool" "tools"
                "currentTool" "lastUsedTool" toolName toolName
                eq_refl eq_refl eq_refl eq_refl Hobj eq_refl eq_refl)
      as (tree1 & tree2 & H1 & H2).
    apply (Hcount [tree1; tree2] (after_write (after_write sm tree1) tree2));
      [|reflexivity|apply wrote_twice].
    cbn [call]. unfold setCurrentTool. rewrite (mthen_ret _ _ _ _ _ H1). exact H2.
  - destruct (setter_once sm "tools.snapToGrid" "tools" "snapToGrid"
                (VBool (negb (truthy (descend (state sm) (split "tools.snapToGrid")))))
                eq_refl eq_refl eq_refl Hobj eq_refl) as (tree & H & _).
    apply (Hcount [tree] (after_write sm tree)); [|reflexivity|apply wrote_once].
    cbn [call]. unfold toggleSnapToGrid.
    rewrite (mthen_ret _ _ _ _ _ (getStateProperty_descend sm "tools.snapToGrid" eq_refl)).
    exact H.
Qed.

(** C3, as it is claimed, fails: with one listener subscribed,
    [incrementObjectCount] on the default tree writes the snapshot twice
    and calls the listener twice. *)
Lemma incrementObjectCount_two_cycles :
  let sm := mkStateManager (getDefaultState "") [0%nat] [] in
  let r := incrementObjectCount sm in
  fst r = Ret tt /\
  persist_count (journal (snd r)) = 2%nat /\
  notify_count 0 (journal (snd r)) = 2%nat.
Proof. cbv zeta. split; [reflexivity|]. split; reflexivity. Qed.

(** *** The history *)

Lemma assoc_set_comm k k' v v' fs :
  k <> k' -> is_Some (assoc k fs) ->
  assoc_set k v (assoc_set k' v' fs) = assoc_set k' v' (assoc_set k v fs).
Proof.
  intros Hne. induction fs as [|[k0 v0] fs IH]; simpl; intros Hin.
  - destruct Hin as [x Hx]. discriminate.
  - destruct (String.eqb k k0) eqn:E, (String.eqb k' k0) eqn:E'; simpl.
    + apply String.eqb_eq in E, E'. congruence.
    + rewrite E. assert (String.eqb k' k = false) as ->
        by (apply String.eqb_neq; congruence).
      reflexivity.
    + rewrite E'. assert (String.eqb k k' = false) as ->
        by (apply String.eqb_neq; congruence).
      reflexivity.
    + rewrite E, E', IH by exact Hin. reflexivity.
Qed.

Lemma own_named v k x :
  array_index k = None -> String.eqb k "length" = false ->
  own v k = x -> x <> VUndefined ->
  exists fs, v = VObj fs /\ assoc k fs = Some x.
Proof.
  intros Hi Hl H Hx. destruct v as [| | | | s|es|fs]; simpl in H; try congruence.
  - rewrite Hi, Hl in H. congruence.
  - rewrite Hi, Hl in H. congruence.
  - exists fs. split; [reflexivity|].
    destruct (assoc k fs); simpl in H; congruence.
Qed.

(** A tree whose history holds a value under a field name is an object
    that holds an object under [history]. *)
Lemma history_shape tree field x :
  array_index field = None -> String.eqb field "length" = false ->
  history_field field tree = x -> x <> VUndefined ->
  exists fs0 hs,
    tree = VObj fs0 /\ assoc "history" fs0 = Some (VObj hs) /\
    assoc field hs = Some x.
Proof.
  intros Hi Hl H Hx. unfold history_field in H.
  destruct (own_named _ _ _ Hi Hl H Hx) as (hs & Hh & Hf).
  destruct (own_named tree "history" (VObj hs) eq_refl eq_refl Hh) as (fs0 & -> & Hs);
    [discriminate|].
  exists fs0, hs. auto.
Qed.

Lemma history_field_set fs0 hs field :
  history_field field (VObj (assoc_set "history" (VObj hs) fs0))
  = default VUndefined (assoc field hs).
Proof. unfold history_field. simpl. rewrite assoc_set_eq. reflexivity. Qed.

Lemma own_set_other fs0 h k :
  k <> "history" ->
  own (VObj (assoc_set "history" h fs0)) k = own (VObj fs0) k.
Proof. intros Hne. simpl. rewrite assoc_set_ne by congruence. reflexivity. Qed.

Lemma latest_evict {A} (n : nat) (log : list A) :
  (n < length log)%nat -> latest n (tail log) = latest n log.
Proof.
  intros H. unfold latest. destruct log as [|x log]; [reflexivity|].
  simpl in *. replace (S (length log) - n)%nat with (S (length log - n)) by lia.
  reflexivity.
Qed.

(** [addToHistory] on a tree whose history holds the log [u] and the
    bound [m]: the tree after, in closed form. *)
Lemma addToHistory_run sm fs0 hs u m action :
  state sm = VObj fs0 -> assoc "history" fs0 = Some (VObj hs) ->
  assoc "undoStack" hs = Some (VArr u) ->
  assoc "maxHistorySize" hs = Some (VNum m) ->
  let pushed := u ++ [action] in
  let kept := if Z.of_nat (length pushed) >? m then tail pushed else pushed in
  addToHistory action sm
  = (Ret tt,
     after_write sm
       (VObj (assoc_set "history"
                (VObj (assoc_set "redoStack" (VArr [])
                         (assoc_set "undoStack" (VArr kept) hs))) fs0))).
Proof.
  intros Hst Hh Hu Hm pushed kept.
  destruct sm as [st ls j]. simpl in Hst. subst st.
  unfold addToHistory.
  rewrite (mthen_ret _ _ _ _ _ (getStateProperty_descend _ "history" eq_refl)).
  simpl descend. rewrite Hh. simpl.
  unfold mthen at 1, lift at 1. simpl. rewrite Hu. simpl.
  unfold mthen at 1, lift at 1. simpl.
  unfold mthen at 1, alias_history at 1, modify. simpl.
  unfold mthen at 1, lift at 1. simpl.
  unfold mthen at 1, lift at 1. simpl.
  rewrite assoc_set_ne by discriminate. rewrite Hm. simpl.
  unfold mthen at 1, lift at 1. simpl.
  fold pushed.
  assert (Hkept :
    (if Z.of_nat (length pushed) >? m
     then VObj (assoc_set "undoStack" (VArr (tail pushed))
                  (assoc_set "undoStack" (VArr pushed) hs))
     else VObj (assoc_set "undoStack" (VArr pushed) hs))
    = VObj (assoc_set "undoStack" (VArr kept) hs)).
  { unfold kept. destruct (Z.of_nat (length pushed) >? m); [|reflexivity].
    rewrite assoc_set_set. reflexivity. }
  destruct (Z.of_nat (length pushed) >? m) eqn:Hover; simpl;
    unfold mthen at 1; simpl;
    unfold mthen at 1, alias_history at 1, modify; simpl;
    unfold mthen at 1, lift at 1; simpl;
    unfold mthen at 1, alias_history at 1, modify; simpl;
    rewrite updateState_after; unfold merge, after_write, kept; simpl;
    rewrite ?Hover, !assoc_set_set; reflexivity.
Qed.

(** C5: [addToHistory] appends the action to [undoStack]; when the log is
    then longer than [maxHistorySize] it drops the oldest entry, so that
    the most recent [maxHistorySize] entries stay, in order; it empties
    [redoStack] whatever it held; the rest of the tree stays, and the
    snapshot is written and the listeners are called once. *)
Theorem addToHistory_spec sm (u : list Value) (m : Z) (action : Value) :
  history_field "undoStack" (state sm) = VArr u ->
  history_field "maxHistorySize" (state sm) = VNum m ->
  let pushed := u ++ [action] in
  let kept := if Z.of_nat (length pushed) >? m then tail pushed else pushed in
  exists tree,
    addToHistory action sm = (Ret tt, after_write sm tree) /\
    history_field "undoStack" tree = VArr kept /\
    history_field "redoStack" tree = VArr [] /\
    history_field "maxHistorySize" tree = VNum m /\
    latest (Z.to_nat m) kept = latest (Z.to_nat m) pushed /\
    (forall k, k <> "history" -> own tree k = own (state sm) k).
Proof.
  intros Hu Hm pushed kept.
  destruct (history_shape (state sm) "undoStack" (VArr u) eq_refl eq_refl Hu)
    as (fs0 & hs & Hst & Hh & Hus); [discriminate|].
  destruct (history_shape (state sm) "maxHistorySize" (VNum m) eq_refl eq_refl Hm)
    as (fs0' & hs' & Hst' & Hh' & Hms); [discriminate|].
  assert (fs0' = fs0) as -> by congruence.
  assert (hs' = hs) as -> by congruence.
  eexists. split; [exact (addToHistory_run sm fs0 hs u m action Hst Hh Hus Hms)|].
  fold pushed. fold kept. rewrite !history_field_set.
  split; [|split; [|split; [|split]]].
  - rewrite assoc_set_ne by discriminate. rewrite assoc_set_eq. reflexivity.
  - rewrite assoc_set_eq. reflexivity.
  - rewrite !assoc_set_ne by discriminate. rewrite Hms. reflexivity.
  - unfold kept. destruct (Z.of_nat (length pushed) >? m) eqn:Hover; [|reflexivity].
    apply Z.gtb_lt in Hover. destruct (decide (0 <= m)) as [Hpos | Hneg].
    + apply latest_evict. lia.
    + unfold latest. replace (Z.to_nat m) with 0%nat by lia.
      rewrite !Nat.sub_0_r, !drop_all. reflexivity.
  - intros k Hk. rewrite own_set_other by exact Hk. rewrite Hst. reflexivity.
Qed.

Lemma pop_last (u : list Value) action :
  array_pop (VArr (u ++ [action])) = Ret (action, VArr u).
Proof. unfold array_pop. rewrite last_last, removelast_last. reflexivity. Qed.

Lemma length_snoc_gt (u : list Value) action :
  (Z.of_nat (length (u ++ [action])) >? 0) = true.
Proof. rewrite length_app. simpl. apply Z.gtb_lt. lia. Qed.

Lemma mthen_lift_ret {S A B} (a : A) (k : A -> Method S B) s :
  mthen (lift (Ret a)) k s = k a s.
Proof. reflexivity. Qed.

Lemma mthen_modify {S B} (f : S -> S) (k : unit -> Method S B) s :
  mthen (modify f) k s = k tt (f s).
Proof. reflexivity. Qed.

Lemma js_gt_snoc (u : list Value) action :
  js_gt (own (VArr (u ++ [action])) "length") (VNum 0) = Ret true.
Proof.
  unfold js_gt. change (own (VArr (u ++ [action])) "length")
    with (VNum (Z.of_nat (length (u ++ [action])))).
  cbn [to_number]. rewrite length_snoc_gt. reflexivity.
Qed.

(** [undo] on a tree whose history holds a log that ends in [action]. *)
Lemma undo_run sm fs0 hs u action r :
  state sm = VObj fs0 -> assoc "history" fs0 = Some (VObj hs) ->
  assoc "undoStack" hs = Some (VArr (u ++ [action])) ->
  assoc "redoStack" hs = Some (VArr r) ->
  undo sm
  = (Ret action,
     after_write sm
       (VObj (assoc_set "history"
                (moved "undoStack" "redoStack" u (r ++ [action]) hs) fs0))).
Proof.
  intros Hst Hh Hu Hr. destruct sm as [st ls j]. cbn [state] in Hst. subst st.
  unfold undo.
  rewrite (mthen_ret _ _ _ _ _ (getStateProperty_descend _ "history" eq_refl)).
  assert (Hd : descend (VObj fs0) (split "history") = VObj hs)
    by (cbn; rewrite Hh; reflexivity).
  cbn [state]. rewrite Hd.
  rewrite (get_member_field hs "undoStack" _ Hu), mthen_lift_ret.
  change (get_member (VArr (u ++ [action])) "length")
    with (Ret (own (VArr (u ++ [action])) "length")).
  rewrite mthen_lift_ret, js_gt_snoc, mthen_lift_ret.
  rewrite pop_last, mthen_lift_ret. cbv zeta. cbn [fst snd put_own].
  unfold alias_history. rewrite mthen_modify.
  rewrite (get_member_field _ "redoStack" (VArr r)), mthen_lift_ret
    by (rewrite assoc_set_ne by discriminate; exact Hr).
  cbn [array_push]. rewrite mthen_lift_ret, mthen_modify.
  unfold mthen at 1. rewrite updateState_after.
  unfold mreturn, merge, after_write, set_state, moved.
  cbn [state listeners journal put_own spread fold_left fst snd].
  rewrite !assoc_set_set. reflexivity.
Qed.

(** [redo] on a tree whose history holds a redo log that ends in [action]. *)
Lemma redo_run sm fs0 hs u action r :
  state sm = VObj fs0 -> assoc "history" fs0 = Some (VObj hs) ->
  assoc "undoStack" hs = Some (VArr u) ->
  assoc "redoStack" hs = Some (VArr (r ++ [action])) ->
  redo sm
  = (Ret action,
     after_write sm
       (VObj (assoc_set "history"
                (moved "redoStack" "undoStack" r (u ++ [action]) hs) fs0))).
Proof.
  intros Hst Hh Hu Hr. destruct sm as [st ls j]. cbn [state] in Hst. subst st.
  unfold redo.
  rewrite (mthen_ret _ _ _ _ _ (getStateProperty_descend _ "history" eq_refl)).
  assert (Hd : descend (VObj fs0) (split "history") = VObj hs)
    by (cbn; rewrite Hh; reflexivity).
  cbn [state]. rewrite Hd.
  rewrite (get_member_field hs "redoStack" _ Hr), mthen_lift_ret.
  change (get_member (VArr (r ++ [action])) "length")
    with (Ret (own (VArr (r ++ [action])) "length")).
  rewrite mthen_lift_ret, js_gt_snoc, mthen_lift_ret.
  rewrite pop_last, mthen_lift_ret. cbv zeta. cbn [fst snd put_own].
  unfold alias_history. rewrite mthen_modify.
  rewrite (get_member_field _ "undoStack" (VArr u)), mthen_lift_ret
    by (rewrite assoc_set_ne by discriminate; exact Hu).
  cbn [array_push]. rewrite mthen_lift_ret, mthen_modify.
  unfold mthen at 1. rewrite updateState_after.
  unfold mreturn, merge, after_write, set_state, moved.
  cbn [state listeners journal put_own spread fold_left fst snd].
  rewrite !assoc_set_set. reflexivity.
Qed.

(** On an empty log [undo] and [redo] answer [null] and touch nothing. *)
Lemma undo_empty sm :
  history_field "undoStack" (state sm) = VArr [] -> undo sm = (Ret VNull, sm).
Proof.
  intros Hu.
  destruct (history_shape (state sm) "undoStack" (VArr []) eq_refl eq_refl Hu)
    as (fs0 & hs & Hst & Hh & Hus); [discriminate|].
  destruct sm as [st ls j]. simpl in Hst. subst st.
  unfold undo.
  rewrite (mthen_ret _ _ _ _ _ (getStateProperty_descend _ "history" eq_refl)).
  simpl descend. rewrite Hh. simpl.
  unfold mthen at 1, lift at 1. simpl. rewrite Hus. reflexivity.
Qed.

Lemma redo_empty sm :
  history_field "redoStack" (state sm) = VArr [] -> redo sm = (Ret VNull, sm).
Proof.
  intros Hr.
  destruct (history_shape (state sm) "redoStack" (VArr []) eq_refl eq_refl Hr)
    as (fs0 & hs & Hst & Hh & Hrs); [discriminate|].
  destruct sm as [st ls j]. simpl in Hst. subst st.
  unfold redo.
  rewrite (mthen_ret _ _ _ _ _ (getStateProperty_descend _ "history" eq_refl)).
  simpl descend. rewrite Hh. simpl.
  unfold mthen at 1, lift at 1. simpl. rewrite Hrs. reflexivity.
Qed.

(** C6: on a log that ends in [action], [undo] takes [action] off
    [undoStack], puts it on [redoStack] and answers it; [redo] right after
    answers it again and leaves the tree, and so both stacks, as they were
    before the [undo].  On an empty [undoStack] [undo] answers [null] and
    changes nothing, and so does [redo] on an empty [redoStack]. *)
Theorem undo_then_redo (sm : StateManager) :
  (history_field "undoStack" (state sm) = VArr [] -> undo sm = (Ret VNull, sm)) /\
  (history_field "redoStack" (state sm) = VArr [] -> redo sm = (Ret VNull, sm)) /\
  (forall u action r,
     history_field "undoStack" (state sm) = VArr (u ++ [action]) ->
     history_field "redoStack" (state sm) = VArr r ->
     exists tree,
       undo sm = (Ret action, after_write sm tree) /\
       history_field "undoStack" tree = VArr u /\
       history_field "redoStack" tree = VArr (r ++ [action]) /\
       (forall k, k <> "history" -> own tree k = own (state sm) k) /\
       redo (after_write sm tree)
       = (Ret action, after_write (after_write sm tree) (state sm))).
Proof.
  split; [apply undo_empty|]. split; [apply redo_empty|].
  intros u action r Hu Hr.
  destruct (history_shape (state sm) "undoStack" _ eq_refl eq_refl Hu)
    as (fs0 & hs & Hst & Hh & Hus); [discriminate|].
  destruct (history_shape (state sm) "redoStack" _ eq_refl eq_refl Hr)
    as (fs0' & hs' & Hst' & Hh' & Hrs); [discriminate|].
  assert (fs0' = fs0) as -> by congruence.
  assert (hs' = hs) as -> by congruence.
  eexists. split; [exact (undo_run sm fs0 hs u action r Hst Hh Hus Hrs)|].
  unfold moved. rewrite !history_field_set.
  split; [|split; [|split]].
  - rewrite assoc_set_ne by discriminate. rewrite assoc_set_eq. reflexivity.
  - rewrite assoc_set_eq. reflexivity.
  - intros k Hk. rewrite own_set_other by exact Hk. rewrite Hst. reflexivity.
  - set (hs1 := assoc_set "redoStack" (VArr (r ++ [action]))
                  (assoc_set "undoStack" (VArr u) hs)).
    set (fs1 := assoc_set "history" (VObj hs1) fs0).
    rewrite (redo_run (after_write sm (VObj fs1)) fs1 hs1 u action r).
    + f_equal. f_equal. rewrite Hst. f_equal. unfold moved, fs1, hs1.
      rewrite assoc_set_set, assoc_set_set.
      rewrite (assoc_set_comm "undoStack" "redoStack")
        by (try discriminate; rewrite assoc_set_eq; eauto).
      rewrite assoc_set_set.
      rewrite (assoc_set_same "undoStack" _ hs Hus).
      rewrite (assoc_set_same "redoStack" _ hs Hrs).
      apply assoc_set_same. exact Hh.
    + reflexivity.
    + unfold fs1. apply assoc_set_eq.
    + unfold hs1. rewrite assoc_set_ne by discriminate. apply assoc_set_eq.
    + unfold hs1. apply assoc_set_eq.
Qed.

(** *** Scenarios *)

(** The scenario of the specification: after
    [setStateProperty('scene.currentCameraAngle', 90)] the path reads 90,
    and a listener subscribed before received the tree once. *)
Example scenario_camera_angle :
  let sm0 := snd (subscribe 0 (constructor "" None)) in
  let r := setStateProperty "scene.currentCameraAngle" (VNum 90) sm0 in
  fst r = Ret tt /\
  fst (getStateProperty "scene.currentCameraAngle" (snd r)) = Ret (VNum 90) /\
  journal (snd r) = [Persisted (state (snd r)); Notified 0 (state (snd r))].
Proof. cbv zeta. repeat split; reflexivity. Qed.


(** *** The theorems at work *)

Lemma getStateProperty_total_witness :
  let sm := constructor "" None in
  plain (state sm) (split "scene.nothing.deep") = true /\
  getStateProperty "scene.nothing.deep" sm = (Ret VUndefined, sm) /\
  split "scene.nothing.deep" = ["scene"] ++ "nothing" :: ["deep"] /\
  own (descend (state sm) ["scene"]) "nothing" = VUndefined /\
  descend (state sm) (split "scene.nothing.deep") = VUndefined.
Proof.
  cbv zeta.
  destruct (getStateProperty_total (constructor "" None) "scene.nothing.deep" eq_refl)
    as (Hread & Hmissing & _).
  split; [reflexivity|]. split; [exact Hread|].
  split; [reflexivity|]. split; [reflexivity|].
  apply (Hmissing ["scene"] "nothing" ["deep"]); reflexivity.
Defined.

Lemma setter_cycles_witness :
  let sm := mkStateManager (getDefaultState "") [0%nat; 1%nat] [] in
  ready IncrementObjectCount (state sm) = true /\
  exists trees sm',
    call IncrementObjectCount sm = (Ret tt, sm') /\
    length trees = writes IncrementObjectCount /\
    wrote sm sm' trees /\
    persist_count (cycles (listeners sm) trees) = writes IncrementObjectCount /\
    (forall l,
       notify_count l (cycles (listeners sm) trees)
       = (writes IncrementObjectCount * count_occ Nat.eq_dec (listeners sm) l)%nat).
Proof.
  cbv zeta. split; [reflexivity|].
  apply (setter_cycles IncrementObjectCount
           (mkStateManager (getDefaultState "") [0%nat; 1%nat] [])).
  reflexivity.
Defined.

Lemma addToHistory_spec_witness :
  let sm := constructor "" None in
  let action := VObj [("action", VStr "add_layer")] in
  history_field "undoStack" (state sm) = VArr [] /\
  history_field "maxHistorySize" (state sm) = VNum 50 /\
  exists tree,
    addToHistory action sm = (Ret tt, after_write sm tree) /\
    history_field "undoStack" tree = VArr [action] /\
    history_field "redoStack" tree = VArr [] /\
    history_field "maxHistorySize" tree = VNum 50 /\
    latest (Z.to_nat 50) [action] = latest (Z.to_nat 50) ([] ++ [action]) /\
    (forall k, k <> "history" -> own tree k = own (state sm) k).
Proof.
  cbv zeta. split; [reflexivity|]. split; [reflexivity|].
  apply (addToHistory_spec (constructor "" None) [] 50
           (VObj [("action", VStr "add_layer")])); reflexivity.
Defined.

Lemma undo_then_redo_witness :
  let action := VObj [("action", VStr "add_layer")] in
  let sm := snd (addToHistory action (constructor "" None)) in
  history_field "undoStack" (state sm) = VArr ([] ++ [action]) /\
  history_field "redoStack" (state sm) = VArr [] /\
  exists tree,
    undo sm = (Ret action, after_write sm tree) /\
    history_field "undoStack" tree = VArr [] /\
    history_field "redoStack" tree = VArr ([] ++ [action]) /\
    (forall k, k <> "history" -> own tree k = own (state sm) k) /\
    redo (after_write sm tree)
    = (Ret action, after_write (after_write sm tree) (state sm)).
Proof.
  cbv zeta. split; [reflexivity|]. split; [reflexivity|].
  apply (proj2 (proj2 (undo_then_redo
                         (snd (addToHistory (VObj [("action", VStr "add_layer")])
                                 (constructor "" None)))))
           [] (VObj [("action", VStr "add_layer")]) []); reflexivity.
Defined.

End StateManagerFacts.

(** ** More of the layer manager *)

Module LayerManagerMore.
Import LayerManager LayerManagerCalls LayerManagerSamples LayerManagerFacts.

(** *** Reordering by one position *)

Lemma set_layers_back lm (ls ls' : list Layer) :
  layers lm = Some <$> ls ->
  set_layers (fun _ => Some <$> ls) (set_layers (fun _ => Some <$> ls') lm) = lm.
Proof. intros H. destruct lm as [l0 p c n]. simpl in H. subst l0. reflexivity. Qed.

(** X1: a layer that [moveLayerUp] moved is put back by [moveLayerDown] of
    the same id, and a layer that [moveLayerDown] moved is put back by
    [moveLayerUp], provided the neighbour it passed has another id: the
    store is then exactly what it was. *)
Theorem move_up_down_round_trip lm (pre : list Layer) a b post :
  layers lm = Some <$> (pre ++ a :: b :: post) ->
  (Forall (fun l => id l <> id b) (pre ++ [a]) ->
   exists lm1,
     moveLayerUp (id b) lm = (Ret true, lm1) /\
     moveLayerDown (id b) lm1 = (Ret true, lm)) /\
  (Forall (fun l => id l <> id a) (pre ++ [b]) ->
   exists lm1,
     moveLayerDown (id a) lm = (Ret true, lm1) /\
     moveLayerUp (id a) lm1 = (Ret true, lm)).
Proof.
  intros Hls. split; intros Habs.
  - eexists. split; [exact (moveLayerUp_swap lm pre a b post Hls Habs)|].
    apply Forall_app in Habs as [Hpre _].
    rewrite (moveLayerDown_swap _ pre b a post); [|reflexivity|exact Hpre].
    f_equal. apply set_layers_back. exact Hls.
  - pose proof Habs as Habs'. apply Forall_app in Habs' as [Hpre _].
    eexists. split; [exact (moveLayerDown_swap lm pre a b post Hls Hpre)|].
    rewrite (moveLayerUp_swap _ pre b a post); [|reflexivity|exact Habs].
    f_equal. apply set_layers_back. exact Hls.
Qed.

(** *** Removing a layer *)

(** X2: on an array that holds layers, [removeLayer] succeeds exactly when
    the store has at least two layers and one of them has the id.  It then
    takes out the first layer with the id together with its objects: the
    other layers keep theirs and none is moved to another layer.  In every
    other case it answers false and changes nothing. *)
Theorem removeLayer_when lm (ls : list Layer) (layerId : Z) :
  layers lm = Some <$> ls ->
  ((2 <= length ls)%nat /\ layerId ∈ id <$> ls ->
   exists pre l post lm',
     ls = pre ++ l :: post /\ Forall (fun x => id x <> layerId) pre /\
     id l = layerId /\
     removeLayer layerId lm = (Ret true, lm') /\
     layers lm' = Some <$> (pre ++ post) /\
     getAllObjects lm' = (Ret ((pre ++ post) ≫= objects), lm')) /\
  (~ ((2 <= length ls)%nat /\ layerId ∈ id <$> ls) ->
   removeLayer layerId lm = (Ret false, lm)).
Proof.
  intros Hls. split.
  - intros [Hlen Hin].
    destruct (id_split layerId ls) as [Habs | (pre & l & post & -> & Hpre & Hl)].
    { exfalso. apply list_elem_of_fmap in Hin as (x & -> & Hx).
      rewrite Forall_forall in Habs. exact (Habs x Hx eq_refl). }
    subst layerId.
    destruct (removeLayer_found lm pre l post Hls Hlen Hpre)
      as (lm' & Hr & Hl' & _).
    exists pre, l, post, lm'. repeat split; try assumption.
    unfold getAllObjects. rewrite Hl', flatMap_objects_defined. reflexivity.
  - intros Hnot.
    destruct (decide (length (layers lm) <= 1)%nat) as [Hshort | Hlong].
    { exact (removeLayer_sole lm layerId Hshort). }
    destruct (id_split layerId ls) as [Habs | (pre & l & post & -> & Hpre & Hl)].
    { exact (removeLayer_absent lm ls layerId Hls Habs). }
    exfalso. apply Hnot. rewrite Hls, length_fmap in Hlong. split; [lia|].
    rewrite fmap_app, fmap_cons, Hl. apply elem_of_app. right. apply list_elem_of_here.
Qed.

(** *** Writes to one layer *)

Lemma mthen_update_found {B} lm layerId f (g : option Layer -> B) :
  mthen (update_found layerId f) (fun r => mreturn (g r)) lm
  = (fmap (M := Outcome) g (fst (update_found layerId f lm)),
     snd (update_found layerId f lm)).
Proof.
  unfold mthen, mreturn. destruct (update_found layerId f lm) as [[r| |] lm']; reflexivity.
Qed.

(** X3: on an array that holds layers, [renameLayer] answers false and
    changes nothing for an id that no layer has; otherwise it gives the
    new name to the first layer with the id, answers true, and leaves the
    id, the flag and the objects of that layer and all the rest of the
    store as they were, so that a second rename overwrites the first. *)
Theorem renameLayer_behaviour lm (ls : list Layer) (layerId : Z) (newName : string) :
  layers lm = Some <$> ls ->
  (Forall (fun l => id l <> layerId) ls ->
   renameLayer layerId newName lm = (Ret false, lm)) /\
  (forall pre l post,
     ls = pre ++ l :: post -> Forall (fun x => id x <> layerId) pre ->
     id l = layerId ->
     renameLayer layerId newName lm
     = (Ret true, set_layers (fun _ => Some <$> (pre ++ set_name newName l :: post)) lm) /\
     forall other,
       snd (renameLayer layerId newName (snd (renameLayer layerId other lm)))
       = snd (renameLayer layerId newName lm)).
Proof.
  intros Hls. split.
  - intros Habs. unfold renameLayer. rewrite mthen_update_found.
    rewrite (update_found_absent lm ls layerId _ Hls Habs). reflexivity.
  - intros pre l post -> Hpre <-.
    assert (Hone : forall n lm0,
              layers lm0 = Some <$> (pre ++ l :: post) ->
              renameLayer (id l) n lm0
              = (Ret true, set_layers (fun _ => Some <$> (pre ++ set_name n l :: post)) lm0)).
    { intros n lm0 H0. unfold renameLayer. rewrite mthen_update_found.
      rewrite (update_found_first lm0 pre l post _ H0 Hpre). reflexivity. }
    split; [exact (Hone newName lm Hls)|].
    intros other. rewrite (Hone other lm Hls), (Hone newName lm Hls). simpl.
    unfold renameLayer. rewrite mthen_update_found.
    rewrite (update_found_first _ pre (set_name other l) post); [|reflexivity|exact Hpre].
    simpl. destruct lm; reflexivity.
Qed.

(** X4: on an array that holds layers, [toggleLayerVisibility] answers
    [null] and changes nothing for an id that no layer has; otherwise it
    flips the flag of the first layer with the id and answers the new
    flag, and a second call answers the old flag and leaves the store
    exactly as it was before the first. *)
Theorem toggleLayerVisibility_twice lm (ls : list Layer) (layerId : Z) :
  layers lm = Some <$> ls ->
  (Forall (fun l => id l <> layerId) ls ->
   toggleLayerVisibility layerId lm = (Ret None, lm)) /\
  (forall pre l post,
     ls = pre ++ l :: post -> Forall (fun x => id x <> layerId) pre ->
     id l = layerId ->
     exists lm1,
       toggleLayerVisibility layerId lm = (Ret (Some (negb (visible l))), lm1) /\
       layers lm1 = Some <$> (pre ++ set_visible (negb (visible l)) l :: post) /\
       toggleLayerVisibility layerId lm1 = (Ret (Some (visible l)), lm)).
Proof.
  intros Hls. split.
  - intros Habs. unfold toggleLayerVisibility. rewrite mthen_update_found.
    rewrite (update_found_absent lm ls layerId _ Hls Habs). reflexivity.
  - intros pre l post -> Hpre <-. eexists. split; [|split].
    + unfold toggleLayerVisibility. rewrite mthen_update_found.
      rewrite (update_found_first lm pre l post _ Hls Hpre). reflexivity.
    + reflexivity.
    + unfold toggleLayerVisibility. rewrite mthen_update_found.
      rewrite (update_found_first _ pre (set_visible (negb (visible l)) l) post);
        [|reflexivity|exact Hpre].
      simpl. rewrite negb_involutive. f_equal.
      destruct lm as [l0 p c n], l as [i nm v os]. simpl in *. subst l0. reflexivity.
Qed.

(** *** Objects *)

Lemma getObjectsInLayer_found lm (pre : list Layer) l post :
  layers lm = Some <$> (pre ++ l :: post) ->
  Forall (fun x => id x <> id l) pre ->
  getObjectsInLayer (id l) lm = (Ret (objects l), lm).
Proof.
  intros Hls Hpre. unfold getObjectsInLayer, find. rewrite Hls.
  rewrite (js_find_first _ 0 pre l post (has_id_false _ _ Hpre))
    by (apply bool_decide_eq_true_2; reflexivity).
  reflexivity.
Qed.

Lemma addObjectToCurrentLayer_found lm (pre : list Layer) l post object :
  layers lm = Some <$> (pre ++ l :: post) ->
  Forall (fun x => id x <> id l) pre -> currentLayerId lm = id l ->
  addObjectToCurrentLayer object lm
  = (Ret true,
     set_layers
       (fun _ => Some <$> (pre ++ set_objects (objects l ++ [object]) l :: post)) lm).
Proof.
  intros Hls Hpre Hcur. unfold addObjectToCurrentLayer. rewrite Hls, Hcur.
  rewrite (js_find_first _ 0 pre l post (has_id_false _ _ Hpre))
    by (apply bool_decide_eq_true_2; reflexivity).
  simpl. destruct lm as [l0 p c n]. simpl in *. subst l0.
  unfold set_layers. simpl. rewrite insert_found. reflexivity.
Qed.

(** X5: on an array that holds layers, [setCurrentLayer] answers false and
    changes nothing for an id that no layer has; otherwise it answers true
    and makes the id current, and [addObjectToCurrentLayer] right after it
    answers true and appends the object to the objects of the first layer
    with that id, which [getObjectsInLayer] then returns with the object
    last. *)
Theorem setCurrentLayer_then_addObject lm (ls : list Layer) (layerId : Z)
    (object : Object3D) :
  layers lm = Some <$> ls ->
  (Forall (fun l => id l <> layerId) ls ->
   setCurrentLayer layerId lm = (Ret false, lm)) /\
  (forall pre l post,
     ls = pre ++ l :: post -> Forall (fun x => id x <> layerId) pre ->
     id l = layerId ->
     exists lm2,
       setCurrentLayer layerId lm = (Ret true, set_currentLayerId layerId lm) /\
       addObjectToCurrentLayer object (set_currentLayerId layerId lm) = (Ret true, lm2) /\
       layers lm2
       = Some <$> (pre ++ set_objects (objects l ++ [object]) l :: post) /\
       getObjectsInLayer layerId lm2 = (Ret (objects l ++ [object]), lm2)).
Proof.
  intros Hls. split.
  - intros Habs. unfold setCurrentLayer, find.
    rewrite Hls, (js_find_absent _ _ _ (has_id_false _ _ Habs)). reflexivity.
  - intros pre l post -> Hpre <-. eexists. split; [|split; [|split]].
    + unfold setCurrentLayer, find. rewrite Hls.
      rewrite (js_find_first _ 0 pre l post (has_id_false _ _ Hpre))
        by (apply bool_decide_eq_true_2; reflexivity).
      reflexivity.
    + apply (addObjectToCurrentLayer_found _ pre l post object); [exact Hls|exact Hpre|reflexivity].
    + reflexivity.
    + apply (getObjectsInLayer_found _ pre (set_objects (objects l ++ [object]) l) post);
        [reflexivity|exact Hpre].
Qed.

Lemma set_objects_back (l : Layer) os : set_objects (objects l) (set_objects os l) = l.
Proof. destruct l; reflexivity. Qed.

(** X6: when no layer holds an object with the identity of [object] and
    [currentLayerId] names a layer, [addObjectToCurrentLayer] followed by
    [removeObjectFromLayer] of the same object answers true twice and
    leaves the store exactly as it was. *)
Theorem add_then_remove_object lm (ls : list Layer) (object : Object3D) :
  layers lm = Some <$> ls ->
  currentLayerId lm ∈ id <$> ls ->
  held_nowhere object ls ->
  exists lm1,
    addObjectToCurrentLayer object lm = (Ret true, lm1) /\
    removeObjectFromLayer object lm1 = (Ret true, lm).
Proof.
  intros Hls Hcur Hnone.
  destruct (id_split (currentLayerId lm) ls) as [Habs | (pre & l & post & -> & Hpre & Hl)].
  { exfalso. apply list_elem_of_fmap in Hcur as (x & Hx & Hin).
    rewrite Forall_forall in Habs. exact (Habs x Hin (eq_sym Hx)). }
  rewrite <- Hl in Hpre.
  eexists. split.
  { apply (addObjectToCurrentLayer_found lm pre l post object Hls Hpre). congruence. }
  unfold removeObjectFromLayer. cbn [layers set_layers].
  apply Forall_app in Hnone as [Hnpre Hnl]. apply Forall_cons in Hnl as [Hnl Hnpost].
  rewrite (removeObject_loop_first object _ (pre ++ l :: post)).
  - rewrite <- Hls. f_equal. destruct lm; reflexivity.
  - exists pre, (set_objects (objects l ++ [object]) l), post, (objects l), object, [].
    split; [reflexivity|]. split; [exact Hnpre|]. split; [reflexivity|].
    split; [exact Hnl|]. split; [reflexivity|].
    rewrite app_nil_r, set_objects_back. reflexivity.
Qed.

(** X7: on an array that holds layers, [moveObjectToLayer] to an id that a
    layer has always answers true: it first takes the object out of the
    first layer that holds one of its identity, if any does, and then
    appends it to the objects of the first layer with the target id. *)
Theorem moveObjectToLayer_known_target lm (ls : list Layer) (object : Object3D)
    (targetLayerId : Z) :
  layers lm = Some <$> ls ->
  targetLayerId ∈ id <$> ls ->
  exists ls1 pre target post,
    (held_nowhere object ls /\ ls1 = ls \/ first_held object ls ls1) /\
    ls1 = pre ++ target :: post /\
    Forall (fun x => id x <> targetLayerId) pre /\ id target = targetLayerId /\
    moveObjectToLayer object targetLayerId lm
    = (Ret true,
       set_layers
         (fun _ => Some <$> (pre ++ set_objects (objects target ++ [object]) target
                                 :: post)) lm).
Proof.
  intros Hls Hin.
  assert (Hstep : forall ls1 lm1,
            layers lm1 = Some <$> ls1 -> id <$> ls1 = id <$> ls ->
            exists pre target post,
              ls1 = pre ++ target :: post /\
              Forall (fun x => id x <> targetLayerId) pre /\ id target = targetLayerId /\
              (fun lm0 =>
                 match js_find (fun layer => bool_decide (id layer = targetLayerId))
                         0%nat (layers lm0) with
                 | Ret (Some (i, targetLayer)) =>
                     (Ret true,
                      set_layers
                        (fun ls0 => <[i := Some (set_objects (objects targetLayer ++ [object])
                                                  targetLayer)]> ls0) lm0)
                 | Ret None => (Ret false, lm0)
                 | Throw => (Throw, lm0)
                 | Beyond => (Beyond, lm0)
                 end) lm1
              = (Ret true,
                 set_layers
                   (fun _ => Some <$> (pre ++ set_objects (objects target ++ [object]) target
                                           :: post)) lm1)).
  { intros ls1 lm1 H1 Hids.
    destruct (id_split targetLayerId ls1) as [Habs | (pre & t & post & -> & Hpre & Ht)].
    { exfalso. rewrite <- Hids in Hin. apply list_elem_of_fmap in Hin as (x & -> & Hx).
      rewrite Forall_forall in Habs. exact (Habs x Hx eq_refl). }
    exists pre, t, post. split; [reflexivity|]. split; [exact Hpre|]. split; [exact Ht|].
    cbv beta. rewrite H1.
    rewrite (js_find_first _ 0 pre t post (has_id_false _ _ Hpre))
      by (apply bool_decide_eq_true_2; exact Ht).
    destruct lm1 as [l0 p c n]. simpl in *. subst l0.
    unfold set_layers. simpl. rewrite insert_found. reflexivity. }
  unfold moveObjectToLayer, mthen.
  destruct (removeObjectFromLayer_spec lm ls object Hls) as [[Hn Hr] | (ls1 & Hf & Hr)];
    rewrite Hr.
  - destruct (Hstep ls lm Hls eq_refl) as (pre & t & post & Heq & Hpre & Ht & Hrun).
    exists ls, pre, t, post. split; [left; auto|]. split; [exact Heq|].
    split; [exact Hpre|]. split; [exact Ht|]. exact Hrun.
  - destruct (Hstep ls1 (set_layers (fun _ => Some <$> ls1) lm) eq_refl
                (first_held_ids _ _ _ Hf))
      as (pre & t & post & Heq & Hpre & Ht & Hrun).
    exists ls1, pre, t, post. split; [right; exact Hf|]. split; [exact Heq|].
    split; [exact Hpre|]. split; [exact Ht|]. exact Hrun.
Qed.

(** *** The order of the comparator-less sort *)

Lemma ascii_compare_trans_lt (a b c : ascii) :
  Ascii.compare a b = Lt -> Ascii.compare b c = Lt -> Ascii.compare a c = Lt.
Proof.
  unfold Ascii.compare. rewrite !N.compare_lt_iff. lia.
Qed.

Lemma string_compare_trans_lt (s1 s2 s3 : string) :
  String.compare s1 s2 = Lt -> String.compare s2 s3 = Lt ->
  String.compare s1 s3 = Lt.
Proof.
  revert s2 s3. induction s1 as [|c1 s1 IH]; intros [|c2 s2] [|c3 s3]; simpl;
    try congruence.
  destruct (Ascii.compare c1 c2) eqn:H12; try discriminate;
    destruct (Ascii.compare c2 c3) eqn:H23; try discriminate; intros Ha Hb.
  - apply Ascii.compare_eq_iff in H12, H23. subst c2 c3.
    assert (Hrefl : Ascii.compare c1 c1 = Eq)
      by (unfold Ascii.compare; apply N.compare_refl).
    rewrite Hrefl. exact (IH _ _ Ha Hb).
  - apply Ascii.compare_eq_iff in H12. subst c2. rewrite H23. reflexivity.
  - apply Ascii.compare_eq_iff in H23. subst c3. rewrite H12. reflexivity.
  - rewrite (ascii_compare_trans_lt _ _ _ H12 H23). reflexivity.
Qed.

Lemma string_leb_trans (s1 s2 s3 : string) :
  String.leb s1 s2 = true -> String.leb s2 s3 = true -> String.leb s1 s3 = true.
Proof.
  unfold String.leb.
  destruct (String.compare s1 s2) eqn:H12; try discriminate; intros _.
  - apply String.compare_eq_iff in H12. subst s2. trivial.
  - destruct (String.compare s2 s3) eqn:H23; try discriminate; intros _.
    + apply String.compare_eq_iff in H23. subst s3. rewrite H12. reflexivity.
    + rewrite (string_compare_trans_lt _ _ _ H12 H23). reflexivity.
Qed.

Lemma pretty_N_go_not_NaN (x : N) (s : string) :
  s <> "NaN" -> pretty_N_go x s <> "NaN".
Proof.
  revert s. induction (N.lt_wf_0 x) as [x _ IH]; intros s Hs.
  destruct (decide (x = 0)%N) as [->|Hx].
  - rewrite pretty_N_go_0. exact Hs.
  - rewrite pretty_N_go_step by lia. apply IH.
    + apply N.div_lt; lia.
    + unfold pretty_N_char. repeat case_match; discriminate.
Qed.

Lemma number_string_inj (a b : option Z) :
  number_string a = number_string b -> a = b.
Proof.
  assert (Hnan : forall z : Z, pretty z <> "NaN").
  { intros [|p|p]; unfold pretty, pretty_Z, pretty, pretty_positive, pretty, pretty_N.
    - discriminate.
    - rewrite decide_False by discriminate. apply pretty_N_go_not_NaN. discriminate.
    - rewrite decide_False by discriminate.
      change ("-" +:+ ?s) with (String "-" s). discriminate. }
  destruct a as [x|], b as [y|]; simpl; intros H.
  - f_equal. exact (pretty_Z_inj _ _ H).
  - destruct (Hnan x H).
  - destruct (Hnan y (eq_sym H)).
  - reflexivity.
Qed.

Lemma sort_le_total : Total sort_le.
Proof. intros a b. apply String.leb_total. Qed.

Lemma sort_le_trans : Transitive sort_le.
Proof. intros a b c. apply string_leb_trans. Qed.

Lemma sort_le_antisym : AntiSymm (=) sort_le.
Proof.
  intros a b Hab Hba. apply number_string_inj. exact (String.leb_antisym _ _ Hab Hba).
Qed.

Lemma Permutation_sort_eq (a b : list (option Z)) : a ≡ₚ b -> sort a = sort b.
Proof.
  intros H. unfold sort.
  apply (@Sorted_unique _ sort_le sort_le_trans sort_le_antisym).
  - apply (@Sorted_merge_sort _ sort_le _ sort_le_total).
  - apply (@Sorted_merge_sort _ sort_le _ sort_le_total).
  - rewrite !merge_sort_Permutation. exact H.
Qed.

Lemma map_find_elements (ls : list Layer) (ids' : list Z) (ls' : list Layer) :
  map_find (Some <$> ls) (Some <$> ids') = Ret (Some <$> ls') ->
  Forall (fun l => l ∈ ls) ls'.
Proof.
  revert ls'. induction ids' as [|z ids' IH]; intros ls'.
  - simpl. intros [= H]. destruct ls'; [constructor | discriminate].
  - rewrite fmap_cons. cbn [map_find]. unfold find.
    destruct (first_split (fun layer => bool_decide (Some (id layer) = Some z)) ls)
      as [Hall | (pre & l & post & Heq & Hpre & Hl)].
    + rewrite (js_find_absent _ _ _ Hall).
      destruct (map_find (Some <$> ls) (Some <$> ids')); simpl; try discriminate.
      intros [= H]. destruct ls'; discriminate.
    + rewrite Heq at 1. rewrite (js_find_first _ 0 pre l post Hpre Hl).
      destruct (map_find (Some <$> ls) (Some <$> ids')) as [found| |] eqn:Hm;
        simpl; try discriminate.
      intros [= H]. destruct ls' as [|l' ls']; [discriminate|].
      rewrite fmap_cons in H. injection H as Hl' Hrest. subst l' found.
      constructor.
      * rewrite Heq. apply elem_of_app. right. apply list_elem_of_here.
      * apply IH. reflexivity.
Qed.

(** X8: on an array that holds layers, [reorderLayers] answers true
    exactly when the ids it is given are a rearrangement of the ids of the
    store, each as often as the store has it; a list with a missing, an
    extra, a repeated or an unreadable (NaN) id is refused with false and
    changes nothing.  When it answers true the layers do not come out in
    the order given: [sort()] has sorted the ids in place before the
    layers are looked up, so that the new array is in the order of the
    texts of the ids (10 before 2), the same for every order given.  When
    the ids of the store are distinct the new array holds the very layers
    of the old one. *)
Theorem reorderLayers_iff_rearrangement lm (ls : list Layer)
    (newOrderIds : list (option Z)) :
  layers lm = Some <$> ls ->
  (newOrderIds ≡ₚ Some <$> (id <$> ls) ->
   exists ls',
     reorderLayers newOrderIds lm
     = (Ret true, mkLayerManager (Some <$> ls') ∅ (currentLayerId lm) (nextLayerId lm)) /\
     Some <$> (id <$> ls') = sort newOrderIds /\
     Some <$> (id <$> ls') = sort (Some <$> (id <$> ls)) /\
     Sorted sort_le (Some <$> (id <$> ls')) /\
     (NoDup (id <$> ls) -> ls' ≡ₚ ls)) /\
  (~ newOrderIds ≡ₚ Some <$> (id <$> ls) ->
   reorderLayers newOrderIds lm = (Ret false, lm)).
Proof.
  intros Hls. split.
  - intros Hperm.
    assert (Hsort : sort (Some <$> (id <$> ls)) = sort newOrderIds)
      by (apply Permutation_sort_eq; symmetry; exact Hperm).
    destruct (reorderLayers_accepts lm ls newOrderIds Hls Hsort)
      as (ls' & Hrun & Hids & Hp).
    exists ls'. split; [exact Hrun|]. split; [exact Hids|].
    split; [rewrite Hsort; exact Hids|].
    split; [rewrite Hids; apply (@Sorted_merge_sort _ sort_le _ sort_le_total)|].
    intros Hnodup.
    assert (Hmap : map_find (Some <$> ls) (Some <$> (id <$> ls')) = Ret (Some <$> ls')).
    { unfold reorderLayers in Hrun. cbv zeta in Hrun.
      rewrite Hls, map_id_defined, decide_True in Hrun by exact Hsort.
      rewrite Hids.
      destruct (map_find (Some <$> ls) (sort newOrderIds)) as [found| |];
        try discriminate.
      injection Hrun as Hfound. rewrite Hfound. reflexivity. }
    apply map_find_elements in Hmap. rewrite Forall_forall in Hmap.
    apply submseteq_length_Permutation.
    + apply NoDup_submseteq; [|exact Hmap].
      apply (NoDup_fmap_1 id). rewrite Hp. exact Hnodup.
    + apply Permutation_length in Hp. rewrite !length_fmap in Hp. lia.
  - intros Hnot. apply (reorderLayers_rejects lm ls newOrderIds Hls).
    intros Hsort. apply Hnot. symmetry. exact (sort_eq_Permutation _ _ Hsort).
Qed.

(** *** After the defect of [moveLayerDown] *)

Lemma completion_on_hole lm rest op :
  layers lm = None :: rest ->
  (forall name_arg, op <> AddLayer name_arg) -> op <> GetAllLayers ->
  (forall layerId, op = RemoveLayer layerId -> rest <> []) ->
  completion op lm = Throw /\ exec op lm = lm.
Proof.
  intros Hls Hadd Hall Hremove.
  destruct op; simpl;
    try (exfalso; exact (Hadd _ eq_refl)); try (exfalso; exact (Hall eq_refl)).
  - unfold removeLayer, findIndex. rewrite Hls.
    rewrite decide_False; [split; reflexivity|].
    specialize (Hremove _ eq_refl). destruct rest; [congruence | simpl; lia].
  - unfold renameLayer, mthen, update_found. rewrite Hls. split; reflexivity.
  - unfold setCurrentLayer, find. rewrite Hls. split; reflexivity.
  - unfold getCurrentLayer, find. rewrite Hls. split; reflexivity.
  - unfold addObjectToCurrentLayer. rewrite Hls. split; reflexivity.
  - unfold removeObjectFromLayer. rewrite Hls. split; reflexivity.
  - unfold moveObjectToLayer, mthen, removeObjectFromLayer. rewrite Hls. split; reflexivity.
  - unfold reorderLayers. rewrite Hls. split; reflexivity.
  - unfold moveLayerUp, findIndex. rewrite Hls. split; reflexivity.
  - unfold moveLayerDown, findIndex. rewrite Hls. split; reflexivity.
  - unfold toggleLayerVisibility, mthen, update_found. rewrite Hls. split; reflexivity.
  - unfold getAllObjects. rewrite Hls. split; reflexivity.
  - unfold getObjectsInLayer, find. rewrite Hls. split; reflexivity.
  - unfold getVisibleObjects. rewrite Hls. split; reflexivity.
Qed.

(** X9: after [moveLayerDown] has been aimed at an id that no layer has,
    on a store with at least one layer and no stray property, the array
    holds [undefined] where its first layer was and the layer is kept
    under the property [-1].  From then on every method that walks the
    array raises a TypeError and leaves the store as it is: all of them
    but [addLayer] and [getAllLayers], and [removeLayer] when the array
    has one slot only. *)
Theorem calls_raise_after_moveLayerDown lm (l : Layer) (ls : list Layer)
    (layerId : Z) :
  layers lm = Some <$> (l :: ls) ->
  layers_props lm !! (-1) = None ->
  Forall (fun x => id x <> layerId) (l :: ls) ->
  exists lm',
    moveLayerDown layerId lm = (Ret true, lm') /\
    layers lm' = None :: (Some <$> ls) /\
    layers_props lm' !! (-1) = Some (Some l) /\
    forall op,
      (forall name_arg, op <> AddLayer name_arg) -> op <> GetAllLayers ->
      (forall removed, op = RemoveLayer removed -> ls <> []) ->
      completion op lm' = Throw /\ exec op lm' = lm'.
Proof.
  intros Hls Hprop Habs. eexists. split.
  { exact (moveLayerDown_absent lm l ls layerId Hls Habs). }
  cbn [layers layers_props]. rewrite Hprop. cbn [default].
  split; [reflexivity|]. split; [apply lookup_insert_eq|].
  intros op Hadd Hall Hremove.
  apply (completion_on_hole _ (Some <$> ls)); try assumption; [reflexivity|].
  intros removed Heq Hnil. apply (Hremove removed Heq).
  destruct ls; [reflexivity | discriminate].
Qed.

(** *** A layer added and removed again *)

(** X10: on a store whose ids are below the counter, [addLayer] followed by
    [removeLayer] of the layer it returned gives back the array of layers
    as it was, but not the whole store: the counter stays raised, so the
    id is never handed out again, and the current layer is the first layer
    of the array, whichever was current before. *)
Theorem addLayer_then_removeLayer lm (first : Layer) (rest : list Layer)
    (name_arg : option string) :
  layers lm = Some <$> (first :: rest) ->
  Forall (fun l => id l < nextLayerId lm) (first :: rest) ->
  exists newLayer lm1 lm2,
    addLayer name_arg lm = (Ret newLayer, lm1) /\
    id newLayer = nextLayerId lm /\ currentLayerId lm1 = id newLayer /\
    removeLayer (id newLayer) lm1 = (Ret true, lm2) /\
    layers lm2 = layers lm /\ layers_props lm2 = layers_props lm /\
    currentLayerId lm2 = id first /\
    nextLayerId lm2 = nextLayerId lm + 1.
Proof.
  intros Hls Hbelow.
  set (newLayer := mkLayer (nextLayerId lm)
                     (default ("Layer " +:+ pretty (nextLayerId lm)) name_arg) true []).
  set (lm1 := mkLayerManager (layers lm ++ [Some newLayer]) (layers_props lm)
                (id newLayer) (nextLayerId lm + 1)).
  assert (Hpre : Forall (fun x => id x <> id newLayer) (first :: rest)).
  { eapply Forall_impl; [exact Hbelow|]. intros x Hx. unfold newLayer. simpl in *. lia. }
  assert (H1 : layers lm1 = Some <$> ((first :: rest) ++ newLayer :: [])).
  { simpl. rewrite Hls, fmap_app. reflexivity. }
  destruct (removeLayer_found lm1 (first :: rest) newLayer [] H1)
    as (lm2 & Hrun & Hl2 & Hp2 & Hn2 & _ & Hcur & _).
  { rewrite length_app. simpl. lia. }
  { exact Hpre. }
  exists newLayer, lm1, lm2. split; [reflexivity|]. split; [reflexivity|].
  split; [reflexivity|]. split; [exact Hrun|].
  split; [rewrite Hl2, app_nil_r, Hls; reflexivity|].
  split; [exact Hp2|]. split; [|exact Hn2].
  apply (Hcur eq_refl [] first (rest ++ [newLayer])).
  - reflexivity.
  - constructor.
  - apply Forall_cons in Hpre as [H _]. exact H.
Qed.

(** *** Calls that return *)

Lemma js_find_on_layers (ls : list Layer) (layerId : Z) :
  exists r, js_find (fun layer => bool_decide (id layer = layerId)) 0%nat (Some <$> ls)
            = Ret r.
Proof.
  destruct (id_split layerId ls) as [Habs | (pre & l & post & -> & Hpre & Hl)].
  - rewrite (js_find_absent _ _ _ (has_id_false _ _ Habs)). eauto.
  - rewrite (js_find_first _ 0 pre l post (has_id_false _ _ Hpre))
      by (apply bool_decide_eq_true_2; exact Hl).
    eauto.
Qed.

Lemma moveObjectToLayer_returns lm (ls : list Layer) object targetLayerId :
  layers lm = Some <$> ls ->
  exists b, fst (moveObjectToLayer object targetLayerId lm) = Ret b.
Proof.
  intros Hls. unfold moveObjectToLayer, mthen.
  destruct (removeObjectFromLayer_spec lm ls object Hls) as [[_ Hr] | (ls1 & _ & Hr)];
    rewrite Hr.
  - rewrite Hls. destruct (js_find_on_layers ls targetLayerId) as ([[i t]|] & ->);
      simpl; eauto.
  - cbn [layers set_layers].
    destruct (js_find_on_layers ls1 targetLayerId) as ([[i t]|] & ->); simpl; eauto.
Qed.

Lemma completion_on_layers lm (ls : list Layer) op :
  layers lm = Some <$> ls ->
  (forall layerId, op = MoveLayerDown layerId -> layerId ∈ id <$> ls) ->
  completion op lm = Ret tt.
Proof.
  intros Hls Haim. destruct op; unfold completion.
  - reflexivity.
  - destruct (decide (length (layers lm) <= 1)%nat) as [Hshort | Hlong].
    { rewrite (removeLayer_sole lm layerId Hshort). reflexivity. }
    destruct (id_split layerId ls) as [Habs | (pre & l & post & -> & Hpre & Hl)].
    { rewrite (removeLayer_absent lm ls layerId Hls Habs). reflexivity. }
    subst layerId.
    destruct (removeLayer_found lm pre l post Hls) as (lm' & -> & _);
      [rewrite Hls, length_fmap in Hlong; lia | exact Hpre | reflexivity].
  - unfold renameLayer. rewrite mthen_update_found.
    destruct (id_split layerId ls) as [Habs | (pre & l & post & -> & Hpre & Hl)].
    + rewrite (update_found_absent lm ls layerId _ Hls Habs). reflexivity.
    + subst layerId. rewrite (update_found_first lm pre l post _ Hls Hpre). reflexivity.
  - unfold setCurrentLayer, find. rewrite Hls.
    destruct (id_split layerId ls) as [Habs | (pre & l & post & -> & Hpre & Hl)].
    + rewrite (js_find_absent _ _ _ (has_id_false _ _ Habs)). reflexivity.
    + rewrite (js_find_first _ 0 pre l post (has_id_false _ _ Hpre))
        by (apply bool_decide_eq_true_2; exact Hl).
      reflexivity.
  - unfold getCurrentLayer, find. rewrite Hls.
    destruct (id_split (currentLayerId lm) ls)
      as [Habs | (pre & l & post & -> & Hpre & Hl)].
    + rewrite (js_find_absent _ _ _ (has_id_false _ _ Habs)). reflexivity.
    + rewrite (js_find_first _ 0 pre l post (has_id_false _ _ Hpre))
        by (apply bool_decide_eq_true_2; exact Hl).
      reflexivity.
  - reflexivity.
  - unfold addObjectToCurrentLayer. rewrite Hls.
    destruct (id_split (currentLayerId lm) ls)
      as [Habs | (pre & l & post & -> & Hpre & Hl)].
    + rewrite (js_find_absent _ _ _ (has_id_false _ _ Habs)). reflexivity.
    + rewrite (js_find_first _ 0 pre l post (has_id_false _ _ Hpre))
        by (apply bool_decide_eq_true_2; exact Hl).
      reflexivity.
  - destruct (removeObjectFromLayer_spec lm ls object Hls) as [[_ ->] | (ls1 & _ & ->)];
      reflexivity.
  - destruct (moveObjectToLayer_returns lm ls object targetLayerId Hls) as (b & ->).
    reflexivity.
  - destruct (decide (sort (Some <$> (id <$> ls)) = sort newOrderIds)) as [Heq | Hne].
    + destruct (reorderLayers_accepts lm ls newOrderIds Hls Heq) as (ls' & -> & _).
      reflexivity.
    + rewrite (reorderLayers_rejects lm ls newOrderIds Hls Hne). reflexivity.
  - destruct (id_split layerId ls) as [Habs | (pre & l & post & -> & Hpre & Hl)].
    { rewrite (moveLayerUp_absent lm ls layerId Hls Habs). reflexivity. }
    destruct (snoc_split pre) as [-> | (pre' & a & ->)].
    + subst layerId. rewrite (moveLayerUp_first lm l post Hls). reflexivity.
    + subst layerId. rewrite <- app_assoc in Hls. simpl in Hls.
      rewrite (moveLayerUp_swap lm pre' a l post Hls Hpre). reflexivity.
  - destruct (id_split layerId ls) as [Habs | (pre & l & post & -> & Hpre & Hl)].
    { exfalso. specialize (Haim _ eq_refl).
      apply list_elem_of_fmap in Haim as (x & -> & Hx).
      rewrite Forall_forall in Habs. exact (Habs x Hx eq_refl). }
    subst layerId. destruct post as [|b post].
    + rewrite (moveLayerDown_last lm pre l Hls Hpre). reflexivity.
    + rewrite (moveLayerDown_swap lm pre l b post Hls Hpre). reflexivity.
  - unfold toggleLayerVisibility. rewrite mthen_update_found.
    destruct (id_split layerId ls) as [Habs | (pre & l & post & -> & Hpre & Hl)].
    + rewrite (update_found_absent lm ls layerId _ Hls Habs). reflexivity.
    + subst layerId. rewrite (update_found_first lm pre l post _ Hls Hpre). reflexivity.
  - unfold getAllObjects. rewrite Hls, flatMap_objects_defined. reflexivity.
  - unfold getObjectsInLayer, find. rewrite Hls.
    destruct (id_split layerId ls) as [Habs | (pre & l & post & -> & Hpre & Hl)].
    + rewrite (js_find_absent _ _ _ (has_id_false _ _ Habs)). reflexivity.
    + rewrite (js_find_first _ 0 pre l post (has_id_false _ _ Hpre))
        by (apply bool_decide_eq_true_2; exact Hl).
      reflexivity.
  - unfold getVisibleObjects. rewrite Hls, filter_visible_defined. simpl.
    rewrite flatMap_objects_defined. reflexivity.
Qed.

(** X11: from a store that holds layers only, has no stray property and
    meets the data model, every call of a run that never aims
    [moveLayerDown] at a missing id returns rather than raises, and the
    store after the run is again such a store. *)
Theorem well_aimed_run_returns (ops : list Op) lm :
  Clean lm -> well_aimed ops lm -> all_return ops lm /\ Clean (run ops lm).
Proof.
  revert lm. induction ops as [|op ops IH]; intros lm HC Haim.
  - split; [exact I | exact HC].
  - destruct Haim as [Hop Haim]. cbn [all_return]. simpl run.
    destruct (IH (exec op lm) (exec_clean op lm HC Hop) Haim) as [Hret Hclean].
    split; [split; [|exact Hret] | exact Hclean].
    destruct (Clean_elim lm HC) as (ls & Hls & _).
    apply (completion_on_layers lm ls op Hls).
    intros layerId Heq. specialize (Hop layerId Heq).
    unfold held_ids, held in Hop. rewrite Hls, omap_Some in Hop. exact Hop.
Qed.

(** *** The theorems at work *)

Lemma move_up_down_round_trip_witness :
  layers three_layers = Some <$> ([layer1] ++ layer2 :: layer3 :: []) /\
  exists lm1,
    moveLayerUp 3 three_layers = (Ret true, lm1) /\
    moveLayerDown 3 lm1 = (Ret true, three_layers).
Proof.
  split; [reflexivity|].
  apply (proj1 (move_up_down_round_trip three_layers [layer1] layer2 layer3 []
                  eq_refl)).
  ids_differ.
Defined.

Lemma removeLayer_when_witness :
  layers three_layers = Some <$> [layer1; layer2; layer3] /\
  exists pre l post lm',
    [layer1; layer2; layer3] = pre ++ l :: post /\
    Forall (fun x => id x <> 2) pre /\ id l = 2 /\
    removeLayer 2 three_layers = (Ret true, lm') /\
    layers lm' = Some <$> (pre ++ post) /\
    getAllObjects lm' = (Ret ((pre ++ post) ≫= objects), lm').
Proof.
  split; [reflexivity|].
  apply (proj1 (removeLayer_when three_layers [layer1; layer2; layer3] 2 eq_refl)).
  split; [simpl; lia|].
  apply list_elem_of_further, list_elem_of_here.
Defined.

Lemma renameLayer_behaviour_witness :
  layers three_layers = Some <$> [layer1; layer2; layer3] /\
  renameLayer 9 "Sky" three_layers = (Ret false, three_layers).
Proof.
  split; [reflexivity|].
  apply (proj1 (renameLayer_behaviour three_layers [layer1; layer2; layer3] 9 "Sky"
                  eq_refl)).
  ids_differ.
Defined.

Lemma toggleLayerVisibility_twice_witness :
  layers three_layers = Some <$> [layer1; layer2; layer3] /\
  exists lm1,
    toggleLayerVisibility 2 three_layers = (Ret (Some true), lm1) /\
    layers lm1 = Some <$> [layer1; set_visible true layer2; layer3] /\
    toggleLayerVisibility 2 lm1 = (Ret (Some false), three_layers).
Proof.
  split; [reflexivity|].
  apply (proj2 (toggleLayerVisibility_twice three_layers [layer1; layer2; layer3] 2
                  eq_refl) [layer1] layer2 [layer3]);
    [reflexivity | ids_differ | reflexivity].
Defined.

Lemma setCurrentLayer_then_addObject_witness :
  layers three_layers = Some <$> [layer1; layer2; layer3] /\
  exists lm2,
    setCurrentLayer 3 three_layers = (Ret true, set_currentLayerId 3 three_layers) /\
    addObjectToCurrentLayer sphere (set_currentLayerId 3 three_layers)
    = (Ret true, lm2) /\
    layers lm2 = Some <$> [layer1; layer2; set_objects [sphere] layer3] /\
    getObjectsInLayer 3 lm2 = (Ret [sphere], lm2).
Proof.
  split; [reflexivity|].
  apply (proj2 (setCurrentLayer_then_addObject three_layers [layer1; layer2; layer3] 3
                  sphere eq_refl) [layer1; layer2] layer3 []);
    [reflexivity | ids_differ | reflexivity].
Defined.

Lemma add_then_remove_object_witness :
  let object := mkObject3D 9 2 in
  layers three_layers = Some <$> [layer1; layer2; layer3] /\
  exists lm1,
    addObjectToCurrentLayer object three_layers = (Ret true, lm1) /\
    removeObjectFromLayer object lm1 = (Ret true, three_layers).
Proof.
  cbv zeta. split; [reflexivity|].
  apply (add_then_remove_object three_layers [layer1; layer2; layer3] (mkObject3D 9 2)
           eq_refl).
  - apply list_elem_of_here.
  - repeat (apply Forall_cons_2;
            [repeat (apply Forall_cons_2; [vm_compute; discriminate|]);
             apply Forall_nil_2|]).
    apply Forall_nil_2.
Defined.

Lemma moveObjectToLayer_known_target_witness :
  layers three_layers = Some <$> [layer1; layer2; layer3] /\
  exists ls1 pre target post,
    (held_nowhere cube [layer1; layer2; layer3] /\ ls1 = [layer1; layer2; layer3] \/
     first_held cube [layer1; layer2; layer3] ls1) /\
    ls1 = pre ++ target :: post /\
    Forall (fun x => id x <> 3) pre /\ id target = 3 /\
    moveObjectToLayer cube 3 three_layers
    = (Ret true,
       set_layers
         (fun _ => Some <$> (pre ++ set_objects (objects target ++ [cube]) target
                                 :: post)) three_layers).
Proof.
  split; [reflexivity|].
  apply (moveObjectToLayer_known_target three_layers [layer1; layer2; layer3] cube 3
           eq_refl).
  apply list_elem_of_further, list_elem_of_further, list_elem_of_here.
Defined.

Lemma reorderLayers_iff_rearrangement_witness :
  layers three_layers = Some <$> [layer1; layer2; layer3] /\
  [Some 3; Some 1; Some 2] ≡ₚ Some <$> (id <$> [layer1; layer2; layer3]) /\
  sort [Some 3; Some 1; Some 2] = [Some 1; Some 2; Some 3] /\
  exists ls',
    reorderLayers [Some 3; Some 1; Some 2] three_layers
    = (Ret true, mkLayerManager (Some <$> ls') ∅ 1 4) /\
    Some <$> (id <$> ls') = sort [Some 3; Some 1; Some 2] /\
    (NoDup (id <$> [layer1; layer2; layer3]) -> ls' ≡ₚ [layer1; layer2; layer3]).
Proof.
  assert (Hperm : [Some 3; Some 1; Some 2] ≡ₚ Some <$> (id <$> [layer1; layer2; layer3])).
  { simpl. apply (Permutation_cons_app [Some 1; Some 2] [] (Some 3)).
    rewrite app_nil_r. reflexivity. }
  split; [reflexivity|]. split; [exact Hperm|]. split; [reflexivity|].
  destruct (proj1 (reorderLayers_iff_rearrangement three_layers [layer1; layer2; layer3]
                     [Some 3; Some 1; Some 2] eq_refl) Hperm)
    as (ls' & Hrun & Hids & _ & _ & Hsame).
  exists ls'. split; [exact Hrun|]. split; [exact Hids | exact Hsame].
Defined.

Lemma calls_raise_after_moveLayerDown_witness :
  layers three_layers = Some <$> (layer1 :: [layer2; layer3]) /\
  layers_props three_layers !! (-1) = None /\
  exists lm',
    moveLayerDown 99 three_layers = (Ret true, lm') /\
    layers lm' = None :: (Some <$> [layer2; layer3]) /\
    layers_props lm' !! (-1) = Some (Some layer1) /\
    forall op,
      (forall name_arg, op <> AddLayer name_arg) -> op <> GetAllLayers ->
      (forall removed, op = RemoveLayer removed -> [layer2; layer3] <> []) ->
      completion op lm' = Throw /\ exec op lm' = lm'.
Proof.
  split; [reflexivity|]. split; [reflexivity|].
  apply (calls_raise_after_moveLayerDown three_layers layer1 [layer2; layer3] 99
           eq_refl eq_refl).
  ids_differ.
Defined.

Lemma addLayer_then_removeLayer_witness :
  layers three_layers = Some <$> (layer1 :: [layer2; layer3]) /\
  exists newLayer lm1 lm2,
    addLayer None three_layers = (Ret newLayer, lm1) /\
    id newLayer = 4 /\ currentLayerId lm1 = id newLayer /\
    removeLayer (id newLayer) lm1 = (Ret true, lm2) /\
    layers lm2 = layers three_layers /\
    layers_props lm2 = layers_props three_layers /\
    currentLayerId lm2 = 1 /\ nextLayerId lm2 = 5.
Proof.
  split; [reflexivity|].
  apply (addLayer_then_removeLayer three_layers layer1 [layer2; layer3] None eq_refl).
  repeat (apply Forall_cons_2; [vm_compute; reflexivity|]). apply Forall_nil_2.
Defined.

Lemma well_aimed_run_returns_witness :
  let ops := [AddLayer None; MoveLayerDown 1; RemoveLayer 2; GetAllObjects] in
  all_return ops constructor /\ Clean (run ops constructor).
Proof.
  cbv zeta. apply well_aimed_run_returns; [exact Clean_constructor|].
  split; [intros layerId [=]|]. split.
  { intros layerId [= <-]. apply list_elem_of_here. }
  split; [intros layerId [=]|]. split; [intros layerId [=]|]. exact I.
Defined.

End LayerManagerMore.
(** ** More of the state manager *)

Module StateManagerMore.
Import StateManager StateManagerCalls StateManagerFacts.

(** *** Writes by path *)

Lemma own_primitive v k : container v = false -> container (own v k) = false.
Proof.
  destruct v; simpl; try reflexivity; try discriminate; intros _.
  destruct (array_index k).
  - destruct (String.get n s); reflexivity.
  - destruct (String.eqb k "length"); reflexivity.
Qed.

Lemma not_inherited_proto k :
  inherited k = false -> String.eqb k "__proto__" = false.
Proof.
  intros H. destruct (String.eqb_spec k "__proto__") as [->|_]; [|reflexivity].
  vm_compute in H. discriminate.
Qed.

Lemma no_inherited_cons k keys :
  no_inherited (k :: keys) = true -> inherited k = false /\ no_inherited keys = true.
Proof.
  cbn [no_inherited forallb]. intros H. apply andb_true_iff in H as [Hk H].
  split; [apply negb_true_iff; exact Hk | exact H].
Qed.

Lemma get_member_not_inherited v k :
  inherited k = false ->
  get_member v k = match v with VUndefined | VNull => Throw | _ => Ret (own v k) end.
Proof. intros H. unfold get_member. rewrite H, andb_false_r. destruct v; reflexivity. Qed.

Lemma assign_primitive keys current key value :
  no_inherited (key :: keys) = true ->
  container current = false -> assign current key keys value = Throw.
Proof.
  revert current key. induction keys as [|key' keys IH]; intros current key Hn Hc;
    apply no_inherited_cons in Hn as [Hk Hn].
  - cbn [assign]. unfold set_member. rewrite (not_inherited_proto _ Hk).
    destruct current; try reflexivity; discriminate.
  - cbn [assign]. rewrite (get_member_not_inherited _ _ Hk).
    destruct current; try reflexivity; try discriminate;
      rewrite IH; try reflexivity; try exact Hn; apply own_primitive; reflexivity.
Qed.

Lemma assign_container keys current key value c :
  no_inherited (key :: keys) = true ->
  assign current key keys value = Ret c -> container current = true.
Proof.
  intros Hn H. destruct (container current) eqn:Hc; [reflexivity|].
  rewrite (assign_primitive keys current key value Hn Hc) in H. discriminate.
Qed.

Lemma own_put_own current key child child' keys key' value c :
  inherited key = false -> no_inherited (key' :: keys) = true ->
  get_member current key = Ret child ->
  assign child key' keys value = Ret c ->
  own (put_own current key child') key = child'.
Proof.
  intros Hk Hn Hget Hassign. apply assign_container in Hassign; [|exact Hn].
  rewrite (get_member_not_inherited _ _ Hk) in Hget.
  destruct current; simpl in Hget; try discriminate; injection Hget as <-;
    try (simpl in Hassign; discriminate).
  - simpl in Hassign. destruct (array_index key); [destruct (String.get n s)|
      destruct (String.eqb key "length")]; discriminate.
  - simpl in *. destruct (array_index key) as [i|] eqn:Hi.
    + simpl. rewrite Hi. destruct (elems !! i) as [e|] eqn:He; [|discriminate].
      rewrite list_lookup_insert_eq; [reflexivity|].
      apply lookup_lt_Some in He. exact He.
    + destruct (String.eqb key "length"); discriminate.
  - simpl. rewrite assoc_set_eq. reflexivity.
Qed.

Lemma set_member_own current key value c :
  inherited key = false ->
  set_member current key value = Ret c -> own c key = value.
Proof.
  intros Hk. apply not_inherited_proto in Hk. unfold set_member. rewrite Hk.
  destruct current; cbn [andb]; try discriminate.
  - destruct (array_index key) as [i|] eqn:Hi; [|discriminate].
    destruct (decide (i < length elems)%nat) as [Hlt|Hge].
    + intros [= <-]. simpl. rewrite Hi, list_lookup_insert_eq by exact Hlt. reflexivity.
    + destruct (decide (Z.of_nat i < 2 ^ 32 - 1)); [|discriminate].
      intros [= <-]. simpl. rewrite Hi.
      rewrite lookup_app_r by lia. rewrite lookup_app_r by (rewrite length_replicate; lia).
      rewrite length_replicate. replace (i - length elems - (i - length elems))%nat with 0%nat by lia.
      reflexivity.
  - intros [= <-]. simpl. rewrite assoc_set_eq. reflexivity.
Qed.

Lemma assign_descend keys current key value c :
  no_inherited (key :: keys) = true ->
  assign current key keys value = Ret c -> descend c (key :: keys) = value.
Proof.
  revert current key c. induction keys as [|key' keys IH]; intros current key c Hn H;
    pose proof Hn as Hn'; apply no_inherited_cons in Hn' as [Hk Hrest].
  - simpl in H. unfold descend. simpl. exact (set_member_own _ _ _ _ Hk H).
  - cbn [assign] in H.
    destruct (get_member current key) as [child| |] eqn:Hget; try discriminate.
    destruct (assign child key' keys value) as [child'| |] eqn:Hassign; try discriminate.
    injection H as <-.
    change (descend (put_own current key child') (key :: key' :: keys))
      with (descend (own (put_own current key child') key) (key' :: keys)).
    rewrite (own_put_own _ _ _ _ _ _ _ _ Hk Hrest Hget Hassign).
    exact (IH _ _ _ Hrest Hassign).
Qed.

(** X12: on a path none of whose segments is a name that a standard
    prototype supplies ([constructor], [__proto__], [toString] and the
    like, which read and write the objects of the host and not the tree),
    when [setStateProperty(path, value)] returns, [getStateProperty] of the
    same path answers the value written, the listeners are the same, and
    the effects of the call are one write of the snapshot and one call of
    each listener, on the tree as it is after the write. *)
Theorem setStateProperty_then_get sm (path : string) (value : Value) sm' :
  no_inherited (split path) = true ->
  setStateProperty path value sm = (Ret tt, sm') ->
  getStateProperty path sm' = (Ret value, sm') /\
  sm' = after_write sm (state sm').
Proof.
  unfold setStateProperty. intros Hn H.
  destruct (split path) as [|key keys] eqn:Hsplit.
  { unfold mthen in H. discriminate. }
  unfold mthen at 1 in H.
  destruct (assign (state sm) key keys value) as [st'| |] eqn:Hassign; try discriminate.
  change (mthen saveState (fun _ => notifyListeners) (set_state st' sm) = (Ret tt, sm'))
    in H.
  rewrite save_notify in H. injection H as <-. split; [|reflexivity].
  rewrite getStateProperty_descend by (rewrite Hsplit; exact Hn).
  rewrite Hsplit. cbn [state after_write].
  rewrite (assign_descend _ _ _ _ _ Hn Hassign). reflexivity.
Qed.
Lemma assign_stuck value pre key' post :
  post <> [] ->
  forall current key keys,
    key :: keys = pre ++ key' :: post ->
    no_inherited (key :: keys) = true ->
    container (descend current (pre ++ [key'])) = false ->
    assign current key keys value = Throw.
Proof.
  intros Hpost. induction pre as [|p pre IH]; intros current key keys Heq Hn Hd;
    apply no_inherited_cons in Hn as [Hk Hn].
  - simpl in Heq. injection Heq as -> ->. destruct post as [|k2 keys2]; [congruence|].
    cbn [assign]. unfold descend in Hd. simpl in Hd.
    rewrite (get_member_not_inherited _ _ Hk).
    destruct current; try reflexivity;
      rewrite (assign_primitive _ _ _ _ Hn Hd); reflexivity.
  - simpl in Heq. injection Heq as -> ->.
    destruct (pre ++ key' :: post) as [|k2 keys2] eqn:Hrest.
    { destruct pre; discriminate. }
    cbn [assign]. rewrite (get_member_not_inherited _ _ Hk).
    destruct current; try reflexivity;
      rewrite (IH _ k2 keys2 eq_refl Hn Hd); reflexivity.
Qed.

(** X13: [setStateProperty] creates no parent on the way.  On a path none
    of whose segments is a name that a standard prototype supplies, when a
    segment before the last one reaches [undefined], [null], a boolean, a
    number or a string, the call raises a TypeError and leaves the
    instance untouched: the tree is not written, the snapshot is not saved
    and no listener is called, while [getStateProperty] descends the same
    path without raising. *)
Theorem setStateProperty_missing_parent sm (path : string) (value : Value)
    (pre : list string) (key : string) (post : list string) :
  no_inherited (split path) = true ->
  split path = pre ++ key :: post -> post <> [] ->
  container (descend (state sm) (pre ++ [key])) = false ->
  setStateProperty path value sm = (Throw, sm) /\
  fst (getStateProperty path sm) = Ret (descend (state sm) (split path)).
Proof.
  intros Hn Hsplit Hpost Hd. split.
  - unfold setStateProperty.
    destruct (split path) as [|k keys] eqn:Hs; [destruct pre; discriminate|].
    unfold mthen at 1.
    rewrite (assign_stuck value pre key post Hpost (state sm) k keys Hsplit Hn Hd).
    reflexivity.
  - rewrite getStateProperty_descend by exact Hn. reflexivity.
Qed.

(** *** Merging *)

Lemma assoc_absent k (fs : list (string * Value)) :
  k ∉ fst <$> fs -> assoc k fs = None.
Proof.
  induction fs as [|[k' v] fs IH]; [reflexivity|].
  rewrite fmap_cons. simpl. intros Hnot.
  destruct (String.eqb_spec k k') as [->|Hne].
  - exfalso. apply Hnot. apply list_elem_of_here.
  - apply IH. intros Hin. apply Hnot. apply list_elem_of_further. exact Hin.
Qed.

Lemma assoc_fold_set k (b a : list (string * Value)) :
  NoDup (fst <$> b) ->
  assoc k (fold_left (fun fs kv => assoc_set (fst kv) (snd kv) fs) b a)
  = match assoc k b with Some v => Some v | None => assoc k a end.
Proof.
  revert a. induction b as [|[k' v'] b IH]; intros a Hnd; [reflexivity|].
  rewrite fmap_cons in Hnd. apply NoDup_cons in Hnd as [Hk' Hnd]. cbn [fst] in Hk'.
  cbn [fold_left fst snd assoc]. rewrite (IH _ Hnd).
  destruct (String.eqb_spec k k') as [->|Hne].
  - rewrite (assoc_absent _ _ Hk'). apply assoc_set_eq.
  - destruct (assoc k b); [reflexivity|]. apply assoc_set_ne. congruence.
Qed.

Lemma own_merge (a b : list (string * Value)) k :
  NoDup (fst <$> b) ->
  own (merge (VObj a) (VObj b)) k
  = match assoc k b with Some v => v | None => own (VObj a) k end.
Proof.
  intros Hnd. unfold merge. cbn [spread own]. rewrite (assoc_fold_set k b a Hnd).
  destruct (assoc k b); reflexivity.
Qed.

(** X14: [updateState] merges one level deep only.  On a tree that is an
    object, each section that the partial state names is replaced as a
    whole by the value given for it, whatever fields the section had, and
    every other section stays; the snapshot is written and the listeners
    are called once. *)
Theorem updateState_shallow sm (fs0 partial : list (string * Value)) :
  state sm = VObj fs0 -> NoDup (fst <$> partial) ->
  exists tree,
    updateState (VObj partial) sm = (Ret tt, after_write sm tree) /\
    forall k,
      own tree k
      = match assoc k partial with Some v => v | None => own (state sm) k end.
Proof.
  intros Hst Hnd. exists (merge (state sm) (VObj partial)).
  split; [apply updateState_after|].
  intros k. rewrite Hst. apply own_merge. exact Hnd.
Qed.

(** X15: [updatePerformanceMetrics] merges the metrics into the object
    under [performance] field by field: a metric given replaces the one of
    its name, the metrics not given stay, and so do the other sections of
    the tree. *)
Theorem updatePerformanceMetrics_merges sm (fs0 ps ms : list (string * Value)) :
  state sm = VObj fs0 -> assoc "performance" fs0 = Some (VObj ps) ->
  NoDup (fst <$> ms) ->
  exists tree,
    updatePerformanceMetrics (VObj ms) sm = (Ret tt, after_write sm tree) /\
    (forall k,
       own (own tree "performance") k
       = match assoc k ms with Some v => v | None => own (VObj ps) k end) /\
    (forall k, k <> "performance" -> own tree k = own (state sm) k).
Proof.
  intros Hst Hperf Hnd.
  exists (merge (state sm) (VObj [("performance", merge (VObj ps) (VObj ms))])).
  assert (Hone : NoDup (fst <$> [("performance", merge (VObj ps) (VObj ms))])).
  { apply NoDup_singleton. }
  split; [|split].
  - unfold updatePerformanceMetrics.
    rewrite (mthen_ret _ _ _ _ _ (getStateProperty_descend sm "performance" eq_refl)).
    change (split "performance") with ["performance"]. unfold descend. cbn [fold_left].
    rewrite Hst. cbn [own]. rewrite Hperf. cbn [default].
    rewrite <- Hst. apply updateState_after.
  - intros k. rewrite Hst, (own_merge _ _ _ Hone). cbn [assoc].
    change (String.eqb "performance" "performance") with true. cbv iota.
    apply own_merge. exact Hnd.
  - intros k Hk. rewrite Hst, (own_merge _ _ _ Hone). cbn [assoc].
    destruct (String.eqb_spec k "performance") as [->|_]; [congruence | reflexivity].
Qed.

(** *** Listeners *)

Lemma count_occ_filter_ne (ls : list nat) (callback l : nat) :
  count_occ Nat.eq_dec (filter (fun listener => listener <> callback) ls) l
  = if Nat.eq_dec l callback then 0%nat else count_occ Nat.eq_dec ls l.
Proof.
  induction ls as [|x ls IH]; [destruct (Nat.eq_dec l callback); reflexivity|].
  rewrite filter_cons. destruct (decide (x <> callback)) as [Hx|Hx].
  - simpl. rewrite IH. destruct (Nat.eq_dec l callback) as [Hl|Hl];
      destruct (Nat.eq_dec x l); congruence.
  - assert (Heq : x = callback)
      by (destruct (Nat.eq_dec x callback) as [|Hn]; [assumption | destruct (Hx Hn)]).
    rewrite Heq, IH. simpl. destruct (Nat.eq_dec l callback) as [Hl|Hl];
      destruct (Nat.eq_dec callback l); congruence.
Qed.

Lemma notify_count_updateState l sm newState :
  notify_count l (journal (snd (updateState newState sm)))
  = (notify_count l (journal sm) + subscriptions l sm)%nat.
Proof.
  rewrite updateState_after. cbn [snd after_write journal].
  rewrite notify_count_app, notify_count_cycle. reflexivity.
Qed.

(** X16: [subscribe] registers the callback once more, so that each later
    write calls it once more than before.  The function that [subscribe]
    returns removes every registration of the callback, also those of
    other [subscribe] calls, and leaves the other listeners registered
    as often as they were: a later write does not call the callback. *)
Theorem subscribe_and_unsubscribe sm (callback : nat) (newState : Value) :
  let subscribed := snd (subscribe callback sm) in
  let unsubscribed := snd (unsubscribe callback subscribed) in
  subscriptions callback subscribed = S (subscriptions callback sm) /\
  notify_count callback (journal (snd (updateState newState subscribed)))
  = (notify_count callback (journal sm) + S (subscriptions callback sm))%nat /\
  subscriptions callback unsubscribed = 0%nat /\
  (forall l, l <> callback -> subscriptions l unsubscribed = subscriptions l sm) /\
  notify_count callback (journal (snd (updateState newState unsubscribed)))
  = notify_count callback (journal sm).
Proof.
  cbv zeta.
  assert (Hsub : forall l,
            subscriptions l (snd (subscribe callback sm))
            = (subscriptions l sm + if Nat.eq_dec callback l then 1 else 0)%nat).
  { intros l. unfold subscriptions, subscribe, modify. cbn [snd set_listeners listeners].
    rewrite count_occ_app. reflexivity. }
  assert (Hun : forall l,
            subscriptions l (snd (unsubscribe callback (snd (subscribe callback sm))))
            = if Nat.eq_dec l callback then 0%nat else subscriptions l sm).
  { intros l. unfold subscriptions at 1, unsubscribe, modify.
    cbn [snd set_listeners listeners]. rewrite count_occ_filter_ne.
    destruct (Nat.eq_dec l callback) as [|Hne]; [reflexivity|].
    fold (subscriptions l (snd (subscribe callback sm))). rewrite Hsub.
    destruct (Nat.eq_dec callback l); [congruence | lia]. }
  split; [|split; [|split; [|split]]].
  - rewrite Hsub. destruct (Nat.eq_dec callback callback); [lia | congruence].
  - rewrite notify_count_updateState, Hsub.
    destruct (Nat.eq_dec callback callback); [|congruence].
    unfold subscribe, modify. cbn [snd set_listeners journal]. lia.
  - rewrite Hun. destruct (Nat.eq_dec callback callback); [reflexivity | congruence].
  - intros l Hl. rewrite Hun. destruct (Nat.eq_dec l callback); [congruence | reflexivity].
  - rewrite notify_count_updateState, Hun.
    destruct (Nat.eq_dec callback callback); [|congruence].
    unfold unsubscribe, subscribe, modify. cbn [snd set_listeners journal]. lia.
Qed.

(** *** The history over several calls *)

Lemma history_fields tree (u r : Value) :
  history_field "undoStack" tree = u -> u <> VUndefined ->
  history_field "redoStack" tree = r -> r <> VUndefined ->
  exists fs0 hs,
    tree = VObj fs0 /\ assoc "history" fs0 = Some (VObj hs) /\
    assoc "undoStack" hs = Some u /\ assoc "redoStack" hs = Some r.
Proof.
  intros Hu Hu' Hr Hr'.
  destruct (history_shape tree "undoStack" u eq_refl eq_refl Hu Hu')
    as (fs0 & hs & Hst & Hh & Hus).
  destruct (history_shape tree "redoStack" r eq_refl eq_refl Hr Hr')
    as (fs0' & hs' & Hst' & Hh' & Hrs).
  assert (fs0' = fs0) as -> by congruence.
  assert (hs' = hs) as -> by congruence.
  exists fs0, hs. auto.
Qed.

Lemma addToHistory_step sm (u : list Value) (m : Z) (action : Value) :
  history_field "undoStack" (state sm) = VArr u ->
  history_field "maxHistorySize" (state sm) = VNum m ->
  exists tree,
    addToHistory action sm = (Ret tt, after_write sm tree) /\
    history_field "undoStack" tree
    = VArr (if Z.of_nat (length (u ++ [action])) >? m
            then tail (u ++ [action]) else u ++ [action]) /\
    history_field "redoStack" tree = VArr [] /\
    history_field "maxHistorySize" tree = VNum m /\
    (forall k, k <> "history" -> own tree k = own (state sm) k).
Proof.
  intros Hu Hm.
  destruct (history_shape (state sm) "undoStack" (VArr u) eq_refl eq_refl Hu)
    as (fs0 & hs & Hst & Hh & Hus); [discriminate|].
  destruct (history_shape (state sm) "maxHistorySize" (VNum m) eq_refl eq_refl Hm)
    as (fs0' & hs' & Hst' & Hh' & Hms); [discriminate|].
  assert (fs0' = fs0) as -> by congruence.
  assert (hs' = hs) as -> by congruence.
  eexists. split; [exact (addToHistory_run sm fs0 hs u m action Hst Hh Hus Hms)|].
  rewrite !history_field_set. split; [|split; [|split]].
  - rewrite assoc_set_ne by discriminate. rewrite assoc_set_eq. reflexivity.
  - rewrite assoc_set_eq. reflexivity.
  - rewrite !assoc_set_ne by discriminate. rewrite Hms. reflexivity.
  - intros k Hk. rewrite own_set_other by exact Hk. rewrite Hst. reflexivity.
Qed.

Lemma undo_step sm (u : list Value) action (r : list Value) :
  history_field "undoStack" (state sm) = VArr (u ++ [action]) ->
  history_field "redoStack" (state sm) = VArr r ->
  exists tree,
    undo sm = (Ret action, after_write sm tree) /\
    history_field "undoStack" tree = VArr u /\
    history_field "redoStack" tree = VArr (r ++ [action]).
Proof.
  intros Hu Hr.
  destruct (history_fields _ _ _ Hu ltac:(discriminate) Hr ltac:(discriminate))
    as (fs0 & hs & Hst & Hh & Hus & Hrs).
  eexists. split; [exact (undo_run sm fs0 hs u action r Hst Hh Hus Hrs)|].
  unfold moved. rewrite !history_field_set. split.
  - rewrite assoc_set_ne by discriminate. rewrite assoc_set_eq. reflexivity.
  - rewrite assoc_set_eq. reflexivity.
Qed.

Lemma latest_latest {A} (n : nat) (l rest : list A) :
  latest n (latest n l ++ rest) = latest n (l ++ rest).
Proof.
  unfold latest. rewrite !length_app, length_drop.
  destruct (decide (length l <= n)%nat) as [Hle|Hgt].
  - replace (length l - n)%nat with 0%nat by lia. rewrite drop_0.
    f_equal. lia.
  - replace (length l - (length l - n) + length rest - n)%nat
      with (length rest) by lia.
    replace (length l + length rest - n)%nat
      with ((length l - n) + length rest)%nat by lia.
    rewrite <- drop_drop. rewrite (drop_app_le l rest) by lia. reflexivity.
Qed.

Lemma latest_step {A} (m : Z) (u : list A) (action : A) :
  0 <= m -> Z.of_nat (length u) <= m ->
  (if Z.of_nat (length (u ++ [action])) >? m then tail (u ++ [action])
   else u ++ [action])
  = latest (Z.to_nat m) (u ++ [action]).
Proof.
  intros Hm Hu. unfold latest. rewrite length_app. simpl.
  destruct (Z.of_nat (length u + 1) >? m) eqn:Hover.
  - apply Z.gtb_lt in Hover.
    replace (length u + 1 - Z.to_nat m)%nat with 1%nat by lia.
    destruct (u ++ [action]); reflexivity.
  - assert (Z.of_nat (length u + 1) <= m) by (destruct (Z.gtb_spec (Z.of_nat (length u + 1)) m); [discriminate | lia]).
    replace (length u + 1 - Z.to_nat m)%nat with 0%nat by lia. reflexivity.
Qed.

Lemma length_latest {A} (n : nat) (l : list A) : (length (latest n l) <= n)%nat.
Proof. unfold latest. rewrite length_drop. lia. Qed.

(** X17: over any number of [addToHistory] calls, on a tree whose log is
    not longer than a bound [maxHistorySize] that is not negative, the log
    is never longer than the bound: after the calls it holds the most
    recent [maxHistorySize] entries of the old log followed by the actions
    added, oldest first, and the redo log is empty once a call was made. *)
Theorem history_keeps_latest (actions : list Value) sm (u : list Value) (m : Z) :
  history_field "undoStack" (state sm) = VArr u ->
  history_field "maxHistorySize" (state sm) = VNum m ->
  0 <= m -> Z.of_nat (length u) <= m ->
  exists kept,
    history_field "undoStack" (state (addToHistory_each actions sm)) = VArr kept /\
    kept = latest (Z.to_nat m) (u ++ actions) /\
    Z.of_nat (length kept) <= m /\
    history_field "maxHistorySize" (state (addToHistory_each actions sm)) = VNum m /\
    (actions <> [] ->
     history_field "redoStack" (state (addToHistory_each actions sm)) = VArr []).
Proof.
  intros Hu Hm Hpos. revert sm u Hu Hm.
  induction actions as [|action actions IH]; intros sm u Hu Hm Hlen.
  - exists u. simpl. split; [exact Hu|]. split.
    + rewrite app_nil_r. unfold latest.
      replace (length u - Z.to_nat m)%nat with 0%nat by lia. reflexivity.
    + split; [exact Hlen|]. split; [exact Hm|]. congruence.
  - destruct (addToHistory_step sm u m action Hu Hm) as (tree & Hrun & Hu1 & Hr1 & Hm1 & _).
    rewrite (latest_step m u action Hpos Hlen) in Hu1.
    assert (Hlen1 : Z.of_nat (length (latest (Z.to_nat m) (u ++ [action]))) <= m).
    { pose proof (length_latest (Z.to_nat m) (u ++ [action])). lia. }
    change (addToHistory_each (action :: actions) sm)
      with (addToHistory_each actions (snd (addToHistory action sm))).
    rewrite Hrun. cbn [snd].
    destruct (IH (after_write sm tree) _ Hu1 Hm1 Hlen1)
      as (kept & Hk & Heq & Hklen & Hkm & Hkr).
    exists kept. split; [exact Hk|]. split.
    + rewrite Heq, latest_latest, <- app_assoc. reflexivity.
    + split; [exact Hklen|]. split; [exact Hkm|]. intros _.
      destruct actions as [|a actions]; [exact Hr1 | apply Hkr; discriminate].
Qed.

(** X18: right after [addToHistory], on a tree with a bound of at least
    one, [redo] has nothing to give back (it answers [null] and changes
    nothing), and [undo] answers the action just added and moves it from
    the end of the log to the redo log, which then holds it alone. *)
Theorem addToHistory_then_undo sm (u : list Value) (m : Z) (action : Value) :
  history_field "undoStack" (state sm) = VArr u ->
  history_field "maxHistorySize" (state sm) = VNum m ->
  1 <= m ->
  exists sm1 sm2 rest,
    addToHistory action sm = (Ret tt, sm1) /\
    history_field "undoStack" (state sm1) = VArr (rest ++ [action]) /\
    redo sm1 = (Ret VNull, sm1) /\
    undo sm1 = (Ret action, sm2) /\
    history_field "undoStack" (state sm2) = VArr rest /\
    history_field "redoStack" (state sm2) = VArr [action].
Proof.
  intros Hu Hm Hpos.
  destruct (addToHistory_step sm u m action Hu Hm) as (tree & Hrun & Hu1 & Hr1 & Hm1 & _).
  set (rest := if Z.of_nat (length (u ++ [action])) >? m then tail u else u).
  assert (Hrest : (if Z.of_nat (length (u ++ [action])) >? m
                   then tail (u ++ [action]) else u ++ [action]) = rest ++ [action]).
  { unfold rest. destruct (Z.of_nat (length (u ++ [action])) >? m) eqn:Hover;
      [|reflexivity].
    apply Z.gtb_lt in Hover. rewrite length_app in Hover. simpl in Hover.
    destruct u as [|x u]; [simpl in Hover; lia | reflexivity]. }
  rewrite Hrest in Hu1.
  destruct (undo_step (after_write sm tree) rest action [] Hu1 Hr1)
    as (tree2 & Hundo & Hu2 & Hr2).
  exists (after_write sm tree), (after_write (after_write sm tree) tree2), rest.
  split; [exact Hrun|]. split; [exact Hu1|].
  split; [exact (redo_empty (after_write sm tree) Hr1)|]. split; [exact Hundo|].
  split; [exact Hu2 | exact Hr2].
Qed.

(** X19: when the redo log is not empty, [redo] answers its last entry and
    moves it to the end of the log, and [undo] right after answers the
    same entry and leaves the whole tree as it was before the [redo]. *)
Theorem redo_then_undo sm (u : list Value) (action : Value) (r : list Value) :
  history_field "undoStack" (state sm) = VArr u ->
  history_field "redoStack" (state sm) = VArr (r ++ [action]) ->
  exists tree,
    redo sm = (Ret action, after_write sm tree) /\
    history_field "undoStack" tree = VArr (u ++ [action]) /\
    history_field "redoStack" tree = VArr r /\
    undo (after_write sm tree)
    = (Ret action, after_write (after_write sm tree) (state sm)).
Proof.
  intros Hu Hr.
  destruct (history_fields _ _ _ Hu ltac:(discriminate) Hr ltac:(discriminate))
    as (fs0 & hs & Hst & Hh & Hus & Hrs).
  eexists. split; [exact (redo_run sm fs0 hs u action r Hst Hh Hus Hrs)|].
  unfold moved. rewrite !history_field_set. split; [|split].
  - rewrite assoc_set_eq. reflexivity.
  - rewrite assoc_set_ne by discriminate. rewrite assoc_set_eq. reflexivity.
  - set (hs1 := assoc_set "undoStack" (VArr (u ++ [action]))
                  (assoc_set "redoStack" (VArr r) hs)).
    set (fs1 := assoc_set "history" (VObj hs1) fs0).
    rewrite (undo_run (after_write sm (VObj fs1)) fs1 hs1 u action r).
    + f_equal. f_equal. rewrite Hst. f_equal. unfold moved, fs1, hs1.
      rewrite assoc_set_set, assoc_set_set.
      rewrite (assoc_set_comm "redoStack" "undoStack")
        by (try discriminate; rewrite assoc_set_eq; eauto).
      rewrite assoc_set_set.
      rewrite (assoc_set_same "redoStack" _ hs Hrs).
      rewrite (assoc_set_same "undoStack" _ hs Hus).
      apply assoc_set_same. exact Hh.
    + reflexivity.
    + unfold fs1. apply assoc_set_eq.
    + unfold hs1. apply assoc_set_eq.
    + unfold hs1. rewrite assoc_set_ne by discriminate. apply assoc_set_eq.
Qed.

(** *** What the setters leave in the tree *)

Lemma write_field sm path sec field value :
  split path = [sec; field] ->
  array_index sec = None -> String.eqb sec "length" = false ->
  is_object (own (state sm) sec) = true ->
  String.eqb field "__proto__" = false ->
  exists tree,
    setStateProperty path value sm = (Ret tt, after_write sm tree) /\
    is_object (own tree sec) = true /\
    own (own tree sec) field = value /\
    (forall field', field <> field' ->
       own (own tree sec) field' = own (own (state sm) sec) field') /\
    (forall k, k <> sec -> own tree k = own (state sm) k).
Proof.
  intros Hsplit Hi Hl Hobj Hfield.
  destruct (own_object _ _ Hi Hl Hobj) as (fs0 & fs & Hst & Hsec).
  eexists. split.
  - apply (setStateProperty_field sm path sec field value fs0 fs Hsplit Hst Hsec Hfield).
  - simpl. rewrite assoc_set_eq. simpl.
    split; [reflexivity|]. split; [rewrite assoc_set_eq; reflexivity|]. split.
    + intros field' Hne. rewrite assoc_set_ne by exact Hne.
      rewrite Hst. simpl. rewrite Hsec. reflexivity.
    + intros k Hne. rewrite assoc_set_ne by congruence. rewrite Hst. reflexivity.
Qed.

Lemma write_two_fields sm path1 path2 sec field1 field2 value1 value2 :
  split path1 = [sec; field1] -> split path2 = [sec; field2] ->
  array_index sec = None -> String.eqb sec "length" = false ->
  field1 <> field2 ->
  is_object (own (state sm) sec) = true ->
  String.eqb field1 "__proto__" = false -> String.eqb field2 "__proto__" = false ->
  exists sm',
    mthen (setStateProperty path1 value1) (fun _ => setStateProperty path2 value2) sm
    = (Ret tt, sm') /\
    own (own (state sm') sec) field1 = value1 /\
    own (own (state sm') sec) field2 = value2 /\
    (forall field', field1 <> field' -> field2 <> field' ->
       own (own (state sm') sec) field' = own (own (state sm) sec) field') /\
    (forall k, k <> sec -> own (state sm') k = own (state sm) k).
Proof.
  intros H1 H2 Hi Hl Hne Hobj Hf1 Hf2.
  destruct (write_field sm path1 sec field1 value1 H1 Hi Hl Hobj Hf1)
    as (tree1 & Hrun1 & Hobj1 & Hv1 & Hkeep1 & Hrest1).
  destruct (write_field (after_write sm tree1) path2 sec field2 value2 H2 Hi Hl Hobj1 Hf2)
    as (tree2 & Hrun2 & _ & Hv2 & Hkeep2 & Hrest2).
  cbn [state after_write] in Hkeep2, Hrest2.
  exists (after_write (after_write sm tree1) tree2).
  rewrite (mthen_ret _ _ _ _ _ Hrun1). split; [exact Hrun2|]. cbn [state after_write].
  split; [rewrite Hkeep2 by congruence; exact Hv1|]. split; [exact Hv2|]. split.
  - intros field' Hn1 Hn2. rewrite Hkeep2 by exact Hn2. apply Hkeep1. exact Hn1.
  - intros k Hk. rewrite Hrest2 by exact Hk. apply Hrest1. exact Hk.
Qed.

(** X20: [setCurrentTool] leaves the tool it is given in both
    [tools.currentTool] and [tools.lastUsedTool], so that the tool used
    before is in neither; [setCurrentLayerId] does the same with
    [layers.currentLayerId] and [layers.lastActiveLayer].  The other
    fields of the section and the other sections stay. *)
Theorem setters_of_two_fields sm (value : Value) :
  (is_object (own (state sm) "tools") = true ->
   exists sm',
     setCurrentTool value sm = (Ret tt, sm') /\
     own (own (state sm') "tools") "currentTool" = value /\
     own (own (state sm') "tools") "lastUsedTool" = value /\
     (forall field, "currentTool" <> field -> "lastUsedTool" <> field ->
        own (own (state sm') "tools") field = own (own (state sm) "tools") field) /\
     (forall k, k <> "tools" -> own (state sm') k = own (state sm) k)) /\
  (is_object (own (state sm) "layers") = true ->
   exists sm',
     setCurrentLayerId value sm = (Ret tt, sm') /\
     own (own (state sm') "layers") "currentLayerId" = value /\
     own (own (state sm') "layers") "lastActiveLayer" = value /\
     (forall field, "currentLayerId" <> field -> "lastActiveLayer" <> field ->
        own (own (state sm') "layers") field = own (own (state sm) "layers") field) /\
     (forall k, k <> "layers" -> own (state sm') k = own (state sm) k)).
Proof.
  split; intros Hobj.
  - apply (write_two_fields sm "tools.currentTool" "tools.lastUsedTool" "tools"
             "currentTool" "lastUsedTool" value value); try reflexivity;
      [discriminate | exact Hobj].
  - apply (write_two_fields sm "layers.currentLayerId" "layers.lastActiveLayer" "layers"
             "currentLayerId" "lastActiveLayer" value value); try reflexivity;
      [discriminate | exact Hobj].
Qed.

Lemma round_double_exact (n : Z) :
  - 2 ^ 53 <= n < 2 ^ 53 -> round_double (n + 1) = n + 1.
Proof.
  intros Hn. destruct (Z.eq_dec (n + 1) (2 ^ 53)) as [->|Hne]; [reflexivity|].
  unfold round_double. cbv zeta.
  destruct (Z.ltb_spec (Z.abs (n + 1)) (2 ^ 53)) as [_|Hge]; [reflexivity|].
  change (2 ^ 53) with 9007199254740992 in *. lia.
Qed.

Lemma incrementLayerCount_run sm (n : Z) :
  own (own (state sm) "layers") "layerCount" = VNum n ->
  exists tree,
    incrementLayerCount sm = (Ret tt, after_write sm tree) /\
    own (own tree "layers") "layerCount" = VNum (round_double (n + 1)) /\
    (forall field, "layerCount" <> field ->
       own (own tree "layers") field = own (own (state sm) "layers") field) /\
    (forall k, k <> "layers" -> own tree k = own (state sm) k).
Proof.
  intros Hn.
  assert (Hobj : is_object (own (state sm) "layers") = true).
  { destruct (own_named _ "layerCount" _ eq_refl eq_refl Hn) as (fs & -> & _);
      [discriminate | reflexivity]. }
  destruct (write_field sm "layers.layerCount" "layers" "layerCount"
              (VNum (round_double (n + 1))) eq_refl eq_refl eq_refl Hobj eq_refl)
    as (tree1 & Hrun1 & _ & Hv1 & Hkeep1 & Hrest1).
  exists tree1. split; [|auto].
  unfold incrementLayerCount.
  rewrite (mthen_ret _ _ _ _ _ (getStateProperty_descend sm "layers.layerCount" eq_refl)).
  change (descend (state sm) (split "layers.layerCount"))
    with (own (own (state sm) "layers") "layerCount").
  rewrite Hn. cbn [js_add1]. rewrite mthen_lift_ret. exact Hrun1.
Qed.

(** X21: on a tree whose two object counters hold numbers,
    [incrementObjectCount] sets both [objects.objectCount] and
    [objects.totalObjectsCreated] to the double nearest to the counter
    plus one and leaves the rest of the tree; [incrementLayerCount] does
    the same with [layers.layerCount].  That double is the counter plus
    one for a counter from -2^53 to 2^53 - 1; a counter of 2^53, which the
    constructor loads from a snapshot as any other number, is not raised:
    the call returns and the counter is 2^53 as before. *)
Theorem counters_raised_by_one sm :
  (forall n t,
     own (own (state sm) "objects") "objectCount" = VNum n ->
     own (own (state sm) "objects") "totalObjectsCreated" = VNum t ->
     exists sm',
       incrementObjectCount sm = (Ret tt, sm') /\
       own (own (state sm') "objects") "objectCount" = VNum (round_double (n + 1)) /\
       own (own (state sm') "objects") "totalObjectsCreated"
       = VNum (round_double (t + 1)) /\
       (- 2 ^ 53 <= n < 2 ^ 53 ->
        own (own (state sm') "objects") "objectCount" = VNum (n + 1)) /\
       (- 2 ^ 53 <= t < 2 ^ 53 ->
        own (own (state sm') "objects") "totalObjectsCreated" = VNum (t + 1)) /\
       (forall field, "objectCount" <> field -> "totalObjectsCreated" <> field ->
          own (own (state sm') "objects") field = own (own (state sm) "objects") field) /\
       (forall k, k <> "objects" -> own (state sm') k = own (state sm) k)) /\
  (forall n,
     own (own (state sm) "layers") "layerCount" = VNum n ->
     exists sm',
       incrementLayerCount sm = (Ret tt, sm') /\
       own (own (state sm') "layers") "layerCount" = VNum (round_double (n + 1)) /\
       (- 2 ^ 53 <= n < 2 ^ 53 ->
        own (own (state sm') "layers") "layerCount" = VNum (n + 1)) /\
       (n = 2 ^ 53 ->
        own (own (state sm') "layers") "layerCount" = VNum n) /\
       (forall field, "layerCount" <> field ->
          own (own (state sm') "layers") field = own (own (state sm) "layers") field) /\
       (forall k, k <> "layers" -> own (state sm') k = own (state sm) k)).
Proof.
  split.
  - intros n t Hn Ht.
    assert (Hobj : is_object (own (state sm) "objects") = true).
    { destruct (own_named _ "objectCount" _ eq_refl eq_refl Hn) as (fs & -> & _);
        [discriminate | reflexivity]. }
    destruct (write_field sm "objects.objectCount" "objects" "objectCount"
                (VNum (round_double (n + 1))) eq_refl eq_refl eq_refl Hobj eq_refl)
      as (tree1 & Hrun1 & Hobj1 & Hv1 & Hkeep1 & Hrest1).
    destruct (write_field (after_write sm tree1) "objects.totalObjectsCreated" "objects"
                "totalObjectsCreated" (VNum (round_double (t + 1)))
                eq_refl eq_refl eq_refl Hobj1 eq_refl)
      as (tree2 & Hrun2 & _ & Hv2 & Hkeep2 & Hrest2).
    cbn [state after_write] in Hkeep2, Hrest2.
    exists (after_write (after_write sm tree1) tree2). split.
    { unfold incrementObjectCount.
      rewrite (mthen_ret _ _ _ _ _ (getStateProperty_descend sm "objects.objectCount" eq_refl)).
      change (descend (state sm) (split "objects.objectCount"))
        with (own (own (state sm) "objects") "objectCount").
      rewrite Hn. cbn [js_add1]. rewrite mthen_lift_ret.
      rewrite (mthen_ret _ _ _ _ _ Hrun1).
      rewrite (mthen_ret _ _ _ _ _
                 (getStateProperty_descend _ "objects.totalObjectsCreated" eq_refl)).
      change (descend (state (after_write sm tree1)) (split "objects.totalObjectsCreated"))
        with (own (own tree1 "objects") "totalObjectsCreated").
      rewrite Hkeep1 by discriminate. rewrite Ht. cbn [js_add1]. rewrite mthen_lift_ret.
      exact Hrun2. }
    cbn [state after_write].
    assert (Hc1 : own (own tree2 "objects") "objectCount" = VNum (round_double (n + 1))).
    { rewrite Hkeep2 by discriminate. exact Hv1. }
    split; [exact Hc1|]. split; [exact Hv2|].
    split; [intros Hr; rewrite Hc1, (round_double_exact n Hr); reflexivity|].
    split; [intros Hr; rewrite Hv2, (round_double_exact t Hr); reflexivity|]. split.
    + intros field Hn1 Hn2. rewrite Hkeep2 by exact Hn2. apply Hkeep1. exact Hn1.
    + intros k Hk. rewrite Hrest2 by exact Hk. apply Hrest1. exact Hk.
  - intros n Hn.
    destruct (incrementLayerCount_run sm n Hn) as (tree & Hrun & Hv & Hkeep & Hrest).
    exists (after_write sm tree). cbn [state after_write].
    split; [exact Hrun|]. split; [exact Hv|].
    split; [intros Hr; rewrite Hv, (round_double_exact n Hr); reflexivity|].
    split; [intros ->; rewrite Hv; reflexivity|]. auto.
Qed.


(** *** A snapshot without a history *)

(** X23: the constructor takes a snapshot that is truthy as the whole
    tree and fills in nothing from the defaults.  On a snapshot that has
    no [history] (or holds [null] there), [addToHistory], [undo] and [redo]
    raise a TypeError and leave the instance untouched. *)
Theorem constructor_keeps_snapshot (now : string) (snapshot : Value) :
  truthy snapshot = true ->
  own snapshot "history" = VUndefined \/ own snapshot "history" = VNull ->
  let sm := constructor now (Some snapshot) in
  state sm = snapshot /\
  (forall action, addToHistory action sm = (Throw, sm)) /\
  undo sm = (Throw, sm) /\ redo sm = (Throw, sm).
Proof.
  intros Htruthy Hmissing sm.
  assert (Hst : state sm = snapshot).
  { unfold sm, constructor. rewrite Htruthy. reflexivity. }
  assert (Hget : get_member (own (state sm) "history") "undoStack" = Throw /\
                 get_member (own (state sm) "history") "redoStack" = Throw).
  { rewrite Hst. destruct Hmissing as [-> | ->]; split; reflexivity. }
  destruct Hget as [Hu Hr].
  split; [exact Hst|]. split; [|split].
  - intros action. unfold addToHistory.
    rewrite (mthen_ret _ _ _ _ _ (getStateProperty_descend sm "history" eq_refl)).
    change (descend (state sm) (split "history")) with (own (state sm) "history").
    unfold mthen at 1, lift at 1. rewrite Hu. reflexivity.
  - unfold undo.
    rewrite (mthen_ret _ _ _ _ _ (getStateProperty_descend sm "history" eq_refl)).
    change (descend (state sm) (split "history")) with (own (state sm) "history").
    unfold mthen at 1, lift at 1. rewrite Hu. reflexivity.
  - unfold redo.
    rewrite (mthen_ret _ _ _ _ _ (getStateProperty_descend sm "history" eq_refl)).
    change (descend (state sm) (split "history")) with (own (state sm) "history").
    unfold mthen at 1, lift at 1. rewrite Hr. reflexivity.
Qed.

(** *** The theorems at work *)

Lemma setStateProperty_then_get_witness :
  let sm := constructor "" None in
  let sm' := snd (setStateProperty "scene.backgroundColor" (VStr "#000000") sm) in
  no_inherited (split "scene.backgroundColor") = true /\
  setStateProperty "scene.backgroundColor" (VStr "#000000") sm = (Ret tt, sm') /\
  getStateProperty "scene.backgroundColor" sm' = (Ret (VStr "#000000"), sm') /\
  sm' = after_write sm (state sm').
Proof.
  cbv zeta. split; [reflexivity|]. split; [reflexivity|].
  apply (setStateProperty_then_get (constructor "" None));  reflexivity.
Defined.

Lemma setStateProperty_missing_parent_witness :
  let sm := constructor "" None in
  no_inherited (split "camera.zoom.level") = true /\
  split "camera.zoom.level" = [] ++ "camera" :: ["zoom"; "level"] /\
  container (descend (state sm) ([] ++ ["camera"])) = false /\
  setStateProperty "camera.zoom.level" (VNum 2) sm = (Throw, sm) /\
  fst (getStateProperty "camera.zoom.level" sm)
  = Ret (descend (state sm) (split "camera.zoom.level")).
Proof.
  cbv zeta. split; [reflexivity|]. split; [reflexivity|]. split; [reflexivity|].
  apply (setStateProperty_missing_parent (constructor "" None) "camera.zoom.level"
           (VNum 2) [] "camera" ["zoom"; "level"]);
    [reflexivity | reflexivity | discriminate | reflexivity].
Defined.

Lemma updateState_shallow_witness :
  let sm := constructor "" None in
  let partial := [("scene", VObj [("backgroundColor", VStr "#000000")])] in
  NoDup (fst <$> partial) /\
  exists tree,
    updateState (VObj partial) sm = (Ret tt, after_write sm tree) /\
    forall k,
      own tree k
      = match assoc k partial with Some v => v | None => own (state sm) k end.
Proof.
  cbv zeta. split; [apply NoDup_singleton|].
  apply (updateState_shallow (constructor "" None) _ _ eq_refl).
  apply NoDup_singleton.
Defined.

Lemma updatePerformanceMetrics_merges_witness :
  let sm := constructor "" None in
  let ms := [("averageFPS", VNum 30)] in
  NoDup (fst <$> ms) /\
  exists tree,
    updatePerformanceMetrics (VObj ms) sm = (Ret tt, after_write sm tree) /\
    (forall k,
       own (own tree "performance") k
       = match assoc k ms with
         | Some v => v
         | None => own (own (state sm) "performance") k
         end) /\
    (forall k, k <> "performance" -> own tree k = own (state sm) k).
Proof.
  cbv zeta. split; [apply NoDup_singleton|].
  apply (updatePerformanceMetrics_merges (constructor "" None) _ _ _ eq_refl eq_refl).
  apply NoDup_singleton.
Defined.

Lemma history_keeps_latest_witness :
  let sm := constructor "" None in
  let actions := [VStr "add_cube"; VStr "add_layer"] in
  history_field "undoStack" (state sm) = VArr [] /\
  history_field "maxHistorySize" (state sm) = VNum 50 /\
  exists kept,
    history_field "undoStack" (state (addToHistory_each actions sm)) = VArr kept /\
    kept = latest (Z.to_nat 50) ([] ++ actions) /\
    Z.of_nat (length kept) <= 50 /\
    history_field "maxHistorySize" (state (addToHistory_each actions sm)) = VNum 50 /\
    (actions <> [] ->
     history_field "redoStack" (state (addToHistory_each actions sm)) = VArr []).
Proof.
  cbv zeta. split; [reflexivity|]. split; [reflexivity|].
  apply (history_keeps_latest _ (constructor "" None) [] 50);
    [reflexivity | reflexivity | lia | simpl; lia].
Defined.

Lemma addToHistory_then_undo_witness :
  let sm := constructor "" None in
  history_field "undoStack" (state sm) = VArr [] /\
  history_field "maxHistorySize" (state sm) = VNum 50 /\
  exists sm1 sm2 rest,
    addToHistory (VStr "add_cube") sm = (Ret tt, sm1) /\
    history_field "undoStack" (state sm1) = VArr (rest ++ [VStr "add_cube"]) /\
    redo sm1 = (Ret VNull, sm1) /\
    undo sm1 = (Ret (VStr "add_cube"), sm2) /\
    history_field "undoStack" (state sm2) = VArr rest /\
    history_field "redoStack" (state sm2) = VArr [VStr "add_cube"].
Proof.
  cbv zeta. split; [reflexivity|]. split; [reflexivity|].
  apply (addToHistory_then_undo (constructor "" None) [] 50);
    [reflexivity | reflexivity | lia].
Defined.

Lemma redo_then_undo_witness :
  let action := VStr "add_cube" in
  let sm := snd (undo (snd (addToHistory action (constructor "" None)))) in
  history_field "undoStack" (state sm) = VArr [] /\
  history_field "redoStack" (state sm) = VArr ([] ++ [action]) /\
  exists tree,
    redo sm = (Ret action, after_write sm tree) /\
    history_field "undoStack" tree = VArr ([] ++ [action]) /\
    history_field "redoStack" tree = VArr [] /\
    undo (after_write sm tree)
    = (Ret action, after_write (after_write sm tree) (state sm)).
Proof.
  cbv zeta. split; [reflexivity|]. split; [reflexivity|].
  apply (redo_then_undo
           (snd (undo (snd (addToHistory (VStr "add_cube") (constructor "" None)))))
           [] (VStr "add_cube") []);
    reflexivity.
Defined.

Lemma counters_raised_by_one_witness :
  let sm := constructor "" None in
  let full :=
    constructor "" (Some (VObj [("layers", VObj [("layerCount", VNum (2 ^ 53))])])) in
  (exists sm',
     incrementObjectCount sm = (Ret tt, sm') /\
     own (own (state sm') "objects") "objectCount" = VNum 1 /\
     own (own (state sm') "objects") "totalObjectsCreated" = VNum 1) /\
  (exists sm',
     incrementLayerCount sm = (Ret tt, sm') /\
     own (own (state sm') "layers") "layerCount" = VNum 2) /\
  (exists sm',
     incrementLayerCount full = (Ret tt, sm') /\
     own (own (state sm') "layers") "layerCount" = VNum (2 ^ 53)).
Proof.
  cbv zeta. split; [|split].
  - destruct (proj1 (counters_raised_by_one (constructor "" None)) 0 0 eq_refl eq_refl)
      as (sm' & Hrun & _ & _ & Hn & Ht & _).
    exists sm'. split; [exact Hrun|]. split; [apply Hn; lia | apply Ht; lia].
  - destruct (proj2 (counters_raised_by_one (constructor "" None)) 1 eq_refl)
      as (sm' & Hrun & _ & Hn & _).
    exists sm'. split; [exact Hrun | apply Hn; lia].
  - destruct (proj2 (counters_raised_by_one
                       (constructor ""
                          (Some (VObj [("layers", VObj [("layerCount", VNum (2 ^ 53))])]))))
                (2 ^ 53) eq_refl)
      as (sm' & Hrun & _ & _ & Hfull & _).
    exists sm'. split; [exact Hrun | apply Hfull; reflexivity].
Defined.

Lemma constructor_keeps_snapshot_witness :
  let snapshot := VObj [("scene", VObj [])] in
  let sm := constructor "" (Some snapshot) in
  truthy snapshot = true /\
  own snapshot "history" = VUndefined /\
  state sm = snapshot /\
  (forall action, addToHistory action sm = (Throw, sm)) /\
  undo sm = (Throw, sm) /\ redo sm = (Throw, sm).
Proof.
  cbv zeta. split; [reflexivity|]. split; [reflexivity|].
  apply (constructor_keeps_snapshot "" (VObj [("scene", VObj [])]));
    [reflexivity | left; reflexivity].
Defined.

End StateManagerMore.

(** ** The camera manager *)

Module CameraManagerFacts.
Import CameraManager.

Lemma updateCameraPosition_angle cm :
  currentCameraAngle (updateCameraPosition cm) = currentCameraAngle cm.
Proof.
  destruct cm as [angle p]. unfold updateCameraPosition. simpl.
  repeat case_match; reflexivity.
Qed.

Lemma rotateClockwise_angle cm :
  currentCameraAngle (rotateClockwise cm) = Z.rem (currentCameraAngle cm + 90) 360.
Proof. unfold rotateClockwise. rewrite updateCameraPosition_angle. reflexivity. Qed.

Lemma rotateCounterClockwise_angle cm :
  currentCameraAngle (rotateCounterClockwise cm)
  = Z.rem (currentCameraAngle cm - 90 + 360) 360.
Proof. unfold rotateCounterClockwise. rewrite updateCameraPosition_angle. reflexivity. Qed.

(** X24: on an angle from 0 up to 360 the two rotations undo each other
    and four rotations the same way give the angle back, and the angle
    stays in that range.  On one of the four quarter angles the coordinates
    that [updateCameraPosition] has written come back too, so that the
    whole instance is as before. *)
Theorem rotations_undo_each_other (cm : CameraManager) :
  0 <= currentCameraAngle cm < 360 ->
  0 <= currentCameraAngle (rotateClockwise cm) < 360 /\
  0 <= currentCameraAngle (rotateCounterClockwise cm) < 360 /\
  currentCameraAngle (rotateCounterClockwise (rotateClockwise cm))
  = currentCameraAngle cm /\
  currentCameraAngle (rotateClockwise (rotateCounterClockwise cm))
  = currentCameraAngle cm /\
  currentCameraAngle
    (rotateClockwise (rotateClockwise (rotateClockwise (rotateClockwise cm))))
  = currentCameraAngle cm /\
  (quarter (currentCameraAngle cm) ->
   rotateCounterClockwise (rotateClockwise (init cm)) = init cm /\
   rotateClockwise (rotateCounterClockwise (init cm)) = init cm /\
   rotateClockwise (rotateClockwise (rotateClockwise (rotateClockwise (init cm))))
   = init cm).
Proof.
  intros Hrange.
  rewrite !rotateClockwise_angle, !rotateCounterClockwise_angle, !rotateClockwise_angle.
  split; [Z.to_euclidean_division_equations; lia|].
  split; [Z.to_euclidean_division_equations; lia|].
  split; [Z.to_euclidean_division_equations; lia|].
  split; [Z.to_euclidean_division_equations; lia|].
  split; [Z.to_euclidean_division_equations; lia|].
  intros Hq. destruct cm as [angle p]. simpl in Hq.
  destruct Hq as [-> | [-> | [-> | ->]]]; repeat split; reflexivity.
Qed.

(** X25: [setAngle] reduces the angle with [%], which keeps the sign: an
    angle that is not negative comes out from 0 up to 360, a negative one
    comes out from -360 up to 0, and one between -360 and 0 is stored as it
    is.  The coordinates are written for the four quarter angles only, so
    that after [setAngle] of any other angle, and of every negative angle
    above -360, the camera is where it was. *)
Theorem setAngle_keeps_the_sign (angle : Z) (cm : CameraManager) :
  (0 <= angle -> 0 <= currentCameraAngle (setAngle angle cm) < 360) /\
  (angle < 0 -> -360 < currentCameraAngle (setAngle angle cm) <= 0) /\
  (~ quarter (Z.rem angle 360) -> position (setAngle angle cm) = position cm) /\
  (-360 < angle < 0 -> setAngle angle cm = set_currentCameraAngle angle cm).
Proof.
  assert (Hangle : currentCameraAngle (setAngle angle cm) = Z.rem angle 360).
  { unfold setAngle. rewrite updateCameraPosition_angle. reflexivity. }
  assert (Hkeep : forall a, ~ quarter a ->
            updateCameraPosition (set_currentCameraAngle a cm)
            = set_currentCameraAngle a cm).
  { intros a Hq. unfold updateCameraPosition, quarter in *. simpl.
    repeat case_match; try reflexivity; exfalso; apply Hq; lia. }
  rewrite Hangle. split; [|split; [|split]].
  - intros H. Z.to_euclidean_division_equations. lia.
  - intros H. Z.to_euclidean_division_equations. lia.
  - intros Hq. unfold setAngle. rewrite (Hkeep _ Hq). reflexivity.
  - intros H. unfold setAngle.
    assert (Z.rem angle 360 = angle) as -> by (Z.to_euclidean_division_equations; lia).
    apply Hkeep. unfold quarter. lia.
Qed.

(** *** The theorem at work *)

Lemma rotations_undo_each_other_witness :
  let cm := init (constructor (0, 0, 0) 270) in
  0 <= currentCameraAngle cm < 360 /\
  currentCameraAngle (rotateClockwise cm) = 0 /\
  currentCameraAngle (rotateCounterClockwise (rotateClockwise cm)) = 270 /\
  rotateClockwise (rotateClockwise (rotateClockwise (rotateClockwise (init cm))))
  = init cm.
Proof.
  cbv zeta.
  assert (Hrange : 0 <= currentCameraAngle (init (constructor (0, 0, 0) 270)) < 360)
    by (simpl; lia).
  split; [exact Hrange|]. split; [reflexivity|].
  destruct (rotations_undo_each_other (init (constructor (0, 0, 0) 270)) Hrange)
    as (_ & _ & Hback & _ & _ & Hquarter).
  split; [exact Hback|].
  apply Hquarter. right. right. right. reflexivity.
Defined.

End CameraManagerFacts.

(** ** The handlers of the layer panel *)

Module AppFacts.
Import App.
Import StateManager StateManagerCalls StateManagerFacts StateManagerMore.

Lemma on_stateManager_ret {A} (m : Method StateManager.StateManager A) app a sm' :
  m (stateManager app) = (Ret a, sm') ->
  on_stateManager m app = (Ret a, mkApp (layerManager app) sm').
Proof. intros H. unfold on_stateManager. rewrite H. reflexivity. Qed.

Lemma on_layerManager_ret {A} (m : Method LayerManager.LayerManager A) app a lm' :
  m (layerManager app) = (Ret a, lm') ->
  on_layerManager m app = (Ret a, mkApp lm' (stateManager app)).
Proof. intros H. unfold on_layerManager. rewrite H. reflexivity. Qed.




(** X27: the change handler of the current-layer dropdown writes the id
    chosen to [layers.currentLayerId] and [layers.lastActiveLayer] of the
    state whether or not the layer manager has a layer of that id.  When
    it has one, that layer becomes current and the two stores name the
    same layer; when it has none, the layer manager is left as it was and
    the two stores differ unless the id was current already. *)
Theorem currentLayerDropdown_change_writes_both app (layerId : Z)
    (ls : list LayerManager.Layer) (u : list Value) (m : Z) :
  LayerManager.layers (layerManager app) = Some <$> ls ->
  is_object (own (state (stateManager app)) "layers") = true ->
  history_field "undoStack" (state (stateManager app)) = VArr u ->
  history_field "maxHistorySize" (state (stateManager app)) = VNum m ->
  exists app',
    currentLayerDropdown_change layerId app = (Ret tt, app') /\
    own (own (state (stateManager app')) "layers") "currentLayerId" = VNum layerId /\
    own (own (state (stateManager app')) "layers") "lastActiveLayer" = VNum layerId /\
    (layerId ∈ LayerManager.id <$> ls ->
     LayerManager.currentLayerId (layerManager app') = layerId /\ in_step app') /\
    (layerId ∉ LayerManager.id <$> ls ->
     layerManager app' = layerManager app /\
     (LayerManager.currentLayerId (layerManager app) <> layerId -> ~ in_step app')).
Proof.
  intros Hls Hobj Hu Hm.
  destruct (write_two_fields (stateManager app) "layers.currentLayerId"
              "layers.lastActiveLayer" "layers" "currentLayerId" "lastActiveLayer"
              (VNum layerId) (VNum layerId) eq_refl eq_refl eq_refl eq_refl
              ltac:(discriminate) Hobj eq_refl eq_refl)
    as (sm1 & Hrun1 & Hc1 & Hl1 & _ & Hrest1).
  assert (Hu1 : history_field "undoStack" (state sm1) = VArr u).
  { unfold history_field. rewrite Hrest1 by discriminate. exact Hu. }
  assert (Hm1 : history_field "maxHistorySize" (state sm1) = VNum m).
  { unfold history_field. rewrite Hrest1 by discriminate. exact Hm. }
  destruct (addToHistory_step sm1 u m
              (VObj [("action", VStr "change_layer"); ("layerId", VNum layerId)])
              Hu1 Hm1)
    as (tree2 & Hrun2 & _ & _ & _ & Hrest2).
  assert (Hset : exists b lm',
            LayerManager.setCurrentLayer layerId (layerManager app) = (Ret b, lm') /\
            (layerId ∈ LayerManager.id <$> ls ->
             LayerManager.currentLayerId lm' = layerId) /\
            (layerId ∉ LayerManager.id <$> ls -> lm' = layerManager app)).
  { destruct (LayerManagerFacts.id_split layerId ls)
      as [Habs | (pre & l & post & -> & Hpre & Hl)].
    - exists false, (layerManager app). split; [|split].
      + unfold LayerManager.setCurrentLayer, LayerManager.find. rewrite Hls.
        rewrite (LayerManagerFacts.js_find_absent _ _ _
                   (LayerManagerFacts.has_id_false _ _ Habs)).
        reflexivity.
      + intros Hin. exfalso. apply list_elem_of_fmap in Hin as (x & -> & Hx).
        rewrite Forall_forall in Habs. exact (Habs x Hx eq_refl).
      + reflexivity.
    - exists true, (LayerManager.set_currentLayerId layerId (layerManager app)).
      split; [|split].
      + unfold LayerManager.setCurrentLayer, LayerManager.find. rewrite Hls.
        rewrite (LayerManagerFacts.js_find_first _ 0 pre l post
                   (LayerManagerFacts.has_id_false _ _ Hpre))
          by (apply bool_decide_eq_true_2; exact Hl).
        reflexivity.
      + reflexivity.
      + intros Hnot. exfalso. apply Hnot. rewrite fmap_app, fmap_cons, Hl.
        apply elem_of_app. right. apply list_elem_of_here. }
  destruct Hset as (b & lm' & Hset & Hfound & Hmissing).
  exists (mkApp lm' (after_write sm1 tree2)). split.
  { unfold currentLayerDropdown_change.
    rewrite (mthen_ret _ _ _ _ _ (on_layerManager_ret _ app _ _ Hset)).
    unfold setCurrentLayerId.
    rewrite (mthen_ret _ _ _ _ _
               (on_stateManager_ret _ (mkApp lm' (stateManager app)) _ _ Hrun1)).
    apply (on_stateManager_ret _ (mkApp lm' sm1)). exact Hrun2. }
  cbn [layerManager stateManager state after_write].
  assert (Hc2 : own (own tree2 "layers") "currentLayerId" = VNum layerId).
  { rewrite Hrest2 by discriminate. exact Hc1. }
  split; [exact Hc2|].
  split; [rewrite Hrest2 by discriminate; exact Hl1|].
  unfold in_step. cbn [layerManager stateManager state after_write]. split.
  - intros Hin. rewrite (Hfound Hin). split; [reflexivity | exact Hc2].
  - intros Hnot. rewrite (Hmissing Hnot). split; [reflexivity|].
    intros Hne Hstep. rewrite Hc2 in Hstep. congruence.
Qed.

(** *** The theorems at work *)


Lemma currentLayerDropdown_change_writes_both_witness :
  let app := mkApp LayerManager.constructor (StateManager.constructor "" None) in
  LayerManager.layers (layerManager app)
  = Some <$> [LayerManager.mkLayer 1 "Layer 1" true []] /\
  is_object (own (state (stateManager app)) "layers") = true /\
  history_field "undoStack" (state (stateManager app)) = VArr [] /\
  history_field "maxHistorySize" (state (stateManager app)) = VNum 50 /\
  exists app',
    currentLayerDropdown_change 7 app = (Ret tt, app') /\
    own (own (state (stateManager app')) "layers") "currentLayerId" = VNum 7 /\
    own (own (state (stateManager app')) "layers") "lastActiveLayer" = VNum 7 /\
    layerManager app' = layerManager app /\ ~ in_step app'.
Proof.
  cbv zeta. split; [reflexivity|]. split; [reflexivity|]. split; [reflexivity|].
  split; [reflexivity|].
  destruct (currentLayerDropdown_change_writes_both
              (mkApp LayerManager.constructor (StateManager.constructor "" None))
              7 [LayerManager.mkLayer 1 "Layer 1" true []] [] 50
              eq_refl eq_refl eq_refl eq_refl)
    as (app' & Hrun & Hcur & Hlast & _ & Hmissing).
  assert (Hnot : 7 ∉ LayerManager.id <$> [LayerManager.mkLayer 1 "Layer 1" true []]).
  { intros Hin. apply list_elem_of_singleton in Hin. discriminate. }
  destruct (Hmissing Hnot) as [Hsame Hstep].
  exists app'. split; [exact Hrun|]. split; [exact Hcur|]. split; [exact Hlast|].
  split; [exact Hsame|]. apply Hstep. discriminate.
Defined.

End AppFacts.

(** ** The colour utilities of the scene manager *)

Module SceneManagerFacts.
Import SceneManager.

(** *** Printing and reading base 16 *)

Lemma hex_digit_hex_char (d : N) : (d < 16)%N -> hex_digit (hex_char d) = Some d.
Proof.
  intros H.
  assert (d = 0 \/ d = 1 \/ d = 2 \/ d = 3 \/ d = 4 \/ d = 5 \/ d = 6 \/ d = 7 \/
          d = 8 \/ d = 9 \/ d = 10 \/ d = 11 \/ d = 12 \/ d = 13 \/ d = 14 \/
          d = 15)%N as Hd by lia.
  repeat (destruct Hd as [-> | Hd]; [reflexivity|]). subst d. reflexivity.
Qed.

Lemma parse_hex_go (fuel : nat) (n : N) (s : string) :
  (n < 16 ^ N.of_nat fuel)%N ->
  parse_digits (hex_go fuel n s) 0 = parse_digits s n.
Proof.
  revert n s. induction fuel as [|fuel IH]; intros n s Hn.
  - simpl in Hn. assert (n = 0)%N as -> by lia. reflexivity.
  - cbn [hex_go]. destruct (N.eqb_spec n 0) as [->|Hne]; [reflexivity|].
    rewrite IH.
    + cbn [parse_digits]. rewrite hex_digit_hex_char by (apply N.mod_lt; lia).
      f_equal. rewrite (N.div_mod n 16) at 3 by lia. lia.
    + rewrite Nat2N.inj_succ, N.pow_succ_r' in Hn.
      apply N.Div0.div_lt_upper_bound. lia.
Qed.

Lemma all_hex_hex_go (fuel : nat) (n : N) (s : string) :
  all_hex s = true -> all_hex (hex_go fuel n s) = true.
Proof.
  revert n s. induction fuel as [|fuel IH]; intros n s Hs; [exact Hs|].
  cbn [hex_go]. destruct (n =? 0)%N; [exact Hs|].
  apply IH. cbn [all_hex]. rewrite hex_digit_hex_char by (apply N.mod_lt; lia).
  exact Hs.
Qed.

Lemma hex_go_nonempty (fuel : nat) (n : N) (s : string) :
  s <> EmptyString -> hex_go fuel n s <> EmptyString.
Proof.
  revert n s. induction fuel as [|fuel IH]; intros n s Hs; [exact Hs|].
  cbn [hex_go]. destruct (n =? 0)%N; [exact Hs|]. apply IH. discriminate.
Qed.

Lemma fuel_enough (n : N) : (n < 16 ^ N.of_nat (S (N.to_nat (N.log2 n))))%N.
Proof.
  rewrite Nat2N.inj_succ, N2Nat.id.
  destruct (N.eq_dec n 0) as [->|Hne]; [reflexivity|].
  destruct (N.log2_spec n) as [_ Hlt]; [lia|].
  eapply N.lt_le_trans; [exact Hlt|].
  apply N.pow_le_mono_l. lia.
Qed.

Lemma to_hex_spec (n : N) :
  parse_digits (to_hex n) 0 = n /\ all_hex (to_hex n) = true /\
  to_hex n <> EmptyString.
Proof.
  unfold to_hex. destruct (N.eqb_spec n 0) as [->|Hne].
  - repeat split. discriminate.
  - unfold hex_acc. split; [|split].
    + rewrite parse_hex_go by apply fuel_enough. reflexivity.
    + apply all_hex_hex_go. reflexivity.
    + cbn [hex_go]. destruct (N.eqb_spec n 0) as [|_]; [contradiction|].
      apply hex_go_nonempty. discriminate.
Qed.

Lemma pad_loop_spec (fuel : nat) (s : string) :
  all_hex s = true -> s <> EmptyString ->
  all_hex (pad_loop fuel s) = true /\ pad_loop fuel s <> EmptyString /\
  parse_digits (pad_loop fuel s) 0 = parse_digits s 0.
Proof.
  revert s. induction fuel as [|fuel IH]; intros s Hs Hne; [auto|].
  cbn [pad_loop]. destruct (String.length s <? 6)%nat; [|auto].
  destruct (IH (String "0"%char s)) as (H1 & H2 & H3); [exact Hs | discriminate|].
  auto.
Qed.

(** [parseInt] of a string of digits, with a sign or without *)

Lemma prefix_kept (s : string) :
  all_hex s = true ->
  match s with
  | String "0"%char (String "x"%char s') => s'
  | String "0"%char (String "X"%char s') => s'
  | _ => s
  end = s.
Proof.
  intros Hs. destruct s as [|c [|c' s]]; [reflexivity| |].
  - destruct c as [[] [] [] [] [] [] [] []]; reflexivity.
  - cbn [all_hex] in Hs. destruct (hex_digit c); [|discriminate].
    destruct (hex_digit c') eqn:Hc'; [|discriminate].
    destruct c as [[] [] [] [] [] [] [] []]; try reflexivity;
      destruct c' as [[] [] [] [] [] [] [] []]; try reflexivity; discriminate.
Qed.

Lemma parse_after_sign (sign : Z) (s : string) :
  all_hex s = true -> s <> EmptyString ->
  (let s3 :=
     match s with
     | String "0"%char (String "x"%char s') => s'
     | String "0"%char (String "X"%char s') => s'
     | _ => s
     end in
   match s3 with
   | String c _ =>
       match hex_digit c with
       | Some _ => Ret (Some (sign * Z.of_N (parse_digits s3 0)))
       | None => Ret None
       end
   | EmptyString => Ret None
   end) = Ret (Some (sign * Z.of_N (parse_digits s 0))).
Proof.
  intros Hs Hne. cbv zeta. rewrite (prefix_kept s Hs).
  destruct s as [|c s]; [contradiction|].
  cbn [all_hex] in Hs. destruct (hex_digit c); [reflexivity | discriminate].
Qed.

Lemma digit_first (s : string) :
  all_hex s = true -> s <> EmptyString ->
  skip_white_space s = Ret s /\
  match s with
  | String "-"%char s2 => (-1, s2)
  | String "+"%char s2 => (1, s2)
  | _ => (1, s)
  end = (1, s).
Proof.
  intros Hs Hne. destruct s as [|c s]; [contradiction|].
  cbn [all_hex] in Hs. destruct (hex_digit c) as [d|] eqn:Hc; [|discriminate].
  split; destruct c as [[] [] [] [] [] [] [] []]; try reflexivity;
    vm_compute in Hc; discriminate.
Qed.

Lemma parseInt16_digits (s : string) :
  all_hex s = true -> s <> EmptyString ->
  parseInt16 s = Ret (Some (Z.of_N (parse_digits s 0))).
Proof.
  intros Hs Hne. pose proof (parse_after_sign 1 s Hs Hne) as Hparse.
  destruct (digit_first s Hs Hne) as [Hskip Hsign].
  cbv zeta in Hparse.
  unfold parseInt16. rewrite Hskip, Hsign. cbv zeta. cbn [fst snd].
  rewrite Hparse. f_equal. f_equal. lia.
Qed.

Lemma parseInt16_negative (s : string) :
  all_hex s = true -> s <> EmptyString ->
  parseInt16 (String "-"%char s) = Ret (Some (- Z.of_N (parse_digits s 0))).
Proof.
  intros Hs Hne. pose proof (parse_after_sign (-1) s Hs Hne) as Hparse.
  cbv zeta in Hparse. unfold parseInt16.
  change (skip_white_space (String "-"%char s)) with (Ret (String "-"%char s)).
  cbv zeta. cbn [fst snd]. rewrite Hparse. f_equal; f_equal; lia.
Qed.

Lemma replace_hash_first (s : string) : replace_hash ("#" +:+ s) = s.
Proof. reflexivity. Qed.

Lemma hexToString_read_back (n : Z) :
  0 <= n -> stringToHex (hexToString (CNumber (Some n))) = Ret (Some n).
Proof.
  intros Hn. unfold stringToHex, hexToString. rewrite replace_hash_first.
  unfold toString16. destruct (Z.ltb_spec n 0) as [|_]; [lia|].
  destruct (to_hex_spec (Z.to_N n)) as (Hval & Hall & Hne).
  destruct (pad_loop_spec 6 (to_hex (Z.to_N n)) Hall Hne) as (Hall' & Hne' & Hval').
  rewrite (parseInt16_digits _ Hall' Hne'), Hval', Hval.
  rewrite Z2N.id by lia. reflexivity.
Qed.

(** *** The length of what is printed *)

Lemma length_hex_go_le (fuel : nat) (n : N) (s : string) (k : nat) :
  (n < 16 ^ N.of_nat k)%N ->
  (String.length (hex_go fuel n s) <= k + String.length s)%nat.
Proof.
  revert n s k. induction fuel as [|fuel IH]; intros n s k Hn; [simpl; lia|].
  cbn [hex_go]. destruct (N.eqb_spec n 0) as [->|Hne]; [lia|].
  destruct k as [|k]; [simpl in Hn; lia|].
  rewrite Nat2N.inj_succ, N.pow_succ_r' in Hn.
  assert (Hdiv : (n / 16 < 16 ^ N.of_nat k)%N)
    by (apply N.Div0.div_lt_upper_bound; lia).
  specialize (IH (n / 16)%N (String (hex_char (n mod 16)%N) s) k Hdiv).
  simpl String.length in IH. lia.
Qed.

Lemma length_hex_go_acc (fuel : nat) (n : N) (s : string) :
  (String.length s <= String.length (hex_go fuel n s))%nat.
Proof.
  revert n s. induction fuel as [|fuel IH]; intros n s; [simpl; lia|].
  cbn [hex_go]. destruct (n =? 0)%N; [lia|].
  specialize (IH (n / 16)%N (String (hex_char (n mod 16)%N) s)).
  simpl String.length in IH. lia.
Qed.

Lemma length_hex_go_ge (fuel : nat) (n : N) (s : string) (k : nat) :
  (16 ^ N.of_nat k <= n)%N -> (n < 16 ^ N.of_nat fuel)%N ->
  (S k + String.length s <= String.length (hex_go fuel n s))%nat.
Proof.
  revert n s k. induction fuel as [|fuel IH]; intros n s k Hk Hn.
  - simpl in Hn. assert (0 < 16 ^ N.of_nat k)%N
      by (pose proof (N.pow_nonzero 16 (N.of_nat k) ltac:(lia)); lia). lia.
  - cbn [hex_go].
    assert (0 < 16 ^ N.of_nat k)%N
      by (pose proof (N.pow_nonzero 16 (N.of_nat k) ltac:(lia)); lia).
    destruct (N.eqb_spec n 0) as [->|Hne]; [lia|].
    rewrite Nat2N.inj_succ, N.pow_succ_r' in Hn.
    assert (Hdiv : (n / 16 < 16 ^ N.of_nat fuel)%N)
      by (apply N.Div0.div_lt_upper_bound; lia).
    destruct k as [|k].
    + pose proof (length_hex_go_acc fuel (n / 16)%N (String (hex_char (n mod 16)%N) s))
        as Hacc.
      simpl String.length in Hacc. lia.
    + rewrite Nat2N.inj_succ, N.pow_succ_r' in Hk.
      assert (Hlow : (16 ^ N.of_nat k <= n / 16)%N)
        by (apply N.div_le_lower_bound; lia).
      specialize (IH (n / 16)%N (String (hex_char (n mod 16)%N) s) k Hlow Hdiv).
      simpl String.length in IH. lia.
Qed.

Lemma pad_loop_zeros (fuel : nat) (s : string) :
  exists k,
    pad_loop fuel s = Nat.iter k (String "0"%char) s /\
    ((String.length s < 6)%nat -> (0 < fuel)%nat -> (0 < k)%nat) /\
    ((6 <= String.length s)%nat -> k = 0%nat).
Proof.
  revert s. induction fuel as [|fuel IH]; intros s.
  - exists 0%nat. repeat split; lia.
  - cbn [pad_loop]. destruct (Nat.ltb_spec (String.length s) 6) as [Hlt|Hge].
    + destruct (IH (String "0"%char s)) as (k & Hk & _).
      exists (S k). rewrite Hk, Nat.iter_succ_r. repeat split; lia.
    + exists 0%nat. repeat split; lia.
Qed.

Lemma parse_zeros_then_minus (k : nat) (s : string) :
  parse_digits (Nat.iter k (String "0"%char) (String "-"%char s)) 0 = 0%N.
Proof.
  induction k as [|k IH]; [reflexivity|].
  cbn [Nat.iter parse_digits]. exact IH.
Qed.

Lemma parseInt16_zeros_then_minus (k : nat) (s : string) :
  parseInt16 (Nat.iter (S k) (String "0"%char) (String "-"%char s)) = Ret (Some 0).
Proof.
  pose proof (parse_zeros_then_minus (S k) s) as Hzero.
  destruct k as [|k]; [reflexivity|].
  rewrite !Nat.iter_succ in *.
  set (t := Nat.iter k (String "0"%char) (String "-"%char s)) in *.
  unfold parseInt16.
  change (skip_white_space (String "0"%char (String "0"%char t)))
    with (Ret (String "0"%char (String "0"%char t))).
  cbv zeta. cbn [fst snd]. change (hex_digit "0") with (Some 0%N). cbv iota.
  rewrite Hzero. reflexivity.
Qed.

(** X28: [stringToHex] reads back what [hexToString] prints for every
    integer from 0 below 2^53, and for the negative ones from -65536 down,
    whose text has six characters with the sign.  A negative integer above
    -65536 is padded with zeros in front of its sign and reads back as 0.
    A value that is no number is printed as [#000000]. *)
Theorem hexToString_then_stringToHex :
  (forall n : Z,
     0 <= n < 2 ^ 53 ->
     stringToHex (hexToString (CNumber (Some n))) = Ret (Some n)) /\
  (forall n : Z,
     - 2 ^ 53 < n <= -65536 ->
     stringToHex (hexToString (CNumber (Some n))) = Ret (Some n)) /\
  (forall n : Z,
     -65536 < n < 0 -> stringToHex (hexToString (CNumber (Some n))) = Ret (Some 0)) /\
  (forall s, hexToString (CString s) = "#000000") /\
  hexToString COther = "#000000".
Proof.
  split; [intros n [Hn _]; exact (hexToString_read_back n Hn)|].
  split; [|split; [|split; reflexivity]].
  - intros n [_ Hn]. unfold stringToHex, hexToString. rewrite replace_hash_first.
    unfold toString16. destruct (Z.ltb_spec n 0) as [_|]; [|lia].
    change ("-" +:+ to_hex (Z.to_N (- n))) with (String "-"%char (to_hex (Z.to_N (- n)))).
    destruct (to_hex_spec (Z.to_N (- n))) as (Hval & Hall & Hne).
    assert (Hlen : (5 <= String.length (to_hex (Z.to_N (- n))))%nat).
    { unfold to_hex. destruct (N.eqb_spec (Z.to_N (- n)) 0) as [|_]; [lia|].
      unfold hex_acc.
      pose proof (length_hex_go_ge _ (Z.to_N (- n)) "" 4
                    ltac:(simpl; lia) (fuel_enough _)) as H.
      change (String.length "") with 0%nat in H. lia. }
    destruct (pad_loop_zeros 6 (String "-"%char (to_hex (Z.to_N (- n)))))
      as (k & Hk & _ & Hzero).
    rewrite Hk, Hzero by (simpl; lia). change (Nat.iter 0 ?f ?x) with x.
    rewrite (parseInt16_negative _ Hall Hne), Hval. f_equal. f_equal. lia.
  - intros n Hn. unfold stringToHex, hexToString. rewrite replace_hash_first.
    unfold toString16. destruct (Z.ltb_spec n 0) as [_|]; [|lia].
    change ("-" +:+ to_hex (Z.to_N (- n))) with (String "-"%char (to_hex (Z.to_N (- n)))).
    assert (Hlen : (String.length (to_hex (Z.to_N (- n))) <= 4)%nat).
    { unfold to_hex. destruct (N.eqb_spec (Z.to_N (- n)) 0) as [|_]; [lia|].
      unfold hex_acc.
      pose proof (length_hex_go_le (S (N.to_nat (N.log2 (Z.to_N (- n)))))
                    (Z.to_N (- n)) "" 4 ltac:(simpl; lia)) as H.
      change (String.length "") with 0%nat in H. lia. }
    destruct (pad_loop_zeros 6 (String "-"%char (to_hex (Z.to_N (- n)))))
      as (k & Hk & Hpos & _).
    rewrite Hk. destruct k as [|k]; [exfalso; simpl in Hpos; lia|].
    apply parseInt16_zeros_then_minus.
Qed.

(** *** Three components in one number *)

Lemma hex_go_enough (f1 f2 : nat) (n : N) (s : string) :
  (n < 16 ^ N.of_nat f1)%N -> (n < 16 ^ N.of_nat f2)%N ->
  hex_go f1 n s = hex_go f2 n s.
Proof.
  revert f2 n s. induction f1 as [|f1 IH]; intros f2 n s H1 H2.
  - simpl in H1. assert (n = 0)%N as -> by lia. destruct f2; reflexivity.
  - destruct f2 as [|f2].
    + simpl in H2. assert (n = 0)%N as -> by lia. reflexivity.
    + cbn [hex_go]. destruct (n =? 0)%N; [reflexivity|].
      rewrite Nat2N.inj_succ, N.pow_succ_r' in H1, H2.
      apply IH; apply N.Div0.div_lt_upper_bound; lia.
Qed.

Lemma to_hex_seven (n : N) :
  (16 ^ 6 <= n < 2 * 16 ^ 6)%N ->
  exists digits,
    to_hex n = String "1"%char digits /\
    all_hex digits = true /\ String.length digits = 6%nat /\
    parse_digits digits 0 = (n - 16 ^ 6)%N.
Proof.
  intros Hn. unfold to_hex. destruct (N.eqb_spec n 0) as [|_]; [lia|].
  unfold hex_acc. rewrite (hex_go_enough _ 7 n "" (fuel_enough n)) by (simpl; lia).
  pose proof (to_hex_spec n) as (Hval & _ & _).
  unfold to_hex in Hval. destruct (N.eqb_spec n 0) as [|_]; [lia|].
  unfold hex_acc in Hval.
  rewrite (hex_go_enough _ 7 n "" (fuel_enough n)) in Hval by (simpl; lia).
  assert (H1 : (n / 16 <> 0)%N) by (intros H; apply N.div_small_iff in H; lia).
  assert (H2 : (n / 16 / 16 <> 0)%N)
    by (rewrite N.Div0.div_div; intros H; apply N.div_small_iff in H; lia).
  assert (H3 : (n / 16 / 16 / 16 <> 0)%N)
    by (rewrite !N.Div0.div_div; intros H; apply N.div_small_iff in H; lia).
  assert (H4 : (n / 16 / 16 / 16 / 16 <> 0)%N)
    by (rewrite !N.Div0.div_div; intros H; apply N.div_small_iff in H; lia).
  assert (H5 : (n / 16 / 16 / 16 / 16 / 16 <> 0)%N)
    by (rewrite !N.Div0.div_div; intros H; apply N.div_small_iff in H; lia).
  assert (H6 : (n / 16 / 16 / 16 / 16 / 16 / 16 = 1)%N).
  { rewrite !N.Div0.div_div. change (16 * 16 * 16 * 16 * 16 * 16)%N with (16 ^ 6)%N.
    symmetry. apply (N.div_unique n (16 ^ 6) 1 (n - 16 ^ 6)); lia. }
  revert Hval. cbn [hex_go].
  destruct (N.eqb_spec n 0) as [|_]; [lia|].
  destruct (N.eqb_spec (n / 16) 0) as [|_]; [contradiction|].
  destruct (N.eqb_spec (n / 16 / 16) 0) as [|_]; [contradiction|].
  destruct (N.eqb_spec (n / 16 / 16 / 16) 0) as [|_]; [contradiction|].
  destruct (N.eqb_spec (n / 16 / 16 / 16 / 16) 0) as [|_]; [contradiction|].
  destruct (N.eqb_spec (n / 16 / 16 / 16 / 16 / 16) 0) as [|_]; [contradiction|].
  rewrite H6. change (1 =? 0)%N with false. change (hex_char (1 mod 16)) with "1"%char.
  intros Hval. eexists. split; [reflexivity|].
  cbn [all_hex parse_digits String.length] in *.
  rewrite !hex_digit_hex_char in * by (apply N.mod_lt; lia).
  change (hex_digit "1") with (Some 1%N) in Hval. cbv iota in Hval.
  split; [reflexivity|]. split; [reflexivity|]. lia.
Qed.

Lemma to_int32_small (z : Z) : - 2 ^ 31 <= z < 2 ^ 31 -> to_int32 z = z.
Proof. intros H. unfold to_int32. rewrite Z.mod_small by lia. lia. Qed.

Lemma rgbToHex_digits (r g b : Z) :
  0 <= r <= 255 -> 0 <= g <= 255 -> 0 <= b <= 255 ->
  exists digits,
    rgbToHex r g b = String "#"%char digits /\
    all_hex digits = true /\ String.length digits = 6%nat /\
    Z.of_N (parse_digits digits 0) = 65536 * r + 256 * g + b.
Proof.
  intros Hr Hg Hb. unfold rgbToHex, shl.
  rewrite !(to_int32_small 1), !(to_int32_small r), !(to_int32_small g) by lia.
  rewrite !to_int32_small by lia.
  unfold toString16.
  destruct (Z.ltb_spec (1 * 2 ^ 24 + r * 2 ^ 16 + g * 2 ^ 8 + b) 0) as [|_]; [lia|].
  destruct (to_hex_seven (Z.to_N (1 * 2 ^ 24 + r * 2 ^ 16 + g * 2 ^ 8 + b)))
    as (digits & -> & Hall & Hlen & Hval); [lia|].
  cbn [slice1]. exists digits. split; [reflexivity|].
  split; [exact Hall|]. split; [exact Hlen|]. rewrite Hval. lia.
Qed.

Lemma stringToHex_digits (digits : string) :
  all_hex digits = true -> digits <> EmptyString ->
  stringToHex (String "#"%char digits) = Ret (Some (Z.of_N (parse_digits digits 0))).
Proof.
  intros Hall Hne. unfold stringToHex.
  change (replace_hash (String "#"%char digits)) with digits.
  exact (parseInt16_digits digits Hall Hne).
Qed.

(** X29: for three components from 0 to 255, [rgbToHex] prints [#] and six
    digits, and [stringToHex] reads them back as the number that has the
    components as its three bytes, from which the shifts and masks of
    [getComplementaryColor] get each component again. *)
Theorem rgbToHex_then_stringToHex (r g b : Z) :
  0 <= r <= 255 -> 0 <= g <= 255 -> 0 <= b <= 255 ->
  String.length (rgbToHex r g b) = 7%nat /\
  exists n,
    stringToHex (rgbToHex r g b) = Ret (Some n) /\
    n = 65536 * r + 256 * g + b /\
    band (sar n 16) 255 = r /\ band (sar n 8) 255 = g /\ band n 255 = b.
Proof.
  intros Hr Hg Hb.
  destruct (rgbToHex_digits r g b Hr Hg Hb) as (digits & -> & Hall & Hlen & Hval).
  split; [cbn [String.length]; rewrite Hlen; reflexivity|].
  exists (65536 * r + 256 * g + b).
  assert (Hne : digits <> EmptyString)
    by (destruct digits; [discriminate Hlen | discriminate]).
  split; [rewrite (stringToHex_digits digits Hall Hne), Hval; reflexivity|].
  split; [reflexivity|].
  unfold band, sar. rewrite !(to_int32_small (65536 * r + 256 * g + b)) by lia.
  rewrite !(to_int32_small 255) by lia.
  rewrite !Z.shiftr_div_pow2 by lia.
  assert (H16 : (65536 * r + 256 * g + b) / 2 ^ 16 = r)
    by (symmetry; apply (Z.div_unique _ _ r (256 * g + b)); lia).
  assert (H8 : (65536 * r + 256 * g + b) / 2 ^ 8 = 256 * r + g)
    by (symmetry; apply (Z.div_unique _ _ (256 * r + g) b); lia).
  rewrite H16, H8. rewrite !to_int32_small by lia.
  change 255 with (Z.ones 8). rewrite !Z.land_ones by lia.
  split; [apply Z.mod_small; lia|]. split.
  - symmetry. apply (Z.mod_unique _ _ r g); lia.
  - symmetry. apply (Z.mod_unique _ _ (256 * r + g) b); lia.
Qed.

Lemma complement_of_number (n : Z) :
  0 <= n < 2 ^ 24 ->
  exists s,
    getComplementaryColor (CNumber (Some n)) = Ret s /\
    stringToHex s = Ret (Some (16777215 - n)).
Proof.
  intros Hn. unfold getComplementaryColor. change (default 0 (Some n)) with n.
  cbv zeta. eexists. split; [reflexivity|].
  unfold band, sar. rewrite !(to_int32_small n) by lia.
  rewrite !(to_int32_small 255) by lia.
  rewrite !Z.shiftr_div_pow2 by lia.
  assert (H16 : 0 <= n / 2 ^ 16 < 256) by (split; [apply Z.div_pos | apply Z.div_lt_upper_bound]; lia).
  assert (H8 : 0 <= n / 2 ^ 8 < 2 ^ 16) by (split; [apply Z.div_pos | apply Z.div_lt_upper_bound]; lia).
  rewrite !to_int32_small by lia.
  change 255 with (Z.ones 8). rewrite !Z.land_ones by lia.
  change (Z.ones 8) with 255.
  pose proof (Z.mod_pos_bound (n / 2 ^ 16) (2 ^ 8) ltac:(lia)).
  pose proof (Z.mod_pos_bound (n / 2 ^ 8) (2 ^ 8) ltac:(lia)).
  pose proof (Z.mod_pos_bound n (2 ^ 8) ltac:(lia)).
  destruct (rgbToHex_digits (255 - (n / 2 ^ 16) mod 2 ^ 8)
              (255 - (n / 2 ^ 8) mod 2 ^ 8) (255 - n mod 2 ^ 8))
    as (digits & -> & Hall & Hlen & Hval); try lia.
  assert (Hne : digits <> EmptyString)
    by (destruct digits; [discriminate Hlen | discriminate]).
  rewrite (stringToHex_digits digits Hall Hne), Hval.
  f_equal. f_equal. Z.to_euclidean_division_equations. lia.
Qed.

(** X30: for a colour from 0 below 2^24, [getComplementaryColor] answers
    a string that reads back as [0xffffff] minus the colour, whether the
    colour is given as a number or as the string that [hexToString]
    prints, and the complement of the complement reads back as the colour.
    A string without a digit is taken for black: its complement is
    [#ffffff]. *)
Theorem getComplementaryColor_twice (n : Z) :
  0 <= n < 2 ^ 24 ->
  exists s s',
    getComplementaryColor (CNumber (Some n)) = Ret s /\
    getComplementaryColor (CString (hexToString (CNumber (Some n)))) = Ret s /\
    stringToHex s = Ret (Some (16777215 - n)) /\
    getComplementaryColor (CString s) = Ret s' /\
    stringToHex s' = Ret (Some n) /\
    (forall t, stringToHex t = Ret None ->
       getComplementaryColor (CString t) = Ret "#ffffff").
Proof.
  intros Hn.
  destruct (complement_of_number n Hn) as (s & Hs & Hread).
  destruct (complement_of_number (16777215 - n) ltac:(lia)) as (s' & Hs' & Hread').
  exists s, s'. split; [exact Hs|]. split; [|split; [exact Hread|split; [|split]]].
  - unfold getComplementaryColor at 1. rewrite hexToString_read_back by lia. exact Hs.
  - unfold getComplementaryColor at 1. rewrite Hread. exact Hs'.
  - rewrite Hread'. f_equal. f_equal. lia.
  - intros t Ht. unfold getComplementaryColor. rewrite Ht. reflexivity.
Qed.

(** *** The theorems at work *)

Lemma rgbToHex_then_stringToHex_witness :
  rgbToHex 255 128 0 = "#ff8000" /\
  String.length (rgbToHex 255 128 0) = 7%nat /\
  exists n,
    stringToHex (rgbToHex 255 128 0) = Ret (Some n) /\
    n = 65536 * 255 + 256 * 128 + 0 /\
    band (sar n 16) 255 = 255 /\ band (sar n 8) 255 = 128 /\ band n 255 = 0.
Proof.
  split; [reflexivity|].
  apply (rgbToHex_then_stringToHex 255 128 0); lia.
Defined.

Lemma getComplementaryColor_twice_witness :
  0 <= 8421504 < 2 ^ 24 /\
  exists s s',
    getComplementaryColor (CNumber (Some 8421504)) = Ret s /\
    getComplementaryColor (CString (hexToString (CNumber (Some 8421504)))) = Ret s /\
    stringToHex s = Ret (Some (16777215 - 8421504)) /\
    getComplementaryColor (CString s) = Ret s' /\
    stringToHex s' = Ret (Some 8421504) /\
    (forall t, stringToHex t = Ret None ->
       getComplementaryColor (CString t) = Ret "#ffffff").
Proof.
  split; [lia|]. apply (getComplementaryColor_twice 8421504). lia.
Defined.

End SceneManagerFacts.
